(** * yDrink reporting periods and metrics: a shallow embedding

    The two core files of the repository are embedded here:

    - [ydrink_periods.py]: the Saturday-anchored bi-weekly window and its
      predecessor;
    - [ydrink_transform_metrics.py]: snapshot selection ([main]), snapshot
      normalisation ([load_raw_snapshots]) and the metrics engine
      ([safe_div], [compute_metrics]).

    Dates are [datetime.date] values held by their proleptic Gregorian
    ordinal, case volumes are binary64 numbers (Rocq's primitive floats),
    a data frame is a list of column labels with one finite map per row. *)

From Stdlib Require Import ZArith Lia Bool List Ascii String Floats DecimalString.
From stdpp Require Import base option list gmap strings.
Import ListNotations.

Set Warnings "-inexact-float".
Set Default Proof Using "Type".

Local Open Scope Z_scope.

(* ===================================================================== *)
(** * Part I: definitions                                                 *)
(* ===================================================================== *)

(** ** [datetime.date]

    A [date] is its ordinal: [date.min] (0001-01-01) has ordinal 1 and
    [date.max] (9999-12-31) has ordinal 3652059.  Arithmetic that leaves
    this range raises [OverflowError] in Python; here it yields [None]. *)

Definition date := Z.

Definition MINORDINAL : Z := 1.
Definition MAXORDINAL : Z := 3652059.

Definition valid_date (d : date) : Prop := MINORDINAL <= d <= MAXORDINAL.

Definition in_range (o : Z) : bool := (MINORDINAL <=? o) && (o <=? MAXORDINAL).

(** [d - timedelta(days=n)] *)
Definition date_sub_days (d : date) (n : Z) : option date :=
  let o := d - n in
  if in_range o then Some o else None.

(** [d.weekday()]: Monday is 0, Sunday is 6. *)
Definition weekday (d : date) : Z := (d + 6) mod 7.

(** *** [date.isoformat()]

    The conversion of an ordinal to year, month, day follows the
    interpreter's [_ord2ymd]. *)

Definition DI400Y : Z := 146097.
Definition DI100Y : Z := 36524.
Definition DI4Y : Z := 1461.

Definition DAYS_IN_MONTH (m : Z) : Z :=
  nth (Z.to_nat m) [-1; 31; 28; 31; 30; 31; 30; 31; 31; 30; 31; 30; 31] 0.

Definition DAYS_BEFORE_MONTH (m : Z) : Z :=
  nth (Z.to_nat m) [-1; 0; 31; 59; 90; 120; 151; 181; 212; 243; 273; 304; 334] 0.

Definition b2z (b : bool) : Z := if b then 1 else 0.

Definition ord2ymd (ordinal : Z) : Z * Z * Z :=
  let n := ordinal - 1 in
  let n400 := n / DI400Y in
  let n := n mod DI400Y in
  let year := n400 * 400 + 1 in
  let n100 := n / DI100Y in
  let n := n mod DI100Y in
  let n4 := n / DI4Y in
  let n := n mod DI4Y in
  let n1 := n / 365 in
  let n := n mod 365 in
  let year := year + n100 * 100 + n4 * 4 + n1 in
  if (n1 =? 4) || (n100 =? 4) then (year - 1, 12, 31)
  else
    let leapyear := (n1 =? 3) && (negb (n4 =? 24) || (n100 =? 3)) in
    let month := Z.shiftr (n + 50) 5 in
    let preceding := DAYS_BEFORE_MONTH month + b2z ((month >? 2) && leapyear) in
    if preceding >? n then
      let month := month - 1 in
      let preceding :=
        preceding - (DAYS_IN_MONTH month + b2z ((month =? 2) && leapyear)) in
      (year, month, n - preceding + 1)
    else (year, month, n - preceding + 1).

Definition digit (z : Z) : ascii := ascii_of_nat (48 + Z.to_nat (z mod 10)).

(** ["%02d"] and ["%04d"] on the values a date can hold. *)
Definition fmt02 (z : Z) : string :=
  String (digit (z / 10)) (String (digit z) EmptyString).

Definition fmt04 (z : Z) : string :=
  String (digit (z / 1000)) (String (digit (z / 100)) (fmt02 z)).

Definition isoformat (d : date) : string :=
  let '(y, m, dd) := ord2ymd d in
  fmt04 y +:+ "-" +:+ fmt02 m +:+ "-" +:+ fmt02 dd.

(** The ordinal of a calendar day, as [date(y, m, d).toordinal()]
    computes it; used to name concrete dates in the examples. *)
Definition is_leap (y : Z) : bool :=
  (y mod 4 =? 0) && (negb (y mod 100 =? 0) || (y mod 400 =? 0)).

Definition ymd2ord (y m d : Z) : Z :=
  let y' := y - 1 in
  y' * 365 + y' / 4 - y' / 100 + y' / 400
  + (DAYS_BEFORE_MONTH m + b2z ((m >? 2) && is_leap y)) + d.

(** ** [ydrink_periods.py] *)

Record BiWeeklyPeriod := {
  start : date;
  end_ : date;  (* Saturday *)
  label : string
}.

Definition most_recent_saturday (d : date) : option date :=
  let days_since_sat := (weekday d - 5) mod 7 in
  date_sub_days d days_since_sat.

(** A [datetime]: its calendar date, the time of day in microseconds and
    the attached zone, if any. *)
Record datetime := {
  dt_date : date;
  dt_micros : Z;
  tzinfo : option string
}.

Definition CT : string := "America/Chicago".

Definition replace_tzinfo (now : datetime) (tz : string) : datetime :=
  {| dt_date := dt_date now; dt_micros := dt_micros now; tzinfo := Some tz |}.

Definition period_label (s e : date) : string :=
  isoformat s +:+ "_to_" +:+ isoformat e.

(** [clock] stands for [datetime.now(CT)], read when [now] is [None]. *)
Definition current_biweekly_period (clock : datetime) (now : option datetime)
  : option BiWeeklyPeriod :=
  let now := match now with None => clock | Some n => n end in
  let now := match tzinfo now with None => replace_tzinfo now CT | Some _ => now end in
  e ← most_recent_saturday (dt_date now);
  s ← date_sub_days e 13;
  Some {| start := s; end_ := e; label := period_label s e |}.

Definition last_biweekly_period (current : BiWeeklyPeriod) : option BiWeeklyPeriod :=
  e ← date_sub_days (end_ current) 14;
  s ← date_sub_days e 13;
  Some {| start := s; end_ := e; label := period_label s e |}.

Definition get_current_period (clock : datetime) : option (date * date) :=
  p ← current_biweekly_period clock None;
  Some (start p, end_ p).

(** The periods the calculator hands out: the current one for some
    reference time, and the predecessor of any period it handed out. *)
Inductive produced : BiWeeklyPeriod -> Prop :=
  | produced_current clock now p :
      valid_date (dt_date (match now with None => clock | Some n => n end)) ->
      current_biweekly_period clock now = Some p -> produced p
  | produced_last p q :
      produced p -> last_biweekly_period p = Some q -> produced q.

(** ** Python strings

    Strings are byte strings.  [split] is [str.split(sep)] for a
    non-empty separator: the occurrences are found left to right and do
    not overlap; [skip] counts the bytes of the separator that are still
    to be passed over. *)

Fixpoint split_go (sep : string) (skip : nat) (cur : string) (s : string)
  : list string :=
  match s with
  | EmptyString => [cur]
  | String c s' =>
      match skip with
      | S k => split_go sep k cur s'
      | O =>
          if String.prefix sep s
          then cur :: split_go sep (String.length sep - 1) EmptyString s'
          else split_go sep 0 (cur +:+ String c EmptyString) s'
      end
  end.

Definition split (sep s : string) : list string := split_go sep 0 EmptyString s.

(** [sub in s] *)
Fixpoint contains (sub s : string) : bool :=
  String.prefix sub s ||
  match s with
  | EmptyString => false
  | String _ s' => contains sub s'
  end.

(** [str.lower()] on ASCII letters; other bytes are kept. *)
Definition lower_ascii (c : ascii) : ascii :=
  let n := nat_of_ascii c in
  if (65 <=? n)%nat && (n <=? 90)%nat then ascii_of_nat (n + 32) else c.

Fixpoint lower (s : string) : string :=
  match s with
  | EmptyString => EmptyString
  | String c s' => String (lower_ascii c) (lower s')
  end.

Definition startswith (s pre : string) : bool := String.prefix pre s.

(** A [glob] pattern of one path component: literal bytes and [*]. *)
Inductive glob_token := GLit (c : ascii) | GStar.

Fixpoint glob_lit (s : string) : list glob_token :=
  match s with
  | EmptyString => []
  | String c s' => GLit c :: glob_lit s'
  end.

Fixpoint fnmatch (pat : list glob_token) : string -> bool :=
  match pat with
  | [] => fun s => match s with EmptyString => true | _ => false end
  | GLit c :: pat' =>
      fun s => match s with
               | String c' s' => Ascii.eqb c c' && fnmatch pat' s'
               | EmptyString => false
               end
  | GStar :: pat' =>
      fix star (s : string) : bool :=
        fnmatch pat' s ||
        match s with
        | String _ s' => star s'
        | EmptyString => false
        end
  end.

(** ** Errors

    Every [raise] of [ydrink_transform_metrics.py], with the data its
    message is built from.  The first six are [ValueError]s,
    [NoSnapshotsFound] is the [FileNotFoundError] of [main] and
    [OutputMissingColumns] its [RuntimeError]; [KeyError] is what pandas
    raises when a column that is read does not exist.  [DuplicateLabel]
    and [NotFloat64] mark frames the embedding does not follow (see
    [normalize] and [num_at]). *)
Inductive error :=
  | NoPathsProvided
  | MissingAccountId (name : string)
  | UnexpectedFilename (name : string)
  | MissingMetricColumns (name : string) (missing : list string)
  | RowsMissingPeriodEnd (missing_n : nat)
  | NoSnapshotsFound (period_end : string)
  | OutputMissingColumns (missing : list string)
  | KeyError (column : string)
  | DuplicateLabel (name : string) (column : string)
  | NotFloat64 (column : string).

Inductive result (A : Type) :=
  | Ok (a : A)
  | Err (e : error).
Arguments Ok {A} a.
Arguments Err {A} e.

#[global] Instance result_ret : MRet result := fun A a => Ok a.
#[global] Instance result_bind : MBind result := fun A B f m =>
  match m with
  | Ok a => f a
  | Err e => Err e
  end.

(** ** Data frames

    A cell is what one entry of a frame holds: Python's [None], pandas'
    [pd.NA], a string, an [int64], a [float64] (NaN is the missing value
    of [read_csv] and of [concat]) or a boolean. *)
Inductive cell :=
  | CNone
  | CNA
  | CStr (s : string)
  | CInt (z : Z)
  | CNum (x : float)
  | CBool (b : bool).

Record DataFrame := {
  columns : list string;
  rows : list (gmap string cell)
}.

(** The entry of a row under a label; a label the row does not carry
    reads as NaN, which is how [pd.concat] fills it. *)
Definition cell_at (r : gmap string cell) (k : string) : cell :=
  default (CNum nan) (r !! k).

Definition isna (c : cell) : bool :=
  match c with
  | CNone | CNA => true
  | CNum x => is_nan x
  | _ => false
  end.

(** What the embedding takes from the runtime without modelling it: the
    text of a [float64] ([str(x)]) and the number a string denotes for
    [pd.to_numeric] (NaN when it denotes none). *)
Class Runtime := {
  float_str : float -> string;
  parse_number : string -> float
}.

Definition float_of_Z (z : Z) : float :=
  SF2Prim (binary_normalize prec emax z 0 false).

Section Frames.
Context `{Runtime}.

(** [astype(str)] on one entry. *)
Definition str_of_cell (c : cell) : string :=
  match c with
  | CNone => "None"
  | CNA => "<NA>"
  | CStr s => s
  | CInt z => NilZero.string_of_int (Z.to_int z)
  | CNum x => float_str x
  | CBool true => "True"
  | CBool false => "False"
  end.

(** [pd.to_numeric(..., errors="coerce")] on one entry, as a [float64].
    A boolean counts as 1.0 or 0.0 where it stands among other objects;
    a column of booleans only is left as it is by pandas, and the
    theorems on the loader leave such columns out ([numeric_cases]). *)
Definition to_numeric (c : cell) : float :=
  match c with
  | CNone | CNA => nan
  | CStr s => parse_number s
  | CInt z => float_of_Z z
  | CNum x => x
  | CBool true => 1%float
  | CBool false => 0%float
  end.

(** [df[c] = value], on the labels and on one row. *)
Definition add_label (c : string) (cols : list string) : list string :=
  if bool_decide (c ∈ cols) then cols else cols ++ [c].

(** ** The metrics engine *)

(** [safe_div] on one pair of entries.  [denom.replace({0: pd.NA})]
    makes a zero denominator (of either sign) missing, the quotient of a
    missing denominator is missing, and [fillna(0.0)] turns every missing
    quotient, NaN included, into [0.0]. *)
Definition replace_zero_na (denom : float) : option float :=
  if (denom =? 0)%float then None else Some denom.

Definition div_na (numer : float) (denom2 : option float) : option float :=
  match denom2 with
  | None => None
  | Some d => Some (numer / d)%float
  end.

Definition fillna0 (out : option float) : float :=
  match out with
  | None => 0%float
  | Some q => if is_nan q then 0%float else q
  end.

Definition safe_div (numer denom : float) : float :=
  let denom2 := replace_zero_na denom in
  let out := div_na numer denom2 in
  fillna0 out.

(** [Series.clip(lower=0)] and [Series.clip(upper=0)] on one entry: a
    missing entry is kept, any other entry below (above) the threshold
    is replaced by it. *)
Definition clip_lower0 (x : float) : float :=
  if is_nan x || (0 <=? x)%float then x else 0%float.

Definition clip_upper0 (x : float) : float :=
  if is_nan x || (x <=? 0)%float then x else 0%float.

(** A numeric entry of a row.  The four case columns are [float64]
    columns, as [load_raw_snapshots] leaves them; on any other entry the
    embedding stops with [NotFloat64]. *)
Definition num_at (r : gmap string cell) (k : string) : result float :=
  match cell_at r k with
  | CNum x => Ok x
  | _ => Err (NotFloat64 k)
  end.

Definition str_at (r : gmap string cell) (k : string) : string :=
  str_of_cell (cell_at r k).

(** The body of [compute_metrics] on one row, one assignment per line of
    the source; every operand is read from the frame as it stands at
    that line. *)
Definition compute_row (raw : gmap string cell) : result (gmap string cell) :=
  let df := raw in
  a ← num_at df "brand_cases"; b ← num_at df "category_cases";
  let df := <["share_of_category" := CNum (safe_div a b)]> df in
  a ← num_at df "brand_cases_lp"; b ← num_at df "category_cases_lp";
  let df := <["share_of_category_lp" := CNum (safe_div a b)]> df in
  a ← num_at df "brand_cases"; b ← num_at df "brand_cases_lp";
  let df := <["delta_brand_cases" := CNum (a - b)]> df in
  a ← num_at df "category_cases"; b ← num_at df "category_cases_lp";
  let df := <["delta_category_cases" := CNum (a - b)]> df in
  a ← num_at df "share_of_category"; b ← num_at df "share_of_category_lp";
  let df := <["delta_share" := CNum (a - b)]> df in
  a ← num_at df "category_cases"; b ← num_at df "share_of_category_lp";
  let df := <["expected_cases_if_maintained_share" := CNum (a * b)]> df in
  a ← num_at df "brand_cases"; b ← num_at df "expected_cases_if_maintained_share";
  let df := <["share_gain_cases" := CNum (a - b)]> df in
  a ← num_at df "share_gain_cases";
  let df := <["true_difference_cases" := CNum a]> df in
  a ← num_at df "true_difference_cases";
  let df := <["true_up_cases" := CNum (clip_lower0 a)]> df in
  a ← num_at df "true_difference_cases";
  let df := <["true_down_cases" := CNum (clip_upper0 a)]> df in
  a ← num_at df "expected_cases_if_maintained_share"; b ← num_at df "brand_cases_lp";
  let df := <["category_effect_cases" := CNum (a - b)]> df in
  let df := <["unique_key" :=
                CStr (str_at df "account_id" +:+ "|" +:+
                      str_at df "brand" +:+ "|" +:+
                      str_at df "period_end")]> df in
  let df := <["is_current_period" := CBool true]> df in
  let df := <["is_last_period" := CBool false]> df in
  let df := <["baseline_brand_cases" := CNA]> df in
  let df := <["baseline_category_cases" := CNA]> df in
  let df := <["expected_share" := CNA]> df in
  let df := <["expected_cases" := CNA]> df in
  let df := <["gap_cases" := CNA]> df in
  let df := <["gap_cases_positive" := CNA]> df in
  Ok df.

(** The labels [compute_metrics] assigns, in the order of the source. *)
Definition derived_columns : list string :=
  ["share_of_category"; "share_of_category_lp"; "delta_brand_cases";
   "delta_category_cases"; "delta_share"; "expected_cases_if_maintained_share";
   "share_gain_cases"; "true_difference_cases"; "true_up_cases";
   "true_down_cases"; "category_effect_cases"; "unique_key";
   "is_current_period"; "is_last_period"; "baseline_brand_cases";
   "baseline_category_cases"; "expected_share"; "expected_cases"; "gap_cases";
   "gap_cases_positive"].

(** The labels it reads from its argument, in the order it first reads
    them; the first that is missing is the [KeyError]. *)
Definition read_columns : list string :=
  ["brand_cases"; "category_cases"; "brand_cases_lp"; "category_cases_lp";
   "account_id"; "brand"; "period_end"].

Definition first_missing (needed cols : list string) : option string :=
  List.find (fun c => negb (bool_decide (c ∈ cols))) needed.

Definition compute_metrics (raw : DataFrame) : result DataFrame :=
  match first_missing read_columns (columns raw) with
  | Some c => Err (KeyError c)
  | None =>
      rs ← mapM compute_row (rows raw);
      Ok {| columns := fold_left (fun cols c => add_label c cols)
                                 derived_columns (columns raw);
            rows := rs |}
  end.

End Frames.

(** A runtime for the examples, none of which renders or parses a
    number: every number renders as ["nan"] and no string denotes one. *)
Definition plain_runtime : Runtime :=
  {| float_str := fun _ => "nan"%string; parse_number := fun _ => nan |}.

Section FramesClosedForm.
Context `{Runtime}.

(** [compute_row] in closed form: the row it returns on the four case
    volumes [b], [c], [blp], [clp] of its argument. *)
Definition metrics_row (raw : gmap string cell) (b c blp clp : float)
  : gmap string cell :=
  let share := safe_div b c in
  let share_lp := safe_div blp clp in
  let expected := (c * share_lp)%float in
  let td := (b - expected)%float in
  <["gap_cases_positive" := CNA]> (
  <["gap_cases" := CNA]> (
  <["expected_cases" := CNA]> (
  <["expected_share" := CNA]> (
  <["baseline_category_cases" := CNA]> (
  <["baseline_brand_cases" := CNA]> (
  <["is_last_period" := CBool false]> (
  <["is_current_period" := CBool true]> (
  <["unique_key" := CStr (str_at raw "account_id" +:+ "|" +:+
                          str_at raw "brand" +:+ "|" +:+
                          str_at raw "period_end")]> (
  <["category_effect_cases" := CNum (expected - blp)]> (
  <["true_down_cases" := CNum (clip_upper0 td)]> (
  <["true_up_cases" := CNum (clip_lower0 td)]> (
  <["true_difference_cases" := CNum td]> (
  <["share_gain_cases" := CNum td]> (
  <["expected_cases_if_maintained_share" := CNum expected]> (
  <["delta_share" := CNum (share - share_lp)]> (
  <["delta_category_cases" := CNum (c - clp)]> (
  <["delta_brand_cases" := CNum (b - blp)]> (
  <["share_of_category_lp" := CNum share_lp]> (
  <["share_of_category" := CNum share]> raw))))))))))))))))))).

End FramesClosedForm.

(** The rows [compute_metrics] is defined on: binary64 numbers in the
    four case columns. *)
Definition float64_cases (r : gmap string cell) : Prop :=
  forall k, k ∈ ["brand_cases"; "category_cases"; "brand_cases_lp"; "category_cases_lp"] ->
            exists x, cell_at r k = CNum x.

(** ** Snapshot files

    A raw snapshot on disk: [p.stem] and [p.suffix] of its path (so that
    [p.name] is their concatenation), [p.stat().st_mtime], and the frame
    [pd.read_csv(p)] returns for it. *)
Record Path := {
  stem : string;
  suffix : string;
  st_mtime : float;
  csv : DataFrame
}.

Definition name (p : Path) : string := stem p +:+ suffix p.

(** [sorted] on paths of one directory: a stable sort by name. *)
Definition path_leb (p q : Path) : bool := String.leb (name p) (name q).

Fixpoint insert_sorted (p : Path) (l : list Path) : list Path :=
  match l with
  | [] => [p]
  | q :: l' => if path_leb p q then p :: q :: l' else q :: insert_sorted p l'
  end.

Definition sorted (l : list Path) : list Path := foldr insert_sorted [] l.

(** ** [load_raw_snapshots] *)

Definition rename_map : list (string * string) :=
  [("cases", "brand_cases"); ("cases_lp", "brand_cases_lp");
   ("ms_category", "category_cases"); ("ms_category_lp", "category_cases_lp");
   ("establishment_id", "account_id"); ("est_id", "account_id")]%string.

Definition rename_label (k : string) : string :=
  match List.find (fun kv => String.eqb (fst kv) k) rename_map with
  | Some kv => snd kv
  | None => k
  end.

(** [df.rename(columns=...)] on one row: the entry under each export
    label moves to the label of the schema. *)
Definition rename_row (r : gmap string cell) : gmap string cell :=
  fold_left (fun acc kv =>
               match r !! fst kv with
               | Some x => <[snd kv := x]> (delete (fst kv) acc)
               | None => acc
               end) rename_map r.

Definition rename (df : DataFrame) : DataFrame :=
  {| columns := map rename_label (columns df);
     rows := map rename_row (rows df) |}.

(** [df[c] = v] for a scalar [v]. *)
Definition set_column (c : string) (v : cell) (df : DataFrame) : DataFrame :=
  {| columns := add_label c (columns df);
     rows := map (fun r => <[c := v]> r) (rows df) |}.

Definition required_metric_cols : list string :=
  ["brand_cases"; "category_cases"; "brand_cases_lp"; "category_cases_lp"].

(** The [period_end] read off a period label: the second component of
    the label split on ["_to_"], [None] when the label does not hold the
    separator. *)
Definition infer_period_end (period_label : string) : option string :=
  if contains "_to_" period_label
  then match split "_to_" period_label with
       | _ :: e :: _ => Some e
       | _ => None
       end
  else None.

Definition option_cell (o : option string) : cell :=
  match o with
  | Some s => CStr s
  | None => CNone
  end.

Definition first_duplicate (cols : list string) : option string :=
  List.find (fun c => (1 <? count_occ string_dec cols c)%nat) cols.

(** The body of the loop of [load_raw_snapshots] for one path.  When
    the renaming puts two columns under one label pandas keeps both and
    raises once that label is read as one column; a row of the embedding
    holds one entry per label, and the embedding stops at once with
    [DuplicateLabel].  Where it matters which error the program raises,
    the theorems take files with [unique_labels] (below). *)
Definition normalize (p : Path) : result DataFrame :=
  let df := rename (csv p) in
  match first_duplicate (columns df) with
  | Some c => Err (DuplicateLabel (name p) c)
  | None =>
      if negb (bool_decide ("account_id" ∈ columns df))
      then Err (MissingAccountId (name p))
      else
        let parts := split "__" (stem p) in
        if (4 <=? length parts)%nat
           && startswith (lower (nth 0 parts "")) "establishmentdata"
        then
          let brand := nth 1 parts "" in
          let period_label := nth 2 parts "" in
          let df := set_column "brand" (CStr brand) df in
          let df := set_column "period_label" (CStr period_label) df in
          let period_end := infer_period_end period_label in
          let df := set_column "period_end" (option_cell period_end) df in
          let missing_metrics :=
            List.filter (fun c => negb (bool_decide (c ∈ columns df)))
                        required_metric_cols in
          match missing_metrics with
          | [] => Ok df
          | _ => Err (MissingMetricColumns (name p) missing_metrics)
          end
        else Err (UnexpectedFilename (name p))
  end.

(** [pd.concat(frames, ignore_index=True)]: the labels in the order of
    their first appearance, the rows one frame after the other. *)
Definition concat_frames (frames : list DataFrame) : DataFrame :=
  {| columns := fold_left (fun acc df =>
                             fold_left (fun a c => add_label c a) (columns df) acc)
                          frames [];
     rows := concat (map rows frames) |}.

Section Loader.
Context `{Runtime}.

(** [pd.to_numeric(raw[c], errors="coerce").fillna(0.0)] on one row.
    An all-integer column stays [int64] in pandas; the embedding holds
    its entries as binary64 numbers, which are the same numbers up to
    2^53 in magnitude ([numeric_cases] below). *)
Definition coerce_entry (c : string) (r : gmap string cell) : gmap string cell :=
  let x := to_numeric (cell_at r c) in
  <[c := CNum (if is_nan x then 0%float else x)]> r.

Definition coerce_row (r : gmap string cell) : gmap string cell :=
  fold_left (fun acc c => coerce_entry c acc) required_metric_cols r.

Definition load_raw_snapshots (paths : list Path) : result DataFrame :=
  match paths with
  | [] => Err NoPathsProvided
  | _ =>
      frames ← mapM normalize paths;
      let raw := concat_frames frames in
      let raw := {| columns := columns raw; rows := map coerce_row (rows raw) |} in
      let missing_n :=
        length (List.filter (fun r => isna (cell_at r "period_end")) (rows raw)) in
      if (0 <? missing_n)%nat
      then Err (RowsMissingPeriodEnd missing_n)
      else Ok raw
  end.

(** ** [main] *)

Inductive Mode := LatestPerBrand | AllSnapshots.

(** [f"establishmentdata__*__*_to_{period_end}__run_*.csv"], for a
    [period_end] that stands for itself in the pattern ([glob_plain]),
    as a date does: its characters are taken literally. *)
Definition snapshot_pattern (period_end : string) : list glob_token :=
  glob_lit "establishmentdata__" ++ [GStar] ++ glob_lit "__" ++ [GStar]
  ++ glob_lit ("_to_" +:+ period_end +:+ "__run_") ++ [GStar]
  ++ glob_lit ".csv".

Definition glob (raw_dir : list Path) (pat : list glob_token) : list Path :=
  List.filter (fun p => fnmatch pat (name p)) raw_dir.

(** The dictionary [latest_by_brand], in insertion order. *)
Fixpoint dict_set (k : string) (v : Path) (d : list (string * Path))
  : list (string * Path) :=
  match d with
  | [] => [(k, v)]
  | (k', v') :: d' =>
      if String.eqb k k' then (k, v) :: d' else (k', v') :: dict_set k v d'
  end.

Fixpoint dict_get (k : string) (d : list (string * Path)) : option Path :=
  match d with
  | [] => None
  | (k', v') :: d' => if String.eqb k k' then Some v' else dict_get k d'
  end.

(** One turn of the loop over the candidates. *)
Definition latest_step (latest_by_brand : list (string * Path)) (p : Path)
  : list (string * Path) :=
  let parts := split "__" (name p) in
  if (length parts <? 4)%nat then latest_by_brand
  else
    let brand := nth 1 parts "" in
    match dict_get brand latest_by_brand with
    | None => dict_set brand p latest_by_brand
    | Some q =>
        if (st_mtime q <? st_mtime p)%float
        then dict_set brand p latest_by_brand
        else latest_by_brand
    end.

Definition select_raw_files (mode : Mode) (candidates : list Path) : list Path :=
  match mode with
  | AllSnapshots => candidates
  | LatestPerBrand =>
      let latest_by_brand := fold_left latest_step candidates [] in
      sorted (map snd latest_by_brand)
  end.

Definition required_out_cols : list string :=
  ["unique_key"; "brand"; "period_end"; "true_difference_cases"].

(** [main] up to the call of [write_outputs]: [Ok metrics] is the table
    handed to it, an error means nothing is written.  [raw_dir] lists
    the files of the directory, [now] is the entry
    [pd.Timestamp.now()] becomes. *)
Definition main (period_end : string) (raw_dir : list Path) (mode : Mode)
    (now : cell) : result DataFrame :=
  let candidates := sorted (glob raw_dir (snapshot_pattern period_end)) in
  match candidates with
  | [] => Err (NoSnapshotsFound period_end)
  | _ =>
      let raw_files := select_raw_files mode candidates in
      raw ← load_raw_snapshots raw_files;
      metrics ← compute_metrics raw;
      let metrics :=
        if bool_decide ("run_timestamp" ∈ columns metrics) then metrics
        else set_column "run_timestamp" now metrics in
      let missing_out :=
        List.filter (fun c => negb (bool_decide (c ∈ columns metrics)))
                    required_out_cols in
      match missing_out with
      | [] => Ok metrics
      | _ => Err (OutputMissingColumns missing_out)
      end
  end.

End Loader.

(** The brand [main] files a candidate under, if it files it at all. *)
Definition brand_of (p : Path) : option string :=
  let parts := split "__" (name p) in
  if (length parts <? 4)%nat then None else Some (nth 1 parts "").

(** The period label [load_raw_snapshots] reads off a path. *)
Definition label_of (p : Path) : string := nth 2 (split "__" (stem p)) EmptyString.

Definition tag_row (p : Path) (r : gmap string cell) : gmap string cell :=
  <["period_end" := option_cell (infer_period_end (label_of p))]> (
  <["period_label" := CStr (label_of p)]> (
  <["brand" := CStr (nth 1 (split "__" (stem p)) EmptyString)]> (rename_row r))).

(** The rows [load_raw_snapshots] is given under labels without the
    separator. *)
Definition unlabelled_rows (paths : list Path) : nat :=
  sum_list (map (fun p => if contains "_to_" (label_of p) then 0%nat
                          else length (rows (csv p))) paths).

(** Snapshot files for the examples: two pulls of one brand, a pull of
    another brand, and a file whose period segment is not a period
    label, with one row and with none. *)
Definition export_columns : list string :=
  ["establishment_id"; "cases"; "cases_lp"; "ms_category"; "ms_category_lp"].

Definition export_row (id : string) (b blp c clp : float) : gmap string cell :=
  <["establishment_id" := CStr id]> (
  <["cases" := CNum b]> (
  <["cases_lp" := CNum blp]> (
  <["ms_category" := CNum c]> (
  <["ms_category_lp" := CNum clp]> ∅)))).

Definition snapshot (stem0 : string) (mtime : float)
    (body : list (gmap string cell)) : Path :=
  {| stem := stem0; suffix := ".csv"; st_mtime := mtime;
     csv := {| columns := export_columns; rows := body |} |}.

Definition old_acme : Path :=
  snapshot "establishmentdata__acme__2024-03-03_to_2024-03-16__run_20240317_080000"
           1710662400 [export_row "1001" 1 1 2 2].

Definition new_acme : Path :=
  snapshot "establishmentdata__acme__2024-03-03_to_2024-03-16__run_20240318_080000"
           1710748800 [export_row "1001" 120 100 400 500].

Definition zeta : Path :=
  snapshot "establishmentdata__zeta__2024-03-03_to_2024-03-16__run_20240317_080000"
           1710662400 [export_row "1007" 3 4 5 0].

Definition unlabelled : Path :=
  snapshot "establishmentdata__acme__20240316__x_to_2024-03-16__run_1"
           1710662400 [export_row "1001" 1 1 2 2].

Definition unlabelled_empty : Path :=
  snapshot "establishmentdata__acme__20240316__x_to_2024-03-16__run_1"
           1710662400 [].

(** Fact tables for the examples. *)
Definition fact_row (account_id brand period_end : string) (b c blp clp : float)
  : gmap string cell :=
  <["account_id" := CStr account_id]> (
  <["brand" := CStr brand]> (
  <["period_end" := CStr period_end]> (
  <["brand_cases" := CNum b]> (
  <["category_cases" := CNum c]> (
  <["brand_cases_lp" := CNum blp]> (
  <["category_cases_lp" := CNum clp]> ∅)))))).

Definition fact_columns : list string :=
  ["account_id"; "brand_cases"; "category_cases"; "brand_cases_lp";
   "category_cases_lp"; "brand"; "period_label"; "period_end"].

Definition scenario_B_frame : DataFrame :=
  {| columns := fact_columns;
     rows := [fact_row "1001" "acme" "2024-03-16" 120 400 100 500] |}.


Definition overflow_frame : DataFrame :=
  {| columns := fact_columns;
     rows := [fact_row "1001" "acme" "2024-03-16" 0 0 1e308 1e-308] |}.

Definition rounding_frame : DataFrame :=
  {| columns := fact_columns;
     rows := [fact_row "1001" "acme" "2024-03-16" 2 7 1 10] |}.

Definition zero_lp_frame : DataFrame :=
  {| columns := fact_columns;
     rows := [fact_row "1001" "acme" "2024-03-16" 5 10 3 0] |}.

Definition collision_frame : DataFrame :=
  {| columns := fact_columns;
     rows := [fact_row "A|B" "C" "2024-03-16" 1 2 1 2;
              fact_row "A" "B|C" "2024-03-16" 1 2 1 2] |}.

Definition flagged_frame : DataFrame :=
  {| columns := fact_columns ++ ["is_last_period"];
     rows := [<["is_last_period" := CBool true]>
                (fact_row "1001" "acme" "2024-03-16" 120 400 100 500)] |}.

(** The key of a row, from its own entries. *)
Definition key_of `{Runtime} (r : gmap string cell) : string :=
  str_at r "account_id" +:+ "|" +:+ str_at r "brand" +:+ "|" +:+
  str_at r "period_end".

Definition key_triple `{Runtime} (r : gmap string cell) : string * string * string :=
  (str_at r "account_id", str_at r "brand", str_at r "period_end").

(** ** [ydrink_pull_playwright.py]: the calls into the period logic

    The pull script is the caller of [get_current_period]; it also
    carries its own copy of the window arithmetic and derives the
    compare period it sets in the yDrink session. *)
Module Pull.

Record PeriodWindow := {
  start_date : string;   (* YYYY-MM-DD *)
  end_date : string;     (* YYYY-MM-DD *)
  period_label : string  (* safe label for filenames *)
}.

(** [d.strftime("%Y-%m-%d")]; it is [d.isoformat()] from year 1000 on,
    where [%Y] has four digits on every platform. *)
Definition strftime_Ymd (d : date) : string := isoformat d.

Definition _period_from_locked_logic (clock : datetime) : option PeriodWindow :=
  se ← get_current_period clock;
  let start_s := strftime_Ymd (fst se) in
  let end_s := strftime_Ymd (snd se) in
  let label := start_s +:+ "_to_" +:+ end_s in
  Some {| start_date := start_s; end_date := end_s; period_label := label |}.

(** [clock_today] stands for
    [datetime.now(ZoneInfo("America/Chicago")).date()]. *)
Definition _locked_biweekly_window_chicago (clock_today : date)
    (today : option date) : option (date * date) :=
  let today := match today with None => clock_today | Some d => d end in
  let days_since_sat := (weekday today - 5) mod 7 in
  period_end ← date_sub_days today days_since_sat;
  period_start ← date_sub_days period_end 13;
  Some (period_start, period_end).

(** [_set_sales_and_compare_periods], as the [change_settings] requests
    it sends, in order: the setting and its value. *)
Definition _set_sales_and_compare_periods (sales_start sales_end : date)
  : option (list (string * string)) :=
  compare_end ← date_sub_days sales_start 1;
  compare_start ← date_sub_days compare_end 13;
  Some [("sales_period_start", isoformat sales_start);
        ("sales_period_end", isoformat sales_end);
        ("compare_period_start", isoformat compare_start);
        ("compare_period_end", isoformat compare_end)]%string.

(** [_safe_slug], on strings of ASCII characters.  [is_space] is
    [str.isspace] there; [lstrip], [rstrip] and [strip] remove the
    characters of a class from the ends; [collapse] is
    [re.sub(r"[^a-z0-9]+", "_", s)]: every maximal run of characters
    outside [a-z0-9] becomes one ["_"] ([in_run] tells that the run has
    already been replaced). *)
Definition is_space (c : ascii) : bool :=
  let n := nat_of_ascii c in
  ((9 <=? n)%nat && (n <=? 13)%nat) || ((28 <=? n)%nat && (n <=? 32)%nat).

Definition is_slug_char (c : ascii) : bool :=
  let n := nat_of_ascii c in
  ((97 <=? n)%nat && (n <=? 122)%nat) || ((48 <=? n)%nat && (n <=? 57)%nat).

Fixpoint lstrip (f : ascii -> bool) (s : string) : string :=
  match s with
  | EmptyString => EmptyString
  | String c s' => if f c then lstrip f s' else s
  end.

Fixpoint rstrip (f : ascii -> bool) (s : string) : string :=
  match s with
  | EmptyString => EmptyString
  | String c s' =>
      match rstrip f s' with
      | EmptyString => if f c then EmptyString else String c EmptyString
      | t => String c t
      end
  end.

Definition strip (f : ascii -> bool) (s : string) : string := rstrip f (lstrip f s).

Fixpoint collapse (in_run : bool) (s : string) : string :=
  match s with
  | EmptyString => EmptyString
  | String c s' =>
      if is_slug_char c then String c (collapse false s')
      else if in_run then collapse true s'
      else String "_" (collapse true s')
  end.

Definition _safe_slug (s : string) : string :=
  let s := lower (strip is_space s) in
  let s := collapse false s in
  strip (Ascii.eqb "_") s.

(** [now.strftime("%Y%m%d_%H%M%S")] *)
Definition strftime_stamp (now : datetime) : string :=
  let '(y, m, dd) := ord2ymd (dt_date now) in
  let secs := dt_micros now / 1000000 in
  fmt04 y +:+ fmt02 m +:+ fmt02 dd +:+ "_"
  +:+ fmt02 (secs / 3600) +:+ fmt02 (secs / 60 mod 60) +:+ fmt02 (secs mod 60).

(** The file name [_write_csv_snapshot] saves a pull under; [now] stands
    for [datetime.now()]. *)
Definition snapshot_stem (brand : string) (period : PeriodWindow) (now : datetime)
  : string :=
  "establishmentdata__" +:+ _safe_slug brand +:+ "__" +:+ period_label period
  +:+ "__run_" +:+ strftime_stamp now.

Definition snapshot_filename (brand : string) (period : PeriodWindow)
    (now : datetime) : string :=
  snapshot_stem brand period now +:+ ".csv".

End Pull.

(** ** Strings without a separator

    [starts_none sep s rest]: no occurrence of [sep] starts inside [s]
    when [s] is followed by [rest].  [underscore_free s]: [s] holds no
    ["_"].  [tame s]: every ["_"] of [s] is followed by another
    character, which is not ["_"]. *)
Fixpoint starts_none (sep s rest : string) : bool :=
  match s with
  | EmptyString => true
  | String c s' => negb (String.prefix sep (s +:+ rest)) && starts_none sep s' rest
  end.

Fixpoint underscore_free (s : string) : bool :=
  match s with
  | EmptyString => true
  | String c s' => negb (Ascii.eqb c "_") && underscore_free s'
  end.

Fixpoint tame (s : string) : bool :=
  match s with
  | EmptyString => true
  | String c s' =>
      (if Ascii.eqb c "_"
       then match s' with
            | String c' _ => negb (Ascii.eqb c' "_")
            | EmptyString => false
            end
       else true) && tame s'
  end.

(** [all_chars g s]: every character of [s] is in the class [g].
    [no_double s]: no ["_"] of [s] is followed by another ["_"].
    [head_is g s]: [s] starts with a character of the class [g]. *)
Fixpoint all_chars (g : ascii -> bool) (s : string) : bool :=
  match s with
  | EmptyString => true
  | String c s' => g c && all_chars g s'
  end.

Fixpoint no_double (s : string) : bool :=
  match s with
  | EmptyString => true
  | String c s' =>
      (if Ascii.eqb c "_"
       then match s' with
            | String c' _ => negb (Ascii.eqb c' "_")
            | EmptyString => true
            end
       else true) && no_double s'
  end.

Definition head_is (g : ascii -> bool) (s : string) : bool :=
  match s with
  | EmptyString => false
  | String c _ => g c
  end.

(** The characters of a slug. *)
Definition slug_alphabet (c : ascii) : bool := Pull.is_slug_char c || Ascii.eqb c "_".

(** The errors [load_raw_snapshots] raises: its five [ValueError]s.
    [DuplicateLabel] is none of them: it marks the files the embedding
    does not follow. *)
Definition is_load_error (e : error) : bool :=
  match e with
  | NoPathsProvided | MissingAccountId _ | UnexpectedFilename _
  | MissingMetricColumns _ _ | RowsMissingPeriodEnd _ => true
  | NoSnapshotsFound _ | OutputMissingColumns _ | KeyError _ | NotFloat64 _
  | DuplicateLabel _ _ => false
  end.

(** ** The inputs the loader theorems speak about

    [unique_labels p]: the renaming puts no two columns of the file
    under one label.  pandas keeps both such columns and goes on; a row
    of the embedding holds one entry per label, and [normalize] stops
    there with [DuplicateLabel].  [numeric_cases p]: no entry of a case
    column of the file is a boolean, and an integer entry is at most
    2^53 in magnitude.  pandas keeps a column that [read_csv] typed
    [bool] as it is through [to_numeric], and an [int64] column stays
    [int64]; the embedding holds the [float64] of each entry, which for
    such an integer is the integer itself.  [glob_plain s]: [s] holds
    none of the characters [Path.glob] gives a meaning to, so that it
    stands for itself in a pattern. *)
Definition unique_labels (p : Path) : bool :=
  match first_duplicate (columns (rename (csv p))) with
  | None => true
  | Some _ => false
  end.

Definition float64_entry (c : cell) : bool :=
  match c with
  | CBool _ => false
  | CInt z => Z.abs z <=? 2 ^ 53
  | _ => true
  end.

Definition numeric_cases (p : Path) : bool :=
  forallb (fun r => forallb (fun c => float64_entry (cell_at (rename_row r) c))
                            required_metric_cols)
          (rows (csv p)).

Definition glob_plain (s : string) : bool :=
  all_chars (fun c => negb (Ascii.eqb c "*" || Ascii.eqb c "?"
                            || Ascii.eqb c "[" || Ascii.eqb c "/")) s.

(** ** The value of a binary64 number

    Every finite binary64 number is a whole multiple of [2^-1074], the
    smallest positive one.  [value x] is that multiple: the value of a
    finite [x] is [value x * 2^-1074] (so [value 1 = 2^1074]); it is [0]
    for an infinity or a NaN, which the lemmas exclude by [is_finite].
    [SFfinite] tells the zeros and the finite numbers from the rest. *)
Definition SFvalue (x : spec_float) : Z :=
  match x with
  | S754_finite s m e => cond_Zopp s (Zpos m * 2 ^ (e + 1074))
  | _ => 0
  end.

Definition value (x : float) : Z := SFvalue (Prim2SF x).

Definition SFfinite (x : spec_float) : bool :=
  match x with
  | S754_zero _ | S754_finite _ _ _ => true
  | _ => false
  end.

(** What [k] right shifts of [shr_1] keep of a mantissa [M >= 0]: the
    bits shifted out are [r] (the last one) and [L] (those before it),
    and the sticky bit [s] tells whether [L] is zero. *)
Definition shr_inv (M k : Z) (mrs : shr_record) : Prop :=
  0 <= shr_m mrs /\
  exists L, 0 <= L < 2 ^ k /\ (shr_s mrs = false <-> L = 0) /\
    2 * M = shr_m mrs * 2 ^ (k + 1) + (if shr_r mrs then 2 ^ k else 0) + L.

(* ===================================================================== *)
(** * Part II: theorems                                                   *)
(* ===================================================================== *)

Example ordinal_2024_03_16 : ymd2ord 2024 3 16 = 738961.
Proof. reflexivity. Qed.

Example isoformat_2024_03_16 : isoformat 738961 = "2024-03-16"%string.
Proof. reflexivity. Qed.

Example weekday_2024_03_16 : weekday 738961 = 5.
Proof. reflexivity. Qed.

(** Scenario A of the specification: reference date 2024-03-16. *)
Example scenario_A clock :
  current_biweekly_period clock
    (Some {| dt_date := ymd2ord 2024 3 16; dt_micros := 0; tzinfo := None |})
  = Some {| start := ymd2ord 2024 3 3; end_ := ymd2ord 2024 3 16;
            label := "2024-03-03_to_2024-03-16" |}.
Proof. reflexivity. Qed.

Example isoformat_bounds :
  isoformat MINORDINAL = "0001-01-01"%string /\
  isoformat MAXORDINAL = "9999-12-31"%string /\
  isoformat (ymd2ord 2024 2 29) = "2024-02-29"%string /\
  isoformat (ymd2ord 2023 12 31) = "2023-12-31"%string /\
  isoformat (ymd2ord 1900 3 1) = "1900-03-01"%string /\
  isoformat (ymd2ord 2000 12 31) = "2000-12-31"%string.
Proof. repeat split; reflexivity. Qed.

(** ** Date arithmetic *)

Lemma date_sub_days_Some d n o :
  date_sub_days d n = Some o <-> o = d - n /\ MINORDINAL <= d - n <= MAXORDINAL.
Proof.
  unfold date_sub_days, in_range, MINORDINAL, MAXORDINAL.
  destruct (1 <=? d - n) eqn:H1; destruct (d - n <=? 3652059) eqn:H2; simpl;
    split; try (intros [= <-]); try (intros [-> ?]); try done; try lia.
Qed.

Lemma date_sub_days_None d n :
  date_sub_days d n = None <-> ~ (MINORDINAL <= d - n <= MAXORDINAL).
Proof.
  unfold date_sub_days, in_range, MINORDINAL, MAXORDINAL.
  destruct (1 <=? d - n) eqn:H1; destruct (d - n <=? 3652059) eqn:H2; simpl;
    split; intros; try done; try lia.
Qed.

Lemma days_since_sat_range d : 0 <= (weekday d - 5) mod 7 < 7.
Proof. apply Z.mod_pos_bound; lia. Qed.

Lemma weekday_back_to_saturday d : weekday (d - (weekday d - 5) mod 7) = 5.
Proof. unfold weekday. Z.div_mod_to_equations. lia. Qed.

Lemma saturday_distance_0 d : weekday d = 5 -> (weekday d - 5) mod 7 = 0.
Proof. intros ->. reflexivity. Qed.

Lemma current_biweekly_period_Some clock now p :
  current_biweekly_period clock now = Some p ->
  exists e, most_recent_saturday
              (dt_date (match now with None => clock | Some n => n end)) = Some e
            /\ date_sub_days e 13 = Some (start p) /\ end_ p = e.
Proof.
  unfold current_biweekly_period.
  set (n0 := match now with None => clock | Some n => n end).
  assert (Hd : dt_date (match tzinfo n0 with
                        | None => replace_tzinfo n0 CT | Some _ => n0 end)
               = dt_date n0) by (destruct (tzinfo n0); reflexivity).
  rewrite Hd.
  destruct (most_recent_saturday (dt_date n0)) as [e|]; simpl; [|done].
  destruct (date_sub_days e 13) as [s|] eqn:Hs; simpl; [|done].
  intros [= <-]. exists e. simpl. done.
Qed.

Lemma last_biweekly_period_Some p q :
  last_biweekly_period p = Some q <->
  MINORDINAL <= end_ p - 27 /\ end_ p - 14 <= MAXORDINAL /\
  q = {| start := end_ p - 27; end_ := end_ p - 14;
         label := period_label (end_ p - 27) (end_ p - 14) |}.
Proof.
  unfold last_biweekly_period. split.
  - destruct (date_sub_days (end_ p) 14) as [e|] eqn:He; simpl; [|done].
    destruct (date_sub_days e 13) as [s|] eqn:Hs; simpl; [|done].
    apply date_sub_days_Some in He as [-> He], Hs as [-> Hs].
    intros [= <-]. unfold MINORDINAL, MAXORDINAL in *.
    replace (end_ p - 14 - 13) with (end_ p - 27) by lia.
    repeat split; lia.
  - intros (Hlo & Hhi & ->). unfold MINORDINAL, MAXORDINAL in *.
    assert (H1 : date_sub_days (end_ p) 14 = Some (end_ p - 14))
      by (apply date_sub_days_Some; unfold MINORDINAL, MAXORDINAL; lia).
    rewrite H1. simpl.
    assert (H2 : date_sub_days (end_ p - 14) 13 = Some (end_ p - 27))
      by (apply date_sub_days_Some; unfold MINORDINAL, MAXORDINAL; lia).
    rewrite H2. reflexivity.
Qed.

Lemma produced_span p : produced p -> end_ p - start p = 13 /\ valid_date (start p) /\ valid_date (end_ p).
Proof.
  induction 1 as [clock now p Hv Hp | p q Hp IH Hq].
  - apply current_biweekly_period_Some in Hp as (e & He & Hs & ->).
    apply date_sub_days_Some in Hs as [Hs Hr], He as [-> He].
    pose proof (days_since_sat_range (dt_date (match now with None => clock | Some n => n end))).
    unfold valid_date in *. unfold MINORDINAL, MAXORDINAL in *. lia.
  - apply last_biweekly_period_Some in Hq as (Hlo & Hhi & ->). simpl.
    unfold valid_date, MINORDINAL, MAXORDINAL in *. lia.
Qed.

Lemma most_recent_saturday_Some d :
  valid_date d -> 6 <= d ->
  most_recent_saturday d = Some (d - (weekday d - 5) mod 7).
Proof.
  intros Hv H6. unfold most_recent_saturday.
  apply date_sub_days_Some. split; [reflexivity|].
  assert (Hs : weekday (d - (weekday d - 5) mod 7) = 5)
    by apply weekday_back_to_saturday.
  pose proof (days_since_sat_range d) as Hr.
  unfold valid_date, MINORDINAL, MAXORDINAL, weekday in *.
  Z.div_mod_to_equations. lia.
Qed.

Lemma current_biweekly_period_total clock now :
  let d := dt_date (match now with None => clock | Some n => n end) in
  valid_date d -> 20 <= d ->
  exists p, current_biweekly_period clock now = Some p.
Proof.
  intros d Hv H20. unfold current_biweekly_period.
  set (n0 := match now with None => clock | Some n => n end) in *.
  assert (Hd : dt_date (match tzinfo n0 with
                        | None => replace_tzinfo n0 CT | Some _ => n0 end)
               = d) by (destruct (tzinfo n0); reflexivity).
  rewrite Hd, most_recent_saturday_Some by (done || lia). simpl.
  assert (Hs : weekday (d - (weekday d - 5) mod 7) = 5)
    by apply weekday_back_to_saturday.
  pose proof (days_since_sat_range d) as Hr.
  destruct (date_sub_days (d - (weekday d - 5) mod 7) 13) as [s|] eqn:E; simpl.
  - eauto.
  - apply date_sub_days_None in E. exfalso. apply E.
    unfold valid_date, MINORDINAL, MAXORDINAL, weekday in *.
    Z.div_mod_to_equations. lia.
Qed.

(** C2, as amended: on every date from 0001-01-06 (the first Saturday a
    [date] can hold) onwards, [most_recent_saturday] returns a Saturday
    that is on or before [d] and less than a week back, and returns [d]
    itself when [d] is a Saturday; on the five dates before 0001-01-06
    the subtraction leaves the range of [date] and the call raises. *)
Theorem most_recent_saturday_spec (d : date) :
  valid_date d ->
  (6 <= d ->
     exists s, most_recent_saturday d = Some s /\ valid_date s /\
               s <= d /\ d - s < 7 /\ weekday s = 5 /\
               (weekday d = 5 -> s = d))
  /\ (d < 6 -> most_recent_saturday d = None).
Proof.
  intros Hv. split.
  - intros H6. exists (d - (weekday d - 5) mod 7).
    pose proof (days_since_sat_range d) as Hr.
    pose proof (weekday_back_to_saturday d) as Hs.
    split; [by apply most_recent_saturday_Some|].
    repeat split; try lia.
    + unfold valid_date, MINORDINAL, MAXORDINAL, weekday in *.
      Z.div_mod_to_equations. lia.
    + unfold valid_date, MINORDINAL, MAXORDINAL in *. lia.
    + intros Hsat. rewrite saturday_distance_0 by done. lia.
  - intros Hlt. unfold most_recent_saturday. apply date_sub_days_None.
    unfold valid_date, MINORDINAL, MAXORDINAL, weekday in *.
    Z.div_mod_to_equations. lia.
Qed.

Lemma most_recent_saturday_spec_witness :
  valid_date (ymd2ord 2024 3 20) /\
  exists s, most_recent_saturday (ymd2ord 2024 3 20) = Some s /\ valid_date s /\
            s <= ymd2ord 2024 3 20 /\ ymd2ord 2024 3 20 - s < 7 /\ weekday s = 5 /\
            (weekday (ymd2ord 2024 3 20) = 5 -> s = ymd2ord 2024 3 20).
Proof.
  assert (Hv : valid_date (ymd2ord 2024 3 20)) by (vm_compute; split; discriminate).
  split; [exact Hv|].
  apply (proj1 (most_recent_saturday_spec (ymd2ord 2024 3 20) Hv)).
  vm_compute. discriminate.
Defined.

(** C2 as stated fails on 0001-01-01, a Monday: two days back is no
    [date], so no Saturday is returned. *)
Lemma most_recent_saturday_overflow :
  valid_date (ymd2ord 1 1 1) /\ weekday (ymd2ord 1 1 1) = 0 /\
  ~ (exists s, most_recent_saturday (ymd2ord 1 1 1) = Some s /\
               s <= ymd2ord 1 1 1 /\ weekday s = 5).
Proof.
  split; [vm_compute; split; discriminate|].
  split; [reflexivity|].
  intros (s & Hs & _). vm_compute in Hs. discriminate.
Qed.

Lemma produced_saturday p : produced p -> weekday (end_ p) = 5.
Proof.
  induction 1 as [clock now p Hv Hp | p q Hp IH Hq].
  - apply current_biweekly_period_Some in Hp as (e & He & Hs & ->).
    apply date_sub_days_Some in He as [-> He].
    apply weekday_back_to_saturday.
  - apply last_biweekly_period_Some in Hq as (Hlo & Hhi & ->). simpl.
    unfold weekday in *. Z.div_mod_to_equations. lia.
Qed.

(** C1, as amended: every period the calculator produces spans 14 days
    inclusive and ends on a Saturday; whenever [last_biweekly_period]
    returns a period [q] for it, [q] ends the day before [p] starts and
    spans 14 days as well; and [last_biweekly_period] returns exactly when
    [p] starts on or after 0001-01-15 (before that the predecessor's start
    is no [date] and the call raises). *)
Theorem periods_tile (p : BiWeeklyPeriod) :
  produced p ->
  end_ p - start p = 13 /\ weekday (end_ p) = 5 /\
  (forall q, last_biweekly_period p = Some q ->
     end_ q = start p - 1 /\ end_ q - start q = 13 /\ produced q) /\
  (15 <= start p -> exists q, last_biweekly_period p = Some q) /\
  (start p < 15 -> last_biweekly_period p = None).
Proof.
  intros Hp. destruct (produced_span p Hp) as (Hspan & Hs & He).
  split; [done|]. split; [by apply produced_saturday|].
  split; [|split].
  - intros q Hq. split; [|split]; [| |by eapply produced_last];
      apply last_biweekly_period_Some in Hq as (_ & _ & ->); simpl; lia.
  - intros H15. eexists. apply last_biweekly_period_Some.
    unfold valid_date, MINORDINAL, MAXORDINAL in *. repeat split; lia.
  - intros Hlt. destruct (last_biweekly_period p) as [q|] eqn:E; [|done].
    apply last_biweekly_period_Some in E as (Hlo & _ & _).
    unfold MINORDINAL in *. lia.
Qed.

Lemma periods_tile_witness :
  let p := {| start := ymd2ord 2024 3 3; end_ := ymd2ord 2024 3 16;
              label := "2024-03-03_to_2024-03-16" |} in
  produced p /\
  (forall q, last_biweekly_period p = Some q ->
     end_ q = start p - 1 /\ end_ q - start q = 13 /\ produced q).
Proof.
  intros p.
  assert (Hp : produced p).
  { apply (produced_current
             {| dt_date := ymd2ord 2024 3 16; dt_micros := 0; tzinfo := None |}
             None).
    - vm_compute; split; discriminate.
    - reflexivity. }
  split; [exact Hp|].
  exact (proj1 (proj2 (proj2 (periods_tile p Hp)))).
Defined.

(** C1 as stated fails for the period of reference date 0001-01-20: the
    calculator produces it, and it has no predecessor. *)
Lemma first_period_has_no_predecessor :
  let p := {| start := ymd2ord 1 1 7; end_ := ymd2ord 1 1 20;
              label := "0001-01-07_to_0001-01-20" |} in
  (forall clock,
     current_biweekly_period clock
       (Some {| dt_date := ymd2ord 1 1 20; dt_micros := 0; tzinfo := None |})
     = Some p) /\
  produced p /\
  ~ (exists q, last_biweekly_period p = Some q /\ end_ q = start p - 1).
Proof.
  intros p. split; [reflexivity|]. split.
  - apply (produced_current
             {| dt_date := ymd2ord 1 1 20; dt_micros := 0; tzinfo := None |}
             None).
    + vm_compute; split; discriminate.
    + reflexivity.
  - intros (q & Hq & _). vm_compute in Hq. discriminate.
Qed.

(** ** The metrics engine, row by row *)

Section Engine.
Context `{Runtime}.

Lemma cell_at_insert_eq (r : gmap string cell) k v :
  cell_at (<[k := v]> r) k = v.
Proof. unfold cell_at. by rewrite lookup_insert_eq. Qed.

Lemma cell_at_insert_ne (r : gmap string cell) k k' v :
  k ≠ k' -> cell_at (<[k := v]> r) k' = cell_at r k'.
Proof. intros Hne. unfold cell_at. by rewrite lookup_insert_ne. Qed.

Lemma num_at_Ok (r : gmap string cell) k x :
  num_at r k = Ok x <-> cell_at r k = CNum x.
Proof.
  unfold num_at. destruct (cell_at r k); split; intros Heq; try done;
    by injection Heq as ->.
Qed.

Ltac cell_simpl :=
  unfold num_at, str_at;
  repeat first
    [ rewrite cell_at_insert_eq
    | rewrite cell_at_insert_ne by (intros ?; discriminate) ].

Ltac run_row :=
  unfold compute_row;
  repeat (cell_simpl;
          repeat match goal with
                 | Hc : cell_at _ _ = _ |- _ => rewrite Hc
                 end;
          cbn [mbind result_bind]).

Lemma compute_row_closed (r : gmap string cell) b c blp clp :
  cell_at r "brand_cases" = CNum b ->
  cell_at r "category_cases" = CNum c ->
  cell_at r "brand_cases_lp" = CNum blp ->
  cell_at r "category_cases_lp" = CNum clp ->
  compute_row r = Ok (metrics_row r b c blp clp).
Proof. intros Hb Hc Hblp Hclp. run_row. reflexivity. Qed.

Lemma compute_row_inv (r r' : gmap string cell) :
  compute_row r = Ok r' ->
  exists b c blp clp,
    cell_at r "brand_cases" = CNum b /\
    cell_at r "category_cases" = CNum c /\
    cell_at r "brand_cases_lp" = CNum blp /\
    cell_at r "category_cases_lp" = CNum clp /\
    r' = metrics_row r b c blp clp.
Proof.
  destruct (cell_at r "brand_cases") as [| | | |b|] eqn:Hb;
    try (unfold compute_row, num_at; rewrite Hb; discriminate).
  destruct (cell_at r "category_cases") as [| | | |c|] eqn:Hc;
    try (unfold compute_row, num_at; rewrite Hb; cbn [mbind result_bind];
         rewrite Hc; discriminate).
  destruct (cell_at r "brand_cases_lp") as [| | | |blp|] eqn:Hblp;
    try (unfold compute_row, num_at; rewrite Hb; cbn [mbind result_bind];
         rewrite Hc; cbn [mbind result_bind];
         rewrite (cell_at_insert_ne _ _ "brand_cases_lp") by (intros ?; discriminate);
         rewrite Hblp; discriminate).
  destruct (cell_at r "category_cases_lp") as [| | | |clp|] eqn:Hclp;
    try (unfold compute_row, num_at; rewrite Hb; cbn [mbind result_bind];
         rewrite Hc; cbn [mbind result_bind];
         rewrite (cell_at_insert_ne _ _ "brand_cases_lp") by (intros ?; discriminate);
         rewrite Hblp; cbn [mbind result_bind];
         rewrite (cell_at_insert_ne _ _ "category_cases_lp") by (intros ?; discriminate);
         rewrite Hclp; discriminate).
  rewrite (compute_row_closed r b c blp clp) by done.
  intros [= <-]. by exists b, c, blp, clp.
Qed.

End Engine.

(** ** The metrics engine, frame by frame *)

Section MapM.
Context {A B : Type} (f : A -> result B).

Lemma mapM_Ok_Forall2 (l : list A) (l' : list B) :
  mapM f l = Ok l' <-> Forall2 (fun x y => f x = Ok y) l l'.
Proof.
  revert l'. induction l as [|x l IH]; intros l'; cbn.
  - split.
    + intros [= <-]. constructor.
    + intros Hl. inversion Hl. reflexivity.
  - split.
    + destruct (f x) as [y|e] eqn:Hx; cbn; [|done].
      destruct (mapM f l) as [k|e] eqn:Hk; cbn; [|done].
      intros [= <-]. constructor; [done|]. by apply IH.
    + intros Hl. inversion Hl as [|? y ? k Hx Hk]; subst.
      rewrite Hx. cbn. apply IH in Hk. rewrite Hk. reflexivity.
Qed.

Lemma mapM_total (l : list A) :
  Forall (fun x => exists y, f x = Ok y) l -> exists l', mapM f l = Ok l'.
Proof.
  induction 1 as [|x l [y Hy] _ [k Hk]]; cbn.
  - by eexists.
  - rewrite Hy. cbn. rewrite Hk. cbn. by eexists.
Qed.
End MapM.

Section EngineFrames.
Context `{Runtime}.

Lemma result_bind_Ok {A B} (m : result A) (f : A -> result B) b :
  m ≫= f = Ok b <-> exists a, m = Ok a /\ f a = Ok b.
Proof.
  destruct m as [a|e].
  - split; [intros Hb; by exists a | intros (a' & [= <-] & Hb); exact Hb].
  - split; [intros Hb; discriminate Hb | intros (a' & Ha & _); discriminate Ha].
Qed.

Lemma compute_metrics_Ok (raw out : DataFrame) :
  compute_metrics raw = Ok out <->
  first_missing read_columns (columns raw) = None /\
  Forall2 (fun r r' => compute_row r = Ok r') (rows raw) (rows out) /\
  columns out = fold_left (fun cols c => add_label c cols) derived_columns (columns raw).
Proof.
  unfold compute_metrics.
  set (cols := fold_left _ derived_columns (columns raw)).
  destruct (first_missing read_columns (columns raw)) as [c|].
  { split; [intros Hc; discriminate Hc | intros [Hc _]; discriminate Hc]. }
  rewrite result_bind_Ok. split.
  - intros (rs & Hrs & Hout). injection Hout as <-. cbn [columns rows].
    split; [reflexivity|]. split; [|reflexivity].
    by apply mapM_Ok_Forall2.
  - intros (_ & Hrows & Hcols). apply mapM_Ok_Forall2 in Hrows.
    exists (rows out). split; [exact Hrows|].
    destruct out as [oc orows]. cbn [columns rows] in *. by rewrite Hcols.
Qed.

(** Row [i] of the output is the image of row [i] of the input. *)
Lemma compute_metrics_row (raw out : DataFrame) i r' :
  compute_metrics raw = Ok out ->
  rows out !! i = Some r' ->
  exists r b c blp clp,
    rows raw !! i = Some r /\
    cell_at r "brand_cases" = CNum b /\
    cell_at r "category_cases" = CNum c /\
    cell_at r "brand_cases_lp" = CNum blp /\
    cell_at r "category_cases_lp" = CNum clp /\
    r' = metrics_row r b c blp clp.
Proof.
  intros Hout Hi. apply compute_metrics_Ok in Hout as (_ & Hrows & _).
  destruct (Forall2_lookup_r _ _ _ _ _ Hrows Hi) as (r & Hr & Hrow).
  apply compute_row_inv in Hrow as (b & c & blp & clp & Hb & Hc & Hblp & Hclp & ->).
  by exists r, b, c, blp, clp.
Qed.

Lemma compute_metrics_row_fwd (raw out : DataFrame) i r :
  compute_metrics raw = Ok out ->
  rows raw !! i = Some r ->
  exists r', rows out !! i = Some r' /\ compute_row r = Ok r'.
Proof.
  intros Hout Hi. apply compute_metrics_Ok in Hout as (_ & Hrows & _).
  destruct (Forall2_lookup_l _ _ _ _ _ Hrows Hi) as (r' & Hr & Hrow). eauto.
Qed.

Lemma compute_metrics_length (raw out : DataFrame) :
  compute_metrics raw = Ok out -> length (rows out) = length (rows raw).
Proof.
  intros Hout. apply compute_metrics_Ok in Hout as (_ & Hrows & _).
  symmetry. by eapply Forall2_length.
Qed.

Lemma compute_metrics_total (raw : DataFrame) :
  (forall c, c ∈ read_columns -> c ∈ columns raw) ->
  Forall float64_cases (rows raw) ->
  exists out, compute_metrics raw = Ok out.
Proof.
  intros Hcols Hrows. unfold compute_metrics.
  destruct (first_missing read_columns (columns raw)) as [c|] eqn:Hm.
  - unfold first_missing in Hm. apply find_some in Hm as [Hin Hc].
    apply negb_true_iff, bool_decide_eq_false in Hc.
    destruct Hc. apply Hcols. by apply list_elem_of_In.
  - destruct (mapM_total compute_row (rows raw)) as [rs Hrs].
    + eapply Forall_impl; [exact Hrows|]. intros r Hr. cbn in Hr.
      destruct (Hr "brand_cases") as [b Hb]; [set_solver|].
      destruct (Hr "category_cases") as [c Hc]; [set_solver|].
      destruct (Hr "brand_cases_lp") as [blp Hblp]; [set_solver|].
      destruct (Hr "category_cases_lp") as [clp Hclp]; [set_solver|].
      eexists. by apply compute_row_closed.
    + rewrite Hrs. eexists. reflexivity.
Qed.

Ltac lk :=
  unfold metrics_row; cbn zeta;
  repeat (rewrite lookup_insert_ne by (intros ?; discriminate));
  rewrite ?lookup_insert_eq; reflexivity.

Lemma metrics_row_numbers (r : gmap string cell) b c blp clp :
  let m := metrics_row r b c blp clp in
  let e := (c * safe_div blp clp)%float in
  m !! "share_of_category" = Some (CNum (safe_div b c)) /\
  m !! "share_of_category_lp" = Some (CNum (safe_div blp clp)) /\
  m !! "delta_brand_cases" = Some (CNum (b - blp)) /\
  m !! "delta_category_cases" = Some (CNum (c - clp)) /\
  m !! "delta_share" = Some (CNum (safe_div b c - safe_div blp clp)) /\
  m !! "expected_cases_if_maintained_share" = Some (CNum e) /\
  m !! "share_gain_cases" = Some (CNum (b - e)) /\
  m !! "true_difference_cases" = Some (CNum (b - e)) /\
  m !! "true_up_cases" = Some (CNum (clip_lower0 (b - e))) /\
  m !! "true_down_cases" = Some (CNum (clip_upper0 (b - e))) /\
  m !! "category_effect_cases" = Some (CNum (e - blp)).
Proof. repeat split; lk. Qed.

Lemma metrics_row_labels (r : gmap string cell) b c blp clp :
  let m := metrics_row r b c blp clp in
  m !! "unique_key" =
    Some (CStr (str_at r "account_id" +:+ "|" +:+ str_at r "brand" +:+ "|" +:+
                str_at r "period_end")) /\
  m !! "is_current_period" = Some (CBool true) /\
  m !! "is_last_period" = Some (CBool false) /\
  m !! "baseline_brand_cases" = Some CNA /\
  m !! "baseline_category_cases" = Some CNA /\
  m !! "expected_share" = Some CNA /\
  m !! "expected_cases" = Some CNA /\
  m !! "gap_cases" = Some CNA /\
  m !! "gap_cases_positive" = Some CNA.
Proof. repeat split; lk. Qed.

Lemma metrics_row_frame (r : gmap string cell) b c blp clp k :
  k ∉ derived_columns -> metrics_row r b c blp clp !! k = r !! k.
Proof.
  unfold derived_columns. intros Hk.
  repeat (apply not_elem_of_cons in Hk as [? Hk]).
  unfold metrics_row; cbn zeta.
  by repeat (rewrite lookup_insert_ne by done).
Qed.

End EngineFrames.

(** ** binary64 facts *)

Section FloatFacts.

Lemma SFcompare_refl x : x <> S754_nan -> SFcompare x x = Some Eq.
Proof.
  destruct x as [s|s| |s m e]; simpl; try done.
  - by destruct s.
  - intros _. rewrite Z.compare_refl, Pos.compare_cont_refl. by destruct s.
Qed.

Lemma SFeqb_refl x : x <> S754_nan -> SFeqb x x = true.
Proof. intros Hx. unfold SFeqb. by rewrite SFcompare_refl. Qed.

Lemma is_nan_spec x : is_nan x = true <-> Prim2SF x = S754_nan.
Proof.
  unfold is_nan. rewrite FloatAxioms.eqb_spec. split.
  - destruct (Prim2SF x) eqn:E; try done; rewrite SFeqb_refl; done.
  - intros ->. reflexivity.
Qed.

Lemma not_nan_spec x : is_nan x = false <-> Prim2SF x <> S754_nan.
Proof.
  rewrite <- is_nan_spec. destruct (is_nan x); split; try done; congruence.
Qed.

Lemma eqb_refl_not_nan x : is_nan x = false -> (x =? x)%float = true.
Proof. unfold is_nan. by destruct (x =? x)%float. Qed.

(** Positive and negative zero are the numbers equal to [0]. *)
Lemma eqb_zero_spec x :
  (x =? 0)%float = true <-> exists s, Prim2SF x = S754_zero s.
Proof.
  rewrite FloatAxioms.eqb_spec. change (Prim2SF 0) with (S754_zero false).
  unfold SFeqb.
  destruct (Prim2SF x) as [s|s| |s m e]; simpl; split; try done; eauto;
    try (by destruct s); by intros [? ?].
Qed.

Lemma add_zero_finite x s m e :
  Prim2SF x = S754_finite s m e -> (x + 0 = x /\ 0 + x = x)%float.
Proof.
  intros E. split; apply Prim2SF_inj; rewrite FloatAxioms.add_spec, E; reflexivity.
Qed.

Lemma SF64add_opp_finite sx mx ex sy my ey :
  SF64add (S754_finite sx mx ex) (S754_finite (negb sy) my ey)
  = SF64sub (S754_finite sx mx ex) (S754_finite sy my ey).
Proof.
  unfold SF64add, SF64sub, SFadd, SFsub. f_equal.
  destruct sy; unfold cond_Zopp; cbn [negb]; lia.
Qed.

(** The sign split of a number that is not NaN. *)
Lemma clip_split td :
  is_nan td = false ->
  (0 <=? clip_lower0 td)%float = true /\
  (clip_upper0 td <=? 0)%float = true /\
  (clip_lower0 td + clip_upper0 td =? td)%float = true.
Proof.
  intros Hn. pose proof (eqb_refl_not_nan _ Hn) as Hrefl.
  unfold clip_lower0, clip_upper0. rewrite Hn. cbn [orb].
  pose proof (FloatAxioms.leb_spec 0 td) as H0.
  pose proof (FloatAxioms.leb_spec td 0) as H1.
  change (Prim2SF 0) with (S754_zero false) in *.
  apply not_nan_spec in Hn.
  destruct (Prim2SF td) as [s|s| |s m e] eqn:E; try done;
    cbn in H0, H1; rewrite H0, H1; destruct s; cbn;
    (split; [|split]);
    first
      [ reflexivity
      | rewrite FloatAxioms.leb_spec, E; reflexivity
      | rewrite FloatAxioms.eqb_spec, FloatAxioms.add_spec, ?E;
        change (Prim2SF 0) with (S754_zero false); rewrite ?E; cbn;
        reflexivity
      | rewrite (proj1 (add_zero_finite _ _ _ _ E)); exact Hrefl
      | rewrite (proj2 (add_zero_finite _ _ _ _ E)); exact Hrefl ].
Qed.

(** A NaN goes through both clips unchanged. *)
Lemma clip_nan td :
  is_nan td = true -> clip_lower0 td = td /\ clip_upper0 td = td.
Proof. intros Hn. unfold clip_lower0, clip_upper0. by rewrite Hn. Qed.

(** The two components add up exactly when the expected volume is a
    zero and the volume change is a number. *)
Lemma decomposition_exact_zero b blp e :
  (e =? 0)%float = true ->
  is_nan (b - blp) = false ->
  ((b - e) + (e - blp) =? b - blp)%float = true.
Proof.
  intros He Hn. apply eqb_zero_spec in He as [se He].
  apply not_nan_spec in Hn. rewrite FloatAxioms.sub_spec in Hn.
  rewrite FloatAxioms.eqb_spec, FloatAxioms.add_spec, !FloatAxioms.sub_spec, He.
  destruct (Prim2SF b) as [sb|sb| |sb mb eb], (Prim2SF blp) as [sl|sl| |sl ml el];
    try done;
    try (destruct se, sb, sl; done);
    try (destruct se, sb; done);
    try (destruct se, sl; done).
  - destruct se, sb; cbn [SF64add SF64sub SFadd SFsub]; by apply SFeqb_refl.
  - destruct se, sl; cbn [SF64add SF64sub SFadd SFsub]; by apply SFeqb_refl.
  - change (SF64sub (S754_finite sb mb eb) (S754_zero se))
      with (S754_finite sb mb eb).
    change (SF64sub (S754_zero se) (S754_finite sl ml el))
      with (S754_finite (negb sl) ml el).
    rewrite SF64add_opp_finite. by apply SFeqb_refl.
Qed.

(** A finite volume times a zero share is a zero. *)
Lemma mul_zero_finite c z :
  is_finite c = true -> (z =? 0)%float = true -> (c * z =? 0)%float = true.
Proof.
  unfold is_finite, is_infinity. intros Hc Hz.
  apply negb_true_iff, orb_false_iff in Hc as [Hn Hi].
  apply not_nan_spec in Hn. rewrite FloatAxioms.eqb_spec, abs_spec in Hi.
  apply eqb_zero_spec in Hz as [sz Hz]. apply eqb_zero_spec.
  rewrite mul_spec, Hz.
  destruct (Prim2SF c) as [s|s| |s m e]; try done; cbn; eauto.
Qed.

(** [safe_div] by branches. *)
Lemma safe_div_zero n d : (d =? 0)%float = true -> safe_div n d = 0%float.
Proof. intros Hd. unfold safe_div, replace_zero_na. by rewrite Hd. Qed.

Lemma safe_div_quotient n d :
  (d =? 0)%float = false -> is_nan (n / d) = false ->
  safe_div n d = (n / d)%float.
Proof.
  intros Hd Hq. unfold safe_div, replace_zero_na. rewrite Hd. cbn. by rewrite Hq.
Qed.

Lemma safe_div_nan n d :
  (d =? 0)%float = false -> is_nan (n / d) = true ->
  safe_div n d = 0%float.
Proof.
  intros Hd Hq. unfold safe_div, replace_zero_na. rewrite Hd. cbn. by rewrite Hq.
Qed.

Lemma safe_div_not_nan n d : is_nan (safe_div n d) = false.
Proof.
  unfold safe_div, replace_zero_na.
  destruct (d =? 0)%float; cbn; [reflexivity|].
  destruct (is_nan (n / d)) eqn:E; [reflexivity | exact E].
Qed.

End FloatFacts.

(** C3, as amended: [safe_div] is a total function; it returns [0.0] for
    every numerator when the denominator is a zero (of either sign); for
    a denominator that is not zero it returns the quotient [n / d]
    whenever that quotient is a number, and [0.0] when the quotient is
    NaN (a NaN operand, or infinity over infinity). *)
Theorem safe_div_spec (n d : float) :
  safe_div n 0 = 0%float /\
  ((d =? 0)%float = true -> safe_div n d = 0%float) /\
  ((d =? 0)%float = false -> is_nan (n / d) = false ->
     safe_div n d = (n / d)%float) /\
  ((d =? 0)%float = false -> is_nan (n / d) = true ->
     safe_div n d = 0%float).
Proof.
  split; [by apply safe_div_zero|].
  split; [apply safe_div_zero|].
  split; [apply safe_div_quotient | apply safe_div_nan].
Qed.

(** C3 as stated fails at [n = d = infinity]: the denominator is not
    zero, the quotient is NaN, and [safe_div] returns [0.0], which is
    not equal to it; likewise for a NaN numerator. *)
Lemma safe_div_is_not_the_quotient :
  (infinity =? 0)%float = false /\
  safe_div infinity infinity = 0%float /\
  (safe_div infinity infinity =? infinity / infinity)%float = false /\
  (1 =? 0)%float = false /\
  safe_div nan 1 = 0%float /\
  (safe_div nan 1 =? nan / 1)%float = false.
Proof. repeat split; reflexivity. Qed.

(** ** Rounding to binary64 *)

Lemma pow2_pos k : 0 <= k -> 0 < 2 ^ k.
Proof. intros Hk. apply Z.pow_pos_nonneg; lia. Qed.

Lemma pow2_succ k : 0 <= k -> 2 ^ (k + 1) = 2 * 2 ^ k.
Proof. intros Hk. rewrite Z.pow_add_r by lia. lia. Qed.

Lemma digits2_pos_bounds m :
  2 ^ (Zpos (digits2_pos m) - 1) <= Zpos m < 2 ^ Zpos (digits2_pos m).
Proof.
  induction m as [m IH|m IH|]; cbn [digits2_pos]; [| |cbn; lia];
    rewrite Pos2Z.inj_succ;
    replace (Z.succ (Zpos (digits2_pos m)) - 1) with (Zpos (digits2_pos m) - 1 + 1) by lia;
    replace (Z.succ (Zpos (digits2_pos m))) with (Zpos (digits2_pos m) + 1) by lia;
    rewrite !pow2_succ by lia; lia.
Qed.

Lemma digits2_pos_unique m k :
  2 ^ (k - 1) <= Zpos m < 2 ^ k -> Zpos (digits2_pos m) = k.
Proof.
  intros [Hlo Hhi]. pose proof (digits2_pos_bounds m) as [Dlo Dhi].
  set (d := Zpos (digits2_pos m)) in *.
  assert (Hk : 0 < k).
  { destruct (Z.lt_trichotomy k 0) as [Hn|[->|Hp]]; [|cbn in Hhi; lia|done].
    rewrite Z.pow_neg_r in Hhi by lia. lia. }
  destruct (Z.lt_trichotomy d k) as [Hlt|[Heq|Hgt]]; [|done|].
  - assert (2 ^ d <= 2 ^ (k - 1)) by (apply Z.pow_le_mono_r; lia). lia.
  - assert (2 ^ k <= 2 ^ (d - 1)) by (apply Z.pow_le_mono_r; lia). lia.
Qed.

Lemma iter_xO_value m k : Zpos (Pos.iter xO m k) = Zpos m * 2 ^ Zpos k.
Proof.
  induction k as [|k IH] using Pos.peano_ind.
  - cbn. lia.
  - rewrite Pos.iter_succ, Pos2Z.inj_xO, IH, Pos2Z.inj_succ.
    replace (Z.succ (Zpos k)) with (Zpos k + 1) by lia.
    rewrite pow2_succ by lia. lia.
Qed.

Lemma iter_xO_digits m k :
  Zpos (digits2_pos (Pos.iter xO m k)) = Zpos (digits2_pos m) + Zpos k.
Proof.
  induction k as [|k IH] using Pos.peano_ind.
  - cbn [Pos.iter digits2_pos]. lia.
  - rewrite Pos.iter_succ. cbn [digits2_pos]. rewrite Pos2Z.inj_succ, IH. lia.
Qed.

Lemma iter_pos_inv {A} (f : A -> A) (Inv : Z -> A -> Prop) :
  (forall k x, 0 <= k -> Inv k x -> Inv (k + 1) (f x)) ->
  forall p k x, 0 <= k -> Inv k x -> Inv (k + Zpos p) (SpecFloat.iter_pos f p x).
Proof.
  intros Hstep. induction p as [p IH|p IH|]; intros k x Hk Hx; cbn [SpecFloat.iter_pos].
  - replace (k + Zpos p~1) with (k + 1 + Zpos p + Zpos p) by lia.
    apply IH; [lia|]. apply IH; [lia|]. by apply Hstep.
  - replace (k + Zpos p~0) with (k + Zpos p + Zpos p) by lia.
    apply IH; [lia|]. by apply IH.
  - by apply Hstep.
Qed.

Lemma shr_inv_init M : 0 <= M -> shr_inv M 0 {| shr_m := M; shr_r := false; shr_s := false |}.
Proof.
  intros HM. split; [done|]. exists 0. cbn. split; [lia|]. split; [done|lia].
Qed.

Lemma shr_inv_step M k mrs : 0 <= k -> shr_inv M k mrs -> shr_inv M (k + 1) (shr_1 mrs).
Proof.
  intros Hk [Hm (L & HL & Hs & HM)]. destruct mrs as [m r s]. cbn [shr_m shr_r shr_s] in *.
  pose proof (pow2_pos k Hk) as HP. unfold shr_inv.
  rewrite (pow2_succ (k + 1)) by lia. rewrite (pow2_succ k) in * by lia.
  set (P := 2 ^ k) in *.
  assert (Hs' : r || s = false <-> (if r then P else 0) + L = 0).
  { destruct r; cbn [orb].
    - split; [done|lia].
    - split; intros Hx; [apply Hs in Hx; lia|apply Hs; lia]. }
  destruct m as [|[p|p|]|p]; cbn [shr_1 shr_m shr_r shr_s]; [| | | |lia].
  - split; [done|]. exists ((if r then P else 0) + L).
    split; [destruct r; lia|]. split; [exact Hs'|]. lia.
  - split; [lia|]. exists ((if r then P else 0) + L).
    split; [destruct r; lia|]. split; [exact Hs'|]. lia.
  - split; [lia|]. exists ((if r then P else 0) + L).
    split; [destruct r; lia|]. split; [exact Hs'|]. lia.
  - split; [done|]. exists ((if r then P else 0) + L).
    split; [destruct r; lia|]. split; [exact Hs'|]. lia.
Qed.

Lemma shr_inv_iter M p :
  0 <= M ->
  shr_inv M (Zpos p) (SpecFloat.iter_pos shr_1 p {| shr_m := M; shr_r := false; shr_s := false |}).
Proof.
  intros HM.
  apply (iter_pos_inv shr_1 (shr_inv M) (shr_inv_step M) p 0); [lia|].
  by apply shr_inv_init.
Qed.

(** Rounding to nearest after the shift: the mantissa is off by at most
    half a unit of the new last place. *)
Lemma round_nearest_even_bound M k mrs :
  0 <= k -> shr_inv M k mrs ->
  let m := shr_m mrs in
  let m2 := round_nearest_even m (loc_of_shr_record mrs) in
  m * 2 ^ k <= M < (m + 1) * 2 ^ k /\
  m <= m2 <= m + 1 /\
  Z.abs (2 * M - m2 * 2 ^ (k + 1)) <= 2 ^ k.
Proof.
  intros Hk [Hm (L & HL & Hs & HM)]. destruct mrs as [m r s].
  cbn [shr_m shr_r shr_s] in *. cbn zeta.
  pose proof (pow2_pos k Hk) as HP. rewrite pow2_succ in * by lia.
  set (P := 2 ^ k) in *.
  split; [destruct r; nia|].
  destruct r, s; cbn [loc_of_shr_record round_nearest_even].
  - split; [lia|]. nia.
  - assert (L = 0) by (by apply Hs). destruct (Z.even m); (split; [lia|]); nia.
  - split; [lia|]. nia.
  - assert (L = 0) by (by apply Hs). split; [lia|]. nia.
Qed.

Lemma fexp_eq x : fexp prec emax x = Z.max (x - 53) (-1074).
Proof. reflexivity. Qed.

Lemma binary_round_aux_exact s m e :
  fexp prec emax (Zpos (digits2_pos m) + e) = e ->
  binary_round_aux prec emax s (Zpos m) e loc_Exact
  = if e <=? emax - prec then S754_finite s m e else S754_infinity s.
Proof.
  intros Hf. unfold binary_round_aux, shr_fexp. cbn [Zdigits2].
  rewrite Hf, Z.sub_diag. cbn [shr shr_record_of_loc shr_m loc_of_shr_record
    round_nearest_even Zdigits2].
  rewrite Hf, Z.sub_diag. reflexivity.
Qed.

Lemma scaled_error (X M Q : Z) :
  0 <= Q -> 2 ^ 53 * Z.abs X <= M ->
  2 ^ 53 * Z.abs (X * Q) <= M * Q.
Proof.
  intros HQ HX. rewrite Z.abs_mul, (Z.abs_eq Q) by done.
  rewrite Z.mul_assoc. by apply Z.mul_le_mono_nonneg_r.
Qed.

(** One rounding: [binary_round] gives an infinity or a number whose
    value is within [2^-53] of the value it was given, relatively. *)
Lemma binary_round_spec s M e r :
  -1074 <= e ->
  binary_round prec emax s M e = r ->
  r = S754_infinity s \/
  exists m' e',
    r = S754_finite s m' e' /\ -1074 <= e' /\
    2 ^ 53 * Z.abs (Zpos m' * 2 ^ (e' + 1074) - Zpos M * 2 ^ (e + 1074))
    <= Zpos M * 2 ^ (e + 1074).
Proof.
  intros He Hr. unfold binary_round in Hr.
  pose proof (digits2_pos_bounds M) as [Dlo Dhi].
  set (d := Zpos (digits2_pos M)) in *.
  pose proof (fexp_eq (d + e)) as Ht. set (t := fexp prec emax (d + e)) in *.
  pose proof (pow2_pos (e + 1074) ltac:(lia)) as HQ.
  unfold shl_align in Hr. destruct (t - e) as [|n|k] eqn:Hte.
  - assert (t = e) as Hte' by lia.
    rewrite binary_round_aux_exact in Hr by (fold d; fold t; done).
    destruct (e <=? emax - prec); subst r; [right|by left].
    exists M, e. split; [done|]. split; [done|].
    rewrite Z.sub_diag. cbn [Z.abs]. lia.
  - assert (Hn : Zpos n = d - 53) by lia.
    assert (Htn : t = e + Zpos n) by lia.
    unfold binary_round_aux, shr_fexp at 1 in Hr. cbn [Zdigits2] in Hr.
    fold d in Hr. fold t in Hr.
    rewrite Hte in Hr. cbn [shr shr_record_of_loc] in Hr.
    pose proof (shr_inv_iter (Zpos M) n ltac:(lia)) as Hinv.
    set (mrs := SpecFloat.iter_pos shr_1 n _) in *.
    pose proof (round_nearest_even_bound (Zpos M) (Zpos n) mrs ltac:(lia) Hinv) as Hb.
    cbn zeta in Hb. destruct Hb as (Hm1 & Hm2 & Herr).
    set (m1 := shr_m mrs) in *.
    set (m2 := round_nearest_even m1 (loc_of_shr_record mrs)) in *.
    pose proof (pow2_pos (Zpos n) ltac:(lia)) as HP.
    rewrite pow2_succ in Herr by lia.
    assert (Hd1 : 2 ^ (d - 1) = 2 ^ 52 * 2 ^ Zpos n).
    { rewrite <- Z.pow_add_r by lia. f_equal. lia. }
    assert (Hd : 2 ^ d = 2 ^ 53 * 2 ^ Zpos n).
    { rewrite <- Z.pow_add_r by lia. f_equal. lia. }
    rewrite Hd1 in Dlo. rewrite Hd in Dhi.
    assert (HQt : 2 ^ (t + 1074) = 2 ^ Zpos n * 2 ^ (e + 1074)).
    { rewrite <- Z.pow_add_r by lia. f_equal. lia. }
    set (P := 2 ^ Zpos n) in *. set (Q := 2 ^ (e + 1074)) in *.
    assert (H52 : 2 ^ 52 <= m1 < 2 ^ 53) by (split; nia).
    assert (Hx : 2 ^ 53 * Z.abs (m2 * P - Zpos M) <= Zpos M) by lia.
    replace (e + Zpos n) with t in Hr by lia.
    destruct (Z.eq_dec m2 (2 ^ 53)) as [E53|N53].
    + rewrite E53 in Hr. change (2 ^ 53) with 9007199254740992 in Hr.
      unfold shr_fexp in Hr.
      replace (fexp prec emax (Zdigits2 9007199254740992 + t) - t) with 1 in Hr
        by (rewrite fexp_eq; change (Zdigits2 9007199254740992) with 54; lia).
      cbn [shr shr_record_of_loc SpecFloat.iter_pos shr_1 shr_m fst snd] in Hr.
      destruct (t + 1 <=? emax - prec); subst r; [right|by left].
      exists 4503599627370496%positive, (t + 1). split; [done|]. split; [lia|].
      replace (t + 1 + 1074) with (t + 1074 + 1) by lia.
      rewrite pow2_succ, HQt by lia.
      replace (Zpos 4503599627370496 * (2 * (P * Q)) - Zpos M * Q)
        with ((m2 * P - Zpos M) * Q) by (rewrite E53; lia).
      apply scaled_error; [lia|exact Hx].
    + destruct m2 as [|q|q] eqn:Em2; [lia| |lia].
      assert (Hq : Zpos (digits2_pos q) = 53).
      { apply digits2_pos_unique. change (53 - 1) with 52. lia. }
      unfold shr_fexp in Hr. cbn [Zdigits2] in Hr.
      replace (fexp prec emax (Zpos (digits2_pos q) + t) - t) with 0 in Hr
        by (rewrite fexp_eq, Hq; lia).
      cbn [shr shr_record_of_loc shr_m] in Hr.
      destruct (t <=? emax - prec); subst r; [right|by left].
      exists q, t. split; [done|]. split; [lia|].
      rewrite HQt.
      replace (Zpos q * (P * Q) - Zpos M * Q)
        with ((Zpos q * P - Zpos M) * Q) by lia.
      apply scaled_error; [lia|exact Hx].
  - assert (Hk : Zpos k = e - t) by lia.
    rewrite binary_round_aux_exact in Hr
      by (rewrite iter_xO_digits; fold d; replace (d + Zpos k + t) with (d + e) by lia; reflexivity).
    destruct (t <=? emax - prec); subst r; [right|by left].
    exists (Pos.iter xO M k), t. split; [done|]. split; [lia|].
    rewrite iter_xO_value.
    replace (Zpos M * 2 ^ Zpos k * 2 ^ (t + 1074)) with (Zpos M * 2 ^ (e + 1074)).
    + rewrite Z.sub_diag. cbn [Z.abs]. lia.
    + rewrite <- Z.mul_assoc, <- Z.pow_add_r by lia. do 2 f_equal. lia.
Qed.

Lemma cond_Zopp_mul s a q : cond_Zopp s a * q = cond_Zopp s (a * q).
Proof. destruct s; cbn [cond_Zopp]; lia. Qed.

Lemma binary_normalize_spec N e r :
  -1074 <= e ->
  binary_normalize prec emax N e false = r ->
  SFfinite r = true ->
  2 ^ 53 * Z.abs (SFvalue r - N * 2 ^ (e + 1074)) <= Z.abs (N * 2 ^ (e + 1074)).
Proof.
  intros He Hr Hf. pose proof (pow2_pos (e + 1074) ltac:(lia)) as HQ.
  destruct N as [|M|M]; cbn [binary_normalize] in Hr.
  - subst r. cbn. lia.
  - destruct (binary_round_spec false M e r He Hr) as [->|(m' & e' & -> & He' & Hb)];
      [done|].
    cbn [SFvalue cond_Zopp]. lia.
  - destruct (binary_round_spec true M e r He Hr) as [->|(m' & e' & -> & He' & Hb)];
      [done|].
    cbn [SFvalue cond_Zopp]. lia.
Qed.

Lemma valid_exponent s m e :
  SpecFloat.valid_binary prec emax (S754_finite s m e) = true -> -1074 <= e.
Proof.
  cbn [SpecFloat.valid_binary]. unfold bounded, canonical_mantissa.
  intros Hv. apply andb_true_iff in Hv as [Hc _]. apply Z.eqb_eq in Hc.
  rewrite fexp_eq in Hc. lia.
Qed.

Lemma shl_align_value m e e' :
  e' <= e -> -1074 <= e' ->
  Zpos (fst (shl_align m e e')) * 2 ^ (e' + 1074) = Zpos m * 2 ^ (e + 1074).
Proof.
  intros Hle He'. unfold shl_align. destruct (e' - e) as [|n|k] eqn:Hd; cbn [fst].
  - by replace e' with e by lia.
  - lia.
  - rewrite iter_xO_value, <- Z.mul_assoc, <- Z.pow_add_r by lia.
    do 2 f_equal. lia.
Qed.

(** The error of one addition and of one subtraction. *)
Lemma SF64add_error x y :
  SpecFloat.valid_binary prec emax x = true ->
  SpecFloat.valid_binary prec emax y = true ->
  SFfinite x = true -> SFfinite y = true -> SFfinite (SF64add x y) = true ->
  2 ^ 53 * Z.abs (SFvalue (SF64add x y) - (SFvalue x + SFvalue y))
  <= Z.abs (SFvalue x + SFvalue y).
Proof.
  intros Hvx Hvy Hx Hy Hr.
  destruct x as [sx|sx| |sx mx ex], y as [sy|sy| |sy my ey]; try done.
  - destruct sx, sy; cbn; lia.
  - cbn [SF64add SFadd SFvalue]. lia.
  - cbn [SF64add SFadd SFvalue]. lia.
  - apply valid_exponent in Hvx, Hvy.
    unfold SF64add in *. cbn [SFadd] in *.
    set (ez := Z.min ex ey) in *.
    set (N := cond_Zopp sx _ + cond_Zopp sy _) in *.
    assert (HN : N * 2 ^ (ez + 1074)
                 = SFvalue (S754_finite sx mx ex) + SFvalue (S754_finite sy my ey)).
    { unfold N. cbn [SFvalue].
      rewrite Z.mul_add_distr_r, !cond_Zopp_mul, !shl_align_value by lia. done. }
    rewrite <- HN. by apply binary_normalize_spec; [lia| |].
Qed.

Lemma SF64sub_error x y :
  SpecFloat.valid_binary prec emax x = true ->
  SpecFloat.valid_binary prec emax y = true ->
  SFfinite x = true -> SFfinite y = true -> SFfinite (SF64sub x y) = true ->
  2 ^ 53 * Z.abs (SFvalue (SF64sub x y) - (SFvalue x - SFvalue y))
  <= Z.abs (SFvalue x - SFvalue y).
Proof.
  intros Hvx Hvy Hx Hy Hr.
  destruct x as [sx|sx| |sx mx ex], y as [sy|sy| |sy my ey]; try done.
  - destruct sx, sy; cbn; lia.
  - cbn [SF64sub SFsub SFvalue]. destruct sy; cbn [negb cond_Zopp]; lia.
  - cbn [SF64sub SFsub SFvalue]. lia.
  - apply valid_exponent in Hvx, Hvy.
    unfold SF64sub in *. cbn [SFsub] in *.
    set (ez := Z.min ex ey) in *.
    set (N := cond_Zopp sx _ - cond_Zopp sy _) in *.
    assert (HN : N * 2 ^ (ez + 1074)
                 = SFvalue (S754_finite sx mx ex) - SFvalue (S754_finite sy my ey)).
    { unfold N. cbn [SFvalue].
      rewrite Z.mul_sub_distr_r, !cond_Zopp_mul, !shl_align_value by lia. done. }
    rewrite <- HN. by apply binary_normalize_spec; [lia| |].
Qed.

Lemma is_finite_spec x : is_finite x = SFfinite (Prim2SF x).
Proof.
  unfold is_finite, is_nan, is_infinity.
  rewrite !FloatAxioms.eqb_spec, abs_spec.
  change (Prim2SF infinity) with (S754_infinity false).
  destruct (Prim2SF x) as [s|s| |s m e] eqn:E; try reflexivity.
  - by destruct s.
  - rewrite SFeqb_refl by done. reflexivity.
Qed.

Lemma sub_finite_inv x y :
  is_finite (x - y) = true -> is_finite x = true /\ is_finite y = true.
Proof.
  rewrite !is_finite_spec, FloatAxioms.sub_spec.
  destruct (Prim2SF x) as [sx|sx| |sx mx ex], (Prim2SF y) as [sy|sy| |sy my ey];
    try done; try (by destruct sx); try (by destruct sx, sy).
Qed.

Lemma add_error x y :
  is_finite x = true -> is_finite y = true -> is_finite (x + y) = true ->
  2 ^ 53 * Z.abs (value (x + y) - (value x + value y)) <= Z.abs (value x + value y).
Proof.
  rewrite !is_finite_spec. unfold value. rewrite FloatAxioms.add_spec.
  apply SF64add_error; apply Prim2SF_valid.
Qed.

Lemma sub_error x y :
  is_finite (x - y) = true ->
  2 ^ 53 * Z.abs (value (x - y) - (value x - value y)) <= Z.abs (value x - value y).
Proof.
  intros Hf. destruct (sub_finite_inv x y Hf) as [Hx Hy]. revert Hx Hy Hf.
  rewrite !is_finite_spec. unfold value. rewrite FloatAxioms.sub_spec.
  apply SF64sub_error; apply Prim2SF_valid.
Qed.

Lemma four_roundings (vb ve vl vtd vce vd vs : Z) :
  9007199254740992 * Z.abs (vtd - (vb - ve)) <= Z.abs (vb - ve) ->
  9007199254740992 * Z.abs (vce - (ve - vl)) <= Z.abs (ve - vl) ->
  9007199254740992 * Z.abs (vd - (vb - vl)) <= Z.abs (vb - vl) ->
  9007199254740992 * Z.abs (vs - (vtd + vce)) <= Z.abs (vtd + vce) ->
  562949953421312 * Z.abs (vs - vd)
  <= Z.max (Z.abs vb) (Z.max (Z.abs ve) (Z.abs vl)).
Proof.
  set (M := Z.max (Z.abs vb) (Z.max (Z.abs ve) (Z.abs vl))).
  assert (HM : (- M <= vb <= M) /\ (- M <= ve <= M) /\ (- M <= vl <= M)) by lia.
  clearbody M. destruct HM as (Hb & He & Hl). intros E1 E2 E3 E4.
  assert (B1 : - (2 * M) <= 9007199254740992 * (vtd - (vb - ve)) <= 2 * M)
    by (clear E2 E3 E4; lia).
  assert (B2 : - (2 * M) <= 9007199254740992 * (vce - (ve - vl)) <= 2 * M)
    by (clear E1 E3 E4 B1; lia).
  assert (B3 : - (2 * M) <= 9007199254740992 * (vd - (vb - vl)) <= 2 * M)
    by (clear E1 E2 E4 B1 B2; lia).
  clear E1 E2 E3.
  assert (B4 : - (4 * M) <= 9007199254740992 * (vs - (vtd + vce)) <= 4 * M)
    by (clear B3; lia).
  clear E4. lia.
Qed.

(** The two components against the volume change: each of the three
    subtractions and the addition rounds once. *)
Lemma decomposition_bound b e blp :
  is_finite (b - e) = true -> is_finite (e - blp) = true ->
  is_finite ((b - e) + (e - blp)) = true -> is_finite (b - blp) = true ->
  2 ^ 49 * Z.abs (value ((b - e) + (e - blp)) - value (b - blp))
  <= Z.max (Z.abs (value b)) (Z.max (Z.abs (value e)) (Z.abs (value blp))).
Proof.
  intros Htd Hce Hsum Hdelta.
  pose proof (sub_error b e Htd) as E1.
  pose proof (sub_error e blp Hce) as E2.
  pose proof (sub_error b blp Hdelta) as E3.
  pose proof (add_error _ _ Htd Hce Hsum) as E4.
  change (2 ^ 53) with 9007199254740992 in *.
  change (2 ^ 49) with 562949953421312.
  exact (four_roundings _ _ _ _ _ _ _ E1 E2 E3 E4).
Qed.

(** ** The claims on the metrics engine *)

Lemma not_in_derived k :
  bool_decide (k ∈ derived_columns) = false -> k ∉ derived_columns.
Proof. apply bool_decide_eq_false_1. Qed.

Section Claims.
Context `{Runtime}.

(** C5: a row with brand_cases=120, category_cases=400,
    brand_cases_lp=100, category_cases_lp=500 comes out of
    [compute_metrics] with share_of_category 0.30, share_of_category_lp
    0.20, expected_cases_if_maintained_share 80.0, true_difference_cases
    40.0, true_up_cases 40.0 and true_down_cases 0.0. *)
Theorem scenario_B (raw out : DataFrame) i r :
  compute_metrics raw = Ok out ->
  rows raw !! i = Some r ->
  cell_at r "brand_cases" = CNum 120 ->
  cell_at r "category_cases" = CNum 400 ->
  cell_at r "brand_cases_lp" = CNum 100 ->
  cell_at r "category_cases_lp" = CNum 500 ->
  exists r', rows out !! i = Some r' /\
    r' !! "share_of_category" = Some (CNum 0.3) /\
    r' !! "share_of_category_lp" = Some (CNum 0.2) /\
    r' !! "expected_cases_if_maintained_share" = Some (CNum 80) /\
    r' !! "true_difference_cases" = Some (CNum 40) /\
    r' !! "true_up_cases" = Some (CNum 40) /\
    r' !! "true_down_cases" = Some (CNum 0).
Proof.
  intros Hout Hi Hb Hc Hblp Hclp.
  destruct (compute_metrics_row_fwd raw out i r Hout Hi) as (r' & Hr' & Hrow).
  rewrite (compute_row_closed r _ _ _ _ Hb Hc Hblp Hclp) in Hrow.
  injection Hrow as <-. exists (metrics_row r 120 400 100 500).
  split; [exact Hr'|].
  destruct (metrics_row_numbers r 120 400 100 500)
    as (H1 & H2 & _ & _ & _ & H6 & _ & H8 & H9 & H10 & _).
  rewrite H1, H2, H6, H8, H9, H10. repeat split.
Qed.

(** C4, as amended: in every row of the output whose
    true_difference_cases is a number, true_up_cases >= 0,
    true_down_cases <= 0 and their sum equals true_difference_cases; in a
    row whose true_difference_cases is NaN both are NaN as well. *)
Theorem true_up_down_split (raw out : DataFrame) i r' :
  compute_metrics raw = Ok out ->
  rows out !! i = Some r' ->
  exists td up down,
    r' !! "true_difference_cases" = Some (CNum td) /\
    r' !! "true_up_cases" = Some (CNum up) /\
    r' !! "true_down_cases" = Some (CNum down) /\
    (is_nan td = false ->
       (0 <=? up)%float = true /\ (down <=? 0)%float = true /\
       (up + down =? td)%float = true) /\
    (is_nan td = true -> up = td /\ down = td).
Proof.
  intros Hout Hi.
  destruct (compute_metrics_row raw out i r' Hout Hi)
    as (r & b & c & blp & clp & _ & _ & _ & _ & _ & ->).
  destruct (metrics_row_numbers r b c blp clp)
    as (_ & _ & _ & _ & _ & _ & _ & H8 & H9 & H10 & _).
  eexists _, _, _. split; [exact H8|]. split; [exact H9|]. split; [exact H10|].
  split; [apply clip_split | apply clip_nan].
Qed.

(** C10, as amended: in every row of the output,
    true_difference_cases is brand_cases - expected,
    category_effect_cases is expected - brand_cases_lp and
    delta_brand_cases is brand_cases - brand_cases_lp, each one binary64
    subtraction of the row's own entries.  Their sum
    true_difference_cases + category_effect_cases equals
    delta_brand_cases exactly whenever
    expected_cases_if_maintained_share is a zero and delta_brand_cases is
    a number, which covers a zero category_cases_lp with a finite
    category_cases.  In general, when the three columns and the sum are
    finite, the sum differs from delta_brand_cases by at most 2^-49
    times the largest of |brand_cases|, |expected| and
    |brand_cases_lp|: each of the four operations rounds once. *)
Theorem decomposition_identity (raw out : DataFrame) i r' :
  compute_metrics raw = Ok out ->
  rows out !! i = Some r' ->
  exists b blp td ce delta expected c clp,
    cell_at r' "brand_cases" = CNum b /\
    cell_at r' "brand_cases_lp" = CNum blp /\
    r' !! "true_difference_cases" = Some (CNum td) /\
    r' !! "category_effect_cases" = Some (CNum ce) /\
    r' !! "delta_brand_cases" = Some (CNum delta) /\
    r' !! "expected_cases_if_maintained_share" = Some (CNum expected) /\
    cell_at r' "category_cases" = CNum c /\
    cell_at r' "category_cases_lp" = CNum clp /\
    td = (b - expected)%float /\
    ce = (expected - blp)%float /\
    delta = (b - blp)%float /\
    ((expected =? 0)%float = true -> is_nan delta = false ->
       (td + ce =? delta)%float = true) /\
    ((clp =? 0)%float = true -> is_finite c = true ->
       (expected =? 0)%float = true) /\
    (is_finite td = true -> is_finite ce = true ->
     is_finite (td + ce) = true -> is_finite delta = true ->
       2 ^ 49 * Z.abs (value (td + ce) - value delta)
       <= Z.max (Z.abs (value b))
                (Z.max (Z.abs (value expected)) (Z.abs (value blp)))).
Proof.
  intros Hout Hi.
  destruct (compute_metrics_row raw out i r' Hout Hi)
    as (r & b & c & blp & clp & _ & Hb & Hc & Hblp & Hclp & ->).
  destruct (metrics_row_numbers r b c blp clp)
    as (_ & _ & H3 & _ & _ & H6 & _ & H8 & _ & _ & H11).
  assert (Hkeep : forall k x, bool_decide (k ∈ derived_columns) = false ->
            cell_at r k = CNum x ->
            cell_at (metrics_row r b c blp clp) k = CNum x).
  { intros k x Hk Hx. unfold cell_at. rewrite metrics_row_frame; [exact Hx|].
    by apply not_in_derived. }
  exists b, blp, (b - c * safe_div blp clp)%float,
    (c * safe_div blp clp - blp)%float,
    (b - blp)%float, (c * safe_div blp clp)%float, c, clp.
  split; [apply Hkeep; [vm_compute; reflexivity|exact Hb]|].
  split; [apply Hkeep; [vm_compute; reflexivity|exact Hblp]|].
  split; [exact H8|]. split; [exact H11|]. split; [exact H3|].
  split; [exact H6|].
  split; [apply Hkeep; [vm_compute; reflexivity|exact Hc]|].
  split; [apply Hkeep; [vm_compute; reflexivity|exact Hclp]|].
  split; [reflexivity|]. split; [reflexivity|]. split; [reflexivity|].
  split; [apply decomposition_exact_zero|].
  split.
  - intros Hz Hf. apply mul_zero_finite; [exact Hf|].
    rewrite (safe_div_zero blp clp Hz). reflexivity.
  - apply decomposition_bound.
Qed.

End Claims.

Lemma scenario_B_witness :
  exists out r',
    @compute_metrics plain_runtime scenario_B_frame = Ok out /\
    rows out !! 0%nat = Some r' /\
    r' !! "share_of_category" = Some (CNum 0.3) /\
    r' !! "share_of_category_lp" = Some (CNum 0.2) /\
    r' !! "expected_cases_if_maintained_share" = Some (CNum 80) /\
    r' !! "true_difference_cases" = Some (CNum 40) /\
    r' !! "true_up_cases" = Some (CNum 40) /\
    r' !! "true_down_cases" = Some (CNum 0).
Proof.
  pose (r := fact_row "1001" "acme" "2024-03-16" 120 400 100 500).
  pose (out := {| columns := fact_columns ++ derived_columns;
                  rows := [@metrics_row plain_runtime r 120 400 100 500] |}).
  assert (Hout : @compute_metrics plain_runtime scenario_B_frame = Ok out)
    by (vm_compute; reflexivity).
  destruct (@scenario_B plain_runtime scenario_B_frame out 0%nat r Hout)
    as (r' & Hr' & Hrest); try reflexivity.
  exists out, r'. split; [exact Hout|]. split; [exact Hr'|]. exact Hrest.
Defined.

Lemma true_up_down_split_witness :
  exists out r',
    @compute_metrics plain_runtime scenario_B_frame = Ok out /\
    rows out !! 0%nat = Some r' /\
    exists td up down,
      r' !! "true_difference_cases" = Some (CNum td) /\
      r' !! "true_up_cases" = Some (CNum up) /\
      r' !! "true_down_cases" = Some (CNum down) /\
      (is_nan td = false ->
         (0 <=? up)%float = true /\ (down <=? 0)%float = true /\
         (up + down =? td)%float = true) /\
      (is_nan td = true -> up = td /\ down = td).
Proof.
  pose (r := fact_row "1001" "acme" "2024-03-16" 120 400 100 500).
  pose (r' := @metrics_row plain_runtime r 120 400 100 500).
  pose (out := {| columns := fact_columns ++ derived_columns; rows := [r'] |}).
  assert (Hout : @compute_metrics plain_runtime scenario_B_frame = Ok out)
    by (vm_compute; reflexivity).
  exists out, r'. split; [exact Hout|]. split; [reflexivity|].
  exact (@true_up_down_split plain_runtime scenario_B_frame out 0%nat r'
           Hout eq_refl).
Defined.

(** C4 as stated fails on a row of finite volumes: 1e308 / 1e-308
    overflows to infinity, 0 * infinity is NaN, and so are
    true_difference_cases and true_up_cases. *)
Lemma true_up_nan_on_overflow :
  exists out r',
    @compute_metrics plain_runtime overflow_frame = Ok out /\
    rows out !! 0%nat = Some r' /\
    r' !! "share_of_category_lp" = Some (CNum infinity) /\
    r' !! "true_difference_cases" = Some (CNum nan) /\
    r' !! "true_up_cases" = Some (CNum nan) /\
    (0 <=? nan)%float = false.
Proof.
  pose (r := fact_row "1001" "acme" "2024-03-16" 0 0 1e308 1e-308).
  pose (r' := @metrics_row plain_runtime r 0 0 1e308 1e-308).
  exists {| columns := fact_columns ++ derived_columns; rows := [r'] |}, r'.
  split; [vm_compute; reflexivity|]. split; [reflexivity|].
  destruct (@metrics_row_numbers plain_runtime r 0 0 1e308 1e-308)
    as (_ & H2 & _ & _ & _ & _ & _ & H8 & H9 & _).
  split; [exact H2|]. split; [exact H8|]. split; [exact H9|]. reflexivity.
Qed.

Lemma decomposition_identity_witness :
  (exists out r' td ce delta,
     @compute_metrics plain_runtime zero_lp_frame = Ok out /\
     rows out !! 0%nat = Some r' /\
     r' !! "true_difference_cases" = Some (CNum td) /\
     r' !! "category_effect_cases" = Some (CNum ce) /\
     r' !! "delta_brand_cases" = Some (CNum delta) /\
     (td + ce =? delta)%float = true) /\
  (exists out r' td ce delta,
     @compute_metrics plain_runtime rounding_frame = Ok out /\
     rows out !! 0%nat = Some r' /\
     r' !! "true_difference_cases" = Some (CNum td) /\
     r' !! "category_effect_cases" = Some (CNum ce) /\
     r' !! "delta_brand_cases" = Some (CNum delta) /\
     (td + ce =? delta)%float = false /\
     2 ^ 49 * Z.abs (value (td + ce) - value delta) <= value 2).
Proof.
  split.
  - pose (r := fact_row "1001" "acme" "2024-03-16" 5 10 3 0).
    pose (r' := @metrics_row plain_runtime r 5 10 3 0).
    pose (out := {| columns := fact_columns ++ derived_columns; rows := [r'] |}).
    assert (Hout : @compute_metrics plain_runtime zero_lp_frame = Ok out)
      by (vm_compute; reflexivity).
    destruct (@decomposition_identity plain_runtime zero_lp_frame out 0%nat r'
                Hout eq_refl)
      as (b & blp & td & ce & delta & expected & c & clp & Hb & Hblp & Htd & Hce
          & Hdelta & Hexp & Hc & Hclp & Etd & Ece & Edelta & Hzero & Hlp & _).
    vm_compute in Hb, Hblp, Hc, Hclp.
    injection Hb as <-. injection Hblp as <-. injection Hc as <-. injection Hclp as <-.
    exists out, r', td, ce, delta.
    split; [exact Hout|]. split; [reflexivity|]. split; [exact Htd|].
    split; [exact Hce|]. split; [exact Hdelta|].
    apply Hzero; [apply Hlp; reflexivity|]. rewrite Edelta. reflexivity.
  - pose (r := fact_row "1001" "acme" "2024-03-16" 2 7 1 10).
    pose (r' := @metrics_row plain_runtime r 2 7 1 10).
    pose (out := {| columns := fact_columns ++ derived_columns; rows := [r'] |}).
    assert (Hout : @compute_metrics plain_runtime rounding_frame = Ok out)
      by (vm_compute; reflexivity).
    destruct (@decomposition_identity plain_runtime rounding_frame out 0%nat r'
                Hout eq_refl)
      as (b & blp & td & ce & delta & expected & c & clp & Hb & Hblp & Htd & Hce
          & Hdelta & Hexp & Hc & Hclp & Etd & Ece & Edelta & _ & _ & Hbound).
    vm_compute in Hb, Hblp, Hexp.
    injection Hb as <-. injection Hblp as <-. injection Hexp as <-.
    exists out, r', td, ce, delta.
    split; [exact Hout|]. split; [reflexivity|]. split; [exact Htd|].
    split; [exact Hce|]. split; [exact Hdelta|].
    split; [rewrite Etd, Ece, Edelta; reflexivity|].
    etransitivity; [apply Hbound; rewrite ?Etd, ?Ece, ?Edelta; reflexivity|].
    vm_compute. discriminate.
Defined.

(** C10 as stated fails on the row 2, 7, 1, 10: the expected volume
    7 * 0.1 is rounded, and the two components add up to
    0.9999999999999999 where the volume change is 1. *)
Lemma decomposition_is_rounded :
  exists out r',
    @compute_metrics plain_runtime rounding_frame = Ok out /\
    rows out !! 0%nat = Some r' /\
    r' !! "true_difference_cases" = Some (CNum 1.2999999999999998) /\
    r' !! "category_effect_cases" = Some (CNum (-0.29999999999999993)) /\
    r' !! "delta_brand_cases" = Some (CNum 1) /\
    (1.2999999999999998 + (-0.29999999999999993) =? 1)%float = false.
Proof.
  pose (r := fact_row "1001" "acme" "2024-03-16" 2 7 1 10).
  pose (r' := @metrics_row plain_runtime r 2 7 1 10).
  exists {| columns := fact_columns ++ derived_columns; rows := [r'] |}, r'.
  split; [vm_compute; reflexivity|]. split; [reflexivity|].
  destruct (@metrics_row_numbers plain_runtime r 2 7 1 10)
    as (_ & _ & H3 & _ & _ & _ & _ & H8 & _ & _ & H11).
  split; [exact H8|]. split; [exact H11|]. split; [exact H3|]. reflexivity.
Qed.

(** ** Keys *)

Lemma contains_pipe_cons c s :
  contains "|" (String c s) = false -> c <> "|"%char /\ contains "|" s = false.
Proof.
  cbn [contains String.prefix]. intros Hc.
  apply orb_false_iff in Hc as [Hp Hs]. split; [|exact Hs].
  intros ->. destruct (ascii_dec "|" "|") as [_|Hne]; [|by destruct Hne].
  destruct s; discriminate Hp.
Qed.

Lemma append_nil_l (s : string) : "" +:+ s = s.
Proof. reflexivity. Qed.

Lemma append_cons_l c (s t : string) : String c s +:+ t = String c (s +:+ t).
Proof. reflexivity. Qed.

(** A component without the delimiter is recovered from what follows it. *)
Lemma append_pipe_inj a1 a2 r1 r2 :
  contains "|" a1 = false -> contains "|" a2 = false ->
  a1 +:+ "|" +:+ r1 = a2 +:+ "|" +:+ r2 -> a1 = a2 /\ r1 = r2.
Proof.
  revert a2. induction a1 as [|c a1 IH]; intros [|c2 a2] H1 H2 Heq;
    rewrite ?append_cons_l, ?append_nil_l in Heq.
  - injection Heq as ->. done.
  - injection Heq as <- _. apply contains_pipe_cons in H2 as [Hne _]. done.
  - injection Heq as -> _. apply contains_pipe_cons in H1 as [Hne _]. done.
  - injection Heq as -> Heq.
    apply contains_pipe_cons in H1 as [_ H1], H2 as [_ H2].
    destruct (IH a2 H1 H2 Heq) as [-> ->]. done.
Qed.

Section Keys.
Context `{Runtime}.

Lemma key_of_inj (r1 r2 : gmap string cell) :
  contains "|" (str_at r1 "account_id") = false ->
  contains "|" (str_at r1 "brand") = false ->
  contains "|" (str_at r2 "account_id") = false ->
  contains "|" (str_at r2 "brand") = false ->
  key_of r1 = key_of r2 <-> key_triple r1 = key_triple r2.
Proof.
  intros Ha1 Hb1 Ha2 Hb2. unfold key_of, key_triple. split.
  - intros Hk. apply append_pipe_inj in Hk as [-> Hk]; [|done..].
    apply append_pipe_inj in Hk as [-> ->]; done.
  - intros [= -> -> ->]. reflexivity.
Qed.

Lemma metrics_row_str_at (r : gmap string cell) b c blp clp k :
  bool_decide (k ∈ derived_columns) = false ->
  str_at (metrics_row r b c blp clp) k = str_at r k.
Proof.
  intros Hk. unfold str_at, cell_at.
  by rewrite metrics_row_frame by by apply not_in_derived.
Qed.

Lemma metrics_row_key (r : gmap string cell) b c blp clp :
  key_of (metrics_row r b c blp clp) = key_of r /\
  key_triple (metrics_row r b c blp clp) = key_triple r.
Proof.
  unfold key_of, key_triple.
  by rewrite !metrics_row_str_at by (vm_compute; reflexivity).
Qed.

(** C8, as amended: in every row of the output, unique_key is
    account_id + "|" + brand + "|" + period_end on the stringified
    entries of that row; and two rows of the output whose stringified
    account_id and brand hold no "|" have the same unique_key exactly
    when their triples are equal. *)
Theorem unique_key_spec (raw out : DataFrame) :
  compute_metrics raw = Ok out ->
  (forall i r', rows out !! i = Some r' ->
     r' !! "unique_key" = Some (CStr (key_of r'))) /\
  (forall i j r1 r2,
     rows out !! i = Some r1 -> rows out !! j = Some r2 ->
     contains "|" (str_at r1 "account_id") = false ->
     contains "|" (str_at r1 "brand") = false ->
     contains "|" (str_at r2 "account_id") = false ->
     contains "|" (str_at r2 "brand") = false ->
     (r1 !! "unique_key" = r2 !! "unique_key" <-> key_triple r1 = key_triple r2)).
Proof.
  intros Hout.
  assert (Hkey : forall i r', rows out !! i = Some r' ->
                   r' !! "unique_key" = Some (CStr (key_of r'))).
  { intros i r' Hi.
    destruct (compute_metrics_row raw out i r' Hout Hi)
      as (r & b & c & blp & clp & _ & _ & _ & _ & _ & ->).
    rewrite (proj1 (metrics_row_key r b c blp clp)).
    apply metrics_row_labels. }
  split; [exact Hkey|].
  intros i j r1 r2 Hi Hj Ha1 Hb1 Ha2 Hb2.
  rewrite (Hkey i r1 Hi), (Hkey j r2 Hj).
  rewrite <- key_of_inj by done. split; [by intros [= ->] | by intros ->].
Qed.

(** C9, as amended: on every fact table (the columns
    [compute_metrics] reads are there, the four case columns hold
    numbers) [compute_metrics] returns a table with as many rows, in
    the same order, in which every entry under a label other than the
    derived ones is unchanged, is_current_period is true and
    is_last_period is false; an entry the input already carries under a
    derived label is overwritten. *)
Theorem compute_metrics_frame (raw : DataFrame) :
  (forall c, c ∈ read_columns -> c ∈ columns raw) ->
  Forall float64_cases (rows raw) ->
  exists out,
    compute_metrics raw = Ok out /\
    length (rows out) = length (rows raw) /\
    forall i r, rows raw !! i = Some r ->
      exists r', rows out !! i = Some r' /\
        (forall k, k ∉ derived_columns -> r' !! k = r !! k) /\
        r' !! "is_current_period" = Some (CBool true) /\
        r' !! "is_last_period" = Some (CBool false).
Proof.
  intros Hcols Hrows.
  destruct (compute_metrics_total raw Hcols Hrows) as [out Hout].
  exists out. split; [exact Hout|].
  split; [by apply compute_metrics_length|].
  intros i r Hi.
  destruct (compute_metrics_row_fwd raw out i r Hout Hi) as (r' & Hr' & Hrow).
  apply compute_row_inv in Hrow as (b & c & blp & clp & _ & _ & _ & _ & ->).
  eexists. split; [exact Hr'|].
  split; [intros k Hk; by apply metrics_row_frame|].
  split; apply metrics_row_labels.
Qed.

End Keys.

Lemma first_missing_None needed cols :
  first_missing needed cols = None <-> forall c, c ∈ needed -> c ∈ cols.
Proof.
  unfold first_missing. split.
  - intros Hf c Hc. apply list_elem_of_In in Hc.
    pose proof (find_none _ _ Hf c Hc) as Hn. cbn in Hn.
    apply negb_false_iff in Hn. by apply bool_decide_eq_true_1 in Hn.
  - intros Hall. destruct (find _ needed) as [c|] eqn:Hf; [|done].
    apply find_some in Hf as [Hin Hc]. apply negb_true_iff in Hc.
    apply bool_decide_eq_false_1 in Hc. destruct Hc. apply Hall.
    by apply list_elem_of_In.
Qed.

Lemma fact_row_float64 a br pe b c blp clp :
  float64_cases (fact_row a br pe b c blp clp).
Proof.
  intros k Hk. repeat (apply elem_of_cons in Hk as [->|Hk]; [by eexists|]).
  by apply elem_of_nil in Hk.
Qed.

Lemma unique_key_spec_witness :
  exists out,
    @compute_metrics plain_runtime scenario_B_frame = Ok out /\
    (forall i r', rows out !! i = Some r' ->
       r' !! "unique_key" = Some (CStr (@key_of plain_runtime r'))) /\
    (forall i j r1 r2,
       rows out !! i = Some r1 -> rows out !! j = Some r2 ->
       contains "|" (@str_at plain_runtime r1 "account_id") = false ->
       contains "|" (@str_at plain_runtime r1 "brand") = false ->
       contains "|" (@str_at plain_runtime r2 "account_id") = false ->
       contains "|" (@str_at plain_runtime r2 "brand") = false ->
       (r1 !! "unique_key" = r2 !! "unique_key" <->
        @key_triple plain_runtime r1 = @key_triple plain_runtime r2)).
Proof.
  pose (r := fact_row "1001" "acme" "2024-03-16" 120 400 100 500).
  pose (out := {| columns := fact_columns ++ derived_columns;
                  rows := [@metrics_row plain_runtime r 120 400 100 500] |}).
  assert (Hout : @compute_metrics plain_runtime scenario_B_frame = Ok out)
    by (vm_compute; reflexivity).
  exists out. split; [exact Hout|].
  exact (@unique_key_spec plain_runtime scenario_B_frame out Hout).
Defined.

(** C8 as stated fails on two rows whose components hold the
    delimiter: ("A|B", "C") and ("A", "B|C") get the same key. *)
Lemma unique_key_collision :
  exists out r1 r2,
    @compute_metrics plain_runtime collision_frame = Ok out /\
    rows out !! 0%nat = Some r1 /\ rows out !! 1%nat = Some r2 /\
    r1 !! "unique_key" = Some (CStr "A|B|C|2024-03-16") /\
    r2 !! "unique_key" = Some (CStr "A|B|C|2024-03-16") /\
    @key_triple plain_runtime r1 = ("A|B", "C", "2024-03-16")%string /\
    @key_triple plain_runtime r2 = ("A", "B|C", "2024-03-16")%string /\
    @key_triple plain_runtime r1 <> @key_triple plain_runtime r2.
Proof.
  pose (r1 := @metrics_row plain_runtime
                (fact_row "A|B" "C" "2024-03-16" 1 2 1 2) 1 2 1 2).
  pose (r2 := @metrics_row plain_runtime
                (fact_row "A" "B|C" "2024-03-16" 1 2 1 2) 1 2 1 2).
  exists {| columns := fact_columns ++ derived_columns; rows := [r1; r2] |}, r1, r2.
  split; [vm_compute; reflexivity|].
  split; [reflexivity|]. split; [reflexivity|].
  split; [vm_compute; reflexivity|]. split; [vm_compute; reflexivity|].
  assert (H1 : @key_triple plain_runtime r1 = ("A|B", "C", "2024-03-16")%string)
    by (vm_compute; reflexivity).
  assert (H2 : @key_triple plain_runtime r2 = ("A", "B|C", "2024-03-16")%string)
    by (vm_compute; reflexivity).
  split; [exact H1|]. split; [exact H2|]. rewrite H1, H2. discriminate.
Qed.

Lemma compute_metrics_frame_witness :
  exists out,
    @compute_metrics plain_runtime scenario_B_frame = Ok out /\
    length (rows out) = length (rows scenario_B_frame) /\
    forall i r, rows scenario_B_frame !! i = Some r ->
      exists r', rows out !! i = Some r' /\
        (forall k, k ∉ derived_columns -> r' !! k = r !! k) /\
        r' !! "is_current_period" = Some (CBool true) /\
        r' !! "is_last_period" = Some (CBool false).
Proof.
  apply (@compute_metrics_frame plain_runtime scenario_B_frame).
  - apply first_missing_None. vm_compute. reflexivity.
  - repeat constructor. apply fact_row_float64.
Defined.

(** C9 as stated fails on a fact table that already carries a column
    under one of the derived labels: its values are overwritten. *)
Lemma derived_label_is_overwritten :
  exists out r r',
    @compute_metrics plain_runtime flagged_frame = Ok out /\
    rows flagged_frame !! 0%nat = Some r /\
    rows out !! 0%nat = Some r' /\
    r !! "is_last_period" = Some (CBool true) /\
    r' !! "is_last_period" = Some (CBool false).
Proof.
  pose (r := <["is_last_period" := CBool true]>
               (fact_row "1001" "acme" "2024-03-16" 120 400 100 500)).
  pose (r' := @metrics_row plain_runtime r 120 400 100 500).
  exists {| columns := fold_left (fun cols c => add_label c cols)
                                 derived_columns (columns flagged_frame);
            rows := [r'] |}, r, r'.
  split; [vm_compute; reflexivity|].
  split; [reflexivity|]. split; [reflexivity|].
  split; [reflexivity|]. apply metrics_row_labels.
Qed.

(** ** Snapshots: labels, order, selection *)

(** ** Strings *)

Lemma split_go_nonempty sep skip cur s : split_go sep skip cur s <> [].
Proof.
  revert skip cur. induction s as [|c s IH]; intros skip cur; cbn [split_go]; [discriminate|].
  destruct skip; [|apply IH]. destruct (String.prefix sep (String c s)); [discriminate|apply IH].
Qed.

Lemma prefix_empty_r sep : sep <> EmptyString -> String.prefix sep EmptyString = false.
Proof. by destruct sep. Qed.

(** A string that holds the separator splits in at least two parts. *)
Lemma split_contains sep s :
  sep <> EmptyString -> contains sep s = true -> (2 <= length (split sep s))%nat.
Proof.
  intros Hsep. unfold split. generalize EmptyString as cur.
  induction s as [|c s IH]; intros cur Hc.
  - cbn [contains] in Hc. rewrite prefix_empty_r in Hc by done. done.
  - cbn [contains] in Hc. cbn [split_go].
    destruct (String.prefix sep (String c s)) eqn:Hp.
    + cbn [length].
      pose proof (split_go_nonempty sep (String.length sep - 1) EmptyString s) as Hne.
      destruct (split_go sep (String.length sep - 1) EmptyString s); [done|cbn; lia].
    + cbn [orb] in Hc. by apply IH.
Qed.

Lemma infer_period_end_Some label :
  contains "_to_" label = true ->
  infer_period_end label = Some (nth 1 (split "_to_" label) EmptyString).
Proof.
  intros Hc. unfold infer_period_end. rewrite Hc.
  pose proof (split_contains "_to_" label ltac:(done) Hc) as Hlen.
  destruct (split "_to_" label) as [|a [|e l]]; cbn in *; try lia. done.
Qed.

Lemma infer_period_end_None label :
  contains "_to_" label = false -> infer_period_end label = None.
Proof. intros Hc. unfold infer_period_end. by rewrite Hc. Qed.

Lemma add_label_here c cols : c ∈ add_label c cols.
Proof.
  unfold add_label. case_bool_decide; [done|].
  apply elem_of_app. right. by apply list_elem_of_singleton.
Qed.

Lemma add_label_keep c c' cols : c ∈ cols -> c ∈ add_label c' cols.
Proof.
  intros Hin. unfold add_label. case_bool_decide; [done|].
  apply elem_of_app. by left.
Qed.

Lemma normalize_Ok p df :
  normalize p = Ok df ->
  rows df = map (tag_row p) (rows (csv p)) /\
  (4 <= length (split "__" (stem p)))%nat /\
  startswith (lower (nth 0 (split "__" (stem p)) EmptyString)) "establishmentdata" = true /\
  (forall c, c ∈ "account_id" :: "brand" :: "period_label" :: "period_end" :: required_metric_cols -> c ∈ columns df).
Proof.
  unfold normalize.
  destruct (first_duplicate _); [done|].
  destruct (bool_decide ("account_id" ∈ columns (rename (csv p)))) eqn:Hacc; [|done].
  cbn [negb].
  destruct (4 <=? length (split "__" (stem p)))%nat eqn:Hlen; [|done].
  destruct (startswith _ _) eqn:Hst; [|done]. cbn [andb].
  set (df3 := set_column "period_end" _ _).
  destruct (List.filter _ required_metric_cols) as [|m ms] eqn:Hf; [|done].
  intros [= <-]. split.
  { unfold df3, set_column, rename; cbn [rows]. rewrite !map_map. reflexivity. }
  split; [by apply Nat.leb_le|]. split; [done|].
  intros c Hc.
  assert (Hmet : forall m, In m required_metric_cols -> m ∈ columns df3).
  { intros m Hm. destruct (bool_decide (m ∈ columns df3)) eqn:Hd.
    - by apply bool_decide_eq_true_1 in Hd.
    - assert (Hin : In m (List.filter (fun c => negb (bool_decide (c ∈ columns df3))) required_metric_cols)).
      { apply filter_In. split; [done|]. by rewrite Hd. }
      rewrite Hf in Hin. done. }
  apply bool_decide_eq_true_1 in Hacc.
  pose proof add_label_here as Hadd. pose proof add_label_keep as Hkeep.
  apply elem_of_cons in Hc as [->|Hc].
  { unfold df3, set_column; cbn [columns]. by repeat apply Hkeep. }
  apply elem_of_cons in Hc as [->|Hc].
  { unfold df3, set_column; cbn [columns]. do 2 apply Hkeep. apply Hadd. }
  apply elem_of_cons in Hc as [->|Hc].
  { unfold df3, set_column; cbn [columns]. apply Hkeep. apply Hadd. }
  apply elem_of_cons in Hc as [->|Hc].
  { unfold df3, set_column; cbn [columns]. apply Hadd. }
  apply Hmet. by apply list_elem_of_In.
Qed.

(** ** The order of binary64 numbers *)

Lemma SFltb_irrefl x : SFltb x x = false.
Proof.
  unfold SFltb. destruct x as [s|s| |s m e]; cbn; try done.
  - by destruct s.
  - rewrite Z.compare_refl, Pos.compare_cont_refl. by destruct s.
Qed.

Lemma SFltb_trans x y z : SFltb x y = true -> SFltb y z = true -> SFltb x z = true.
Proof.
  unfold SFltb.
  destruct x as [sx|sx| |sx mx ex], y as [sy|sy| |sy my ey],
    z as [sz|sz| |sz mz ez]; cbn; try done;
    try (destruct sx, sy, sz; done);
    try (destruct sx, sy; done); try (destruct sy, sz; done);
    try (destruct sx, sz; done).
  all: destruct sx, sy, sz; try done.
  all: destruct (Z.compare_spec ex ey), (Z.compare_spec ey ez),
         (Z.compare_spec ex ez); try done; try lia; subst.
  all: rewrite ?Pos.compare_cont_spec; cbn.
  all: destruct (Pos.compare_spec mx my), (Pos.compare_spec my mz),
         (Pos.compare_spec mx mz); cbn; try done; try lia.
Qed.

Lemma ltb_irrefl (x : float) : (x <? x)%float = false.
Proof. rewrite FloatAxioms.ltb_spec. apply SFltb_irrefl. Qed.

Lemma ltb_trans (x y z : float) :
  (x <? y)%float = true -> (y <? z)%float = true -> (x <? z)%float = true.
Proof. rewrite !FloatAxioms.ltb_spec. apply SFltb_trans. Qed.

(** ** Sorting *)

Lemma insert_sorted_perm p l : insert_sorted p l ≡ₚ p :: l.
Proof.
  induction l as [|q l IH]; cbn; [done|].
  destruct (path_leb p q); [done|]. rewrite IH. apply Permutation_swap.
Qed.

Lemma sorted_perm l : sorted l ≡ₚ l.
Proof.
  induction l as [|p l IH]; cbn; [done|].
  rewrite insert_sorted_perm. by rewrite IH.
Qed.

(** ** The dictionary of the latest snapshots *)

Lemma string_eqb_eq (a b : string) : String.eqb a b = true <-> a = b.
Proof. apply String.eqb_eq. Qed.

Lemma dict_get_set_eq k v d : dict_get k (dict_set k v d) = Some v.
Proof.
  induction d as [|[k' v'] d IH]; cbn.
  - by rewrite String.eqb_refl.
  - destruct (String.eqb k k') eqn:E; cbn; rewrite ?String.eqb_refl, ?E; done.
Qed.

Lemma dict_get_set_ne k k' v d :
  k <> k' -> dict_get k' (dict_set k v d) = dict_get k' d.
Proof.
  intros Hne. induction d as [|[k0 v0] d IH]; cbn.
  - destruct (String.eqb k' k) eqn:E; [|done].
    apply String.eqb_eq in E. congruence.
  - destruct (String.eqb k k0) eqn:E; cbn.
    + apply String.eqb_eq in E as <-.
      destruct (String.eqb k' k) eqn:E'; [|done].
      apply String.eqb_eq in E'. congruence.
    + by rewrite IH.
Qed.

Lemma dict_get_elem_of k v d : dict_get k d = Some v -> (k, v) ∈ d.
Proof.
  induction d as [|[k' v'] d IH]; cbn; [done|].
  destruct (String.eqb k k') eqn:E.
  - apply String.eqb_eq in E as <-. intros [= <-]. by left.
  - intros Hg. right. by apply IH.
Qed.

Lemma dict_get_None k d : dict_get k d = None -> k ∉ d.*1.
Proof.
  induction d as [|[k' v'] d IH]; cbn; [intros _; apply not_elem_of_nil|].
  destruct (String.eqb k k') eqn:E; [done|].
  intros Hg. apply not_elem_of_cons. split; [|by apply IH].
  intros ->. by rewrite String.eqb_refl in E.
Qed.

Lemma dict_set_keys k v d :
  (dict_set k v d).*1 =
  match dict_get k d with
  | Some _ => d.*1
  | None => d.*1 ++ [k]
  end.
Proof.
  induction d as [|[k' v'] d IH]; cbn; [done|].
  destruct (String.eqb k k') eqn:E; cbn.
  - by apply String.eqb_eq in E as <-.
  - rewrite IH. by destruct (dict_get k d).
Qed.

Lemma dict_set_NoDup k v d : NoDup d.*1 -> NoDup (dict_set k v d).*1.
Proof.
  intros Hd. rewrite dict_set_keys. destruct (dict_get k d) eqn:E; [done|].
  apply NoDup_app. split; [done|]. split; [|apply NoDup_singleton].
  intros x Hx Hk. apply list_elem_of_singleton in Hk as ->.
  by apply dict_get_None in E.
Qed.

(** The entries of the dictionary: each brand the loop has seen is filed
    once, under a candidate of that brand that no seen candidate of the
    brand is newer than. *)
Record latest_inv (d : list (string * Path)) (seen : list Path) : Prop := {
  inv_nodup : NoDup d.*1;
  inv_entry : forall b q, dict_get b d = Some q ->
     q ∈ seen /\ brand_of q = Some b /\
     forall c, c ∈ seen -> brand_of c = Some b ->
               (st_mtime q <? st_mtime c)%float = false;
  inv_filed : forall c b, c ∈ seen -> brand_of c = Some b ->
     is_Some (dict_get b d)
}.

Lemma latest_inv_nil : latest_inv [] [].
Proof.
  split; cbn; [constructor | done |].
  intros c b Hc. by apply elem_of_nil in Hc.
Qed.

Lemma latest_step_brand d p :
  latest_step d p =
  match brand_of p with
  | None => d
  | Some brand =>
      match dict_get brand d with
      | None => dict_set brand p d
      | Some q => if (st_mtime q <? st_mtime p)%float then dict_set brand p d else d
      end
  end.
Proof. unfold latest_step, brand_of. by destruct (_ <? 4)%nat. Qed.

Lemma latest_step_inv d seen p :
  latest_inv d seen -> latest_inv (latest_step d p) (seen ++ [p]).
Proof.
  intros [Hnd Hent Hfil]. rewrite latest_step_brand.
  destruct (brand_of p) as [b0|] eqn:Hb.
  2:{ split; [done| |].
      - intros b q Hq. destruct (Hent b q Hq) as (Hin & Hbq & Hmax).
        split; [apply elem_of_app; by left|]. split; [done|].
        intros c Hc Hcb. apply elem_of_app in Hc as [Hc|Hc]; [by apply Hmax|].
        apply list_elem_of_singleton in Hc as ->. congruence.
      - intros c b Hc Hcb. apply elem_of_app in Hc as [Hc|Hc]; [by eapply Hfil|].
        apply list_elem_of_singleton in Hc as ->. congruence. }
  assert (Hnew :
            (forall c, c ∈ seen -> brand_of c = Some b0 ->
                       (st_mtime p <? st_mtime c)%float = false) ->
            latest_inv (dict_set b0 p d) (seen ++ [p])).
  { intros Hp. split; [by apply dict_set_NoDup| |].
    - intros b q Hq. destruct (decide (b0 = b)) as [<-|Hne].
      + rewrite dict_get_set_eq in Hq. injection Hq as <-.
        split; [apply elem_of_app; right; by apply list_elem_of_singleton|].
        split; [done|]. intros c Hc Hcb.
        apply elem_of_app in Hc as [Hc|Hc]; [by apply Hp|].
        apply list_elem_of_singleton in Hc as ->. apply ltb_irrefl.
      + rewrite dict_get_set_ne in Hq by done.
        destruct (Hent b q Hq) as (Hin & Hbq & Hmax).
        split; [apply elem_of_app; by left|]. split; [done|].
        intros c Hc Hcb. apply elem_of_app in Hc as [Hc|Hc]; [by apply Hmax|].
        apply list_elem_of_singleton in Hc as ->. congruence.
    - intros c b Hc Hcb. destruct (decide (b0 = b)) as [<-|Hne].
      + rewrite dict_get_set_eq. by eexists.
      + rewrite dict_get_set_ne by done.
        apply elem_of_app in Hc as [Hc|Hc]; [by eapply Hfil|].
        apply list_elem_of_singleton in Hc as ->. congruence. }
  destruct (dict_get b0 d) as [q|] eqn:Hq.
  - destruct (Hent b0 q Hq) as (Hin & Hbq & Hmax).
    destruct (st_mtime q <? st_mtime p)%float eqn:Hlt.
    + apply Hnew. intros c Hc Hcb.
      destruct (st_mtime p <? st_mtime c)%float eqn:Hpc; [|done].
      rewrite <- (Hmax c Hc Hcb). symmetry. by eapply ltb_trans.
    + split; [done| |].
      * intros b q' Hq'. destruct (Hent b q' Hq') as (Hin' & Hbq' & Hmax').
        split; [apply elem_of_app; by left|]. split; [done|].
        intros c Hc Hcb. apply elem_of_app in Hc as [Hc|Hc]; [by apply Hmax'|].
        apply list_elem_of_singleton in Hc as ->.
        assert (b = b0) as -> by congruence.
        assert (q' = q) as -> by congruence. done.
      * intros c b Hc Hcb. apply elem_of_app in Hc as [Hc|Hc]; [by eapply Hfil|].
        apply list_elem_of_singleton in Hc as ->.
        assert (b = b0) as -> by congruence. by eexists.
  - apply Hnew. intros c Hc Hcb.
    destruct (Hfil c b0 Hc Hcb) as [q' Hq']. congruence.
Qed.

Lemma latest_fold_inv cands d seen :
  latest_inv d seen -> latest_inv (fold_left latest_step cands d) (seen ++ cands).
Proof.
  revert d seen. induction cands as [|p cands IH]; intros d seen Hinv; cbn.
  - by rewrite app_nil_r.
  - replace (seen ++ p :: cands) with ((seen ++ [p]) ++ cands)
      by (by rewrite <- app_assoc).
    apply IH. by apply latest_step_inv.
Qed.

Lemma filter_none {A} (P : A -> Prop) `{!forall x, Decision (P x)} (l : list A) :
  (forall x, x ∈ l -> ~ P x) -> filter P l = [].
Proof.
  induction l as [|x l IH]; intros Hl; [done|].
  rewrite filter_cons_False by (apply Hl; by left).
  apply IH. intros y Hy. apply Hl. by right.
Qed.

(** The values filed under distinct brands hold one value per brand. *)
Lemma dict_values_brand d b f :
  NoDup d.*1 ->
  (forall k v, (k, v) ∈ d -> brand_of v = Some k) ->
  dict_get b d = Some f ->
  filter (fun p => brand_of p = Some b) d.*2 = [f].
Proof.
  induction d as [|[k v] d IH]; [done|].
  intros Hnd Hbr Hg. rewrite !fmap_cons in *. cbn [fst snd dict_get] in *.
  apply NoDup_cons in Hnd as [Hk Hnd].
  assert (Hv : brand_of v = Some k) by (apply Hbr; by left).
  assert (Hrest : forall k' v', (k', v') ∈ d -> brand_of v' = Some k')
    by (intros k' v' Hin; apply Hbr; by right).
  destruct (String.eqb b k) eqn:E.
  - apply String.eqb_eq in E as ->. injection Hg as ->.
    rewrite filter_cons_True by done. f_equal.
    apply filter_none. intros x Hx Hxb.
    apply list_elem_of_fmap in Hx as ([k' v'] & -> & Hin).
    cbn [snd] in Hxb.
    rewrite (Hrest k' v' Hin) in Hxb. injection Hxb as ->.
    apply Hk. apply list_elem_of_fmap. by exists (k, v').
  - rewrite filter_cons_False.
    + by apply IH.
    + rewrite Hv. intros [= ->]. by rewrite String.eqb_refl in E.
Qed.

Lemma latest_inv_values d seen k v :
  latest_inv d seen -> (k, v) ∈ d -> dict_get k d = Some v.
Proof.
  intros [Hnd _ _]. induction d as [|[k' v'] d IH]; cbn.
  - intros Hin. by apply elem_of_nil in Hin.
  - apply NoDup_cons in Hnd as [Hk Hnd]. intros Hin.
    apply elem_of_cons in Hin as [[= -> ->]|Hin].
    + by rewrite String.eqb_refl.
    + destruct (String.eqb k k') eqn:E; [|by apply IH].
      apply String.eqb_eq in E as ->. destruct Hk.
      apply list_elem_of_fmap. by exists (k', v).
Qed.

(** The selection of [main] in the mode latest-per-brand. *)
Lemma latest_selection (candidates : list Path) (c : Path) (b : string) :
  c ∈ candidates -> brand_of c = Some b ->
  exists f,
    filter (fun p => brand_of p = Some b)
           (select_raw_files LatestPerBrand candidates) = [f] /\
    f ∈ candidates /\
    (forall c', c' ∈ candidates -> brand_of c' = Some b ->
                (st_mtime f <? st_mtime c')%float = false) /\
    (forall p, p ∈ select_raw_files LatestPerBrand candidates ->
               p ∈ candidates /\ is_Some (brand_of p)).
Proof.
  intros Hc Hb. cbn [select_raw_files].
  pose proof (latest_fold_inv candidates [] [] latest_inv_nil) as Hinv.
  cbn [app] in Hinv. set (d := fold_left latest_step candidates []) in *.
  destruct (inv_filed _ _ Hinv c b Hc Hb) as [f Hf].
  destruct (inv_entry _ _ Hinv b f Hf) as (Hin & Hbf & Hmax).
  exists f. split; [|split; [done|split; [done|]]].
  - assert (Hperm : filter (fun p => brand_of p = Some b) (sorted d.*2)
                    ≡ₚ [f]).
    { rewrite sorted_perm.
      rewrite (dict_values_brand d b f); [done|apply Hinv| |done].
      intros k v Hkv. apply (inv_entry _ _ Hinv).
      by eapply latest_inv_values. }
    by apply Permutation_singleton_r in Hperm.
  - intros p Hp. rewrite sorted_perm in Hp.
    apply list_elem_of_fmap in Hp as ([k v] & -> & Hkv).
    pose proof (latest_inv_values _ _ _ _ Hinv Hkv) as Hg.
    destruct (inv_entry _ _ Hinv k v Hg) as (Hin' & Hbv & _).
    cbn. split; [done|]. by eexists.
Qed.

(** ** [load_raw_snapshots] *)

Lemma mapM_Err_elem {A B} (f : A -> result B) (l : list A) x e :
  x ∈ l -> f x = Err e -> exists e', mapM f l = Err e'.
Proof.
  induction l as [|y l IH]; intros Hx Hf; [by apply elem_of_nil in Hx|].
  cbn [mapM]. destruct (f y) as [b|e0] eqn:Hy; [|by eexists].
  apply elem_of_cons in Hx as [->|Hx]; [congruence|].
  destruct (IH Hx Hf) as [e' He']. rewrite He'. by eexists.
Qed.

Lemma sum_filter_concat {A} (P : A -> bool) (ls : list (list A)) :
  length (List.filter P (concat ls)) = sum_list (map (fun l => length (List.filter P l)) ls).
Proof.
  induction ls as [|l ls IH]; [done|].
  cbn [concat map sum_list]. rewrite List.filter_app, length_app. by rewrite IH.
Qed.

Section LoaderFacts.
Context `{Runtime}.

Lemma coerce_entry_other c k (r : gmap string cell) :
  c <> k -> cell_at (coerce_entry c r) k = cell_at r k.
Proof. intros Hne. unfold coerce_entry. by apply cell_at_insert_ne. Qed.

Lemma coerce_row_period_end (r : gmap string cell) :
  cell_at (coerce_row r) "period_end" = cell_at r "period_end".
Proof.
  unfold coerce_row, required_metric_cols. cbn [fold_left].
  by rewrite !coerce_entry_other by discriminate.
Qed.

Lemma tag_row_period_end p (r : gmap string cell) :
  tag_row p r !! "period_end" = Some (option_cell (infer_period_end (label_of p))).
Proof. unfold tag_row. apply lookup_insert_eq. Qed.

Lemma isna_option_cell label :
  isna (option_cell (infer_period_end label)) = negb (contains "_to_" label).
Proof.
  destruct (contains "_to_" label) eqn:Hc.
  - by rewrite infer_period_end_Some.
  - by rewrite infer_period_end_None.
Qed.

Lemma tagged_row_isna p (r : gmap string cell) :
  isna (cell_at (coerce_row (tag_row p r)) "period_end")
  = negb (contains "_to_" (label_of p)).
Proof.
  rewrite coerce_row_period_end. unfold cell_at.
  rewrite tag_row_period_end. cbn [default]. apply isna_option_cell.
Qed.

(** The rows without [period_end] among the rows of one file. *)
Lemma missing_in_file p :
  length (List.filter (fun r => isna (cell_at r "period_end"))
            (map coerce_row (map (tag_row p) (rows (csv p)))))
  = if contains "_to_" (label_of p) then 0%nat else length (rows (csv p)).
Proof.
  induction (rows (csv p)) as [|r rs IH]; cbn [map List.filter length].
  - by destruct (contains _ _).
  - rewrite tagged_row_isna.
    destruct (contains "_to_" (label_of p)); cbn [negb length]; by rewrite IH.
Qed.

Lemma missing_in_files paths :
  length (List.filter (fun r => isna (cell_at r "period_end"))
            (map coerce_row (concat (map (fun p => map (tag_row p) (rows (csv p))) paths))))
  = unlabelled_rows paths.
Proof.
  unfold unlabelled_rows.
  induction paths as [|p paths IH]; [done|].
  cbn [map concat sum_list]. rewrite map_app, List.filter_app, length_app.
  by rewrite missing_in_file, IH.
Qed.

Lemma normalized_rows paths frames :
  Forall2 (fun p df => normalize p = Ok df) paths frames ->
  concat (map rows frames) = concat (map (fun p => map (tag_row p) (rows (csv p))) paths).
Proof.
  induction 1 as [|p df paths frames Hp _ IH]; [done|].
  cbn [map concat]. apply normalize_Ok in Hp as [-> _]. by rewrite IH.
Qed.

(** What [load_raw_snapshots] returns once every file has passed the
    checks of the loop. *)
Lemma load_raw_snapshots_checked paths frames :
  paths <> [] ->
  Forall2 (fun p df => normalize p = Ok df) paths frames ->
  load_raw_snapshots paths =
    if (0 <? unlabelled_rows paths)%nat
    then Err (RowsMissingPeriodEnd (unlabelled_rows paths))
    else Ok {| columns := columns (concat_frames frames);
               rows := map coerce_row
                         (concat (map (fun p => map (tag_row p) (rows (csv p))) paths)) |}.
Proof.
  intros Hne Hall. unfold load_raw_snapshots.
  destruct paths as [|p0 paths0]; [done|].
  apply mapM_Ok_Forall2 in Hall as Hm. rewrite Hm. cbn [mbind result_bind].
  cbn [rows columns concat_frames].
  rewrite (normalized_rows _ _ Hall), missing_in_files. reflexivity.
Qed.

Lemma load_raw_snapshots_Ok paths raw :
  load_raw_snapshots paths = Ok raw ->
  paths <> [] /\ unlabelled_rows paths = 0%nat /\
  (exists frames, Forall2 (fun p df => normalize p = Ok df) paths frames /\
                  columns raw = columns (concat_frames frames)) /\
  rows raw = map coerce_row
               (concat (map (fun p => map (tag_row p) (rows (csv p))) paths)).
Proof.
  intros Hl. assert (Hne : paths <> []) by (intros ->; discriminate Hl).
  destruct (mapM normalize paths) as [frames|e] eqn:Hm.
  2:{ unfold load_raw_snapshots in Hl. destruct paths; [done|].
      rewrite Hm in Hl. discriminate Hl. }
  apply mapM_Ok_Forall2 in Hm.
  rewrite (load_raw_snapshots_checked paths frames Hne Hm) in Hl.
  destruct (0 <? unlabelled_rows paths)%nat eqn:Hz; [discriminate Hl|].
  injection Hl as <-. apply Nat.ltb_ge in Hz.
  split; [done|]. split; [lia|]. split; [by exists frames|done].
Qed.

Lemma unlabelled_rows_pos paths p :
  p ∈ paths -> contains "_to_" (label_of p) = false -> rows (csv p) <> [] ->
  (0 < unlabelled_rows paths)%nat.
Proof.
  unfold unlabelled_rows. intros Hp Hc Hr.
  induction paths as [|q paths IH]; [by apply elem_of_nil in Hp|].
  cbn [map sum_list]. apply elem_of_cons in Hp as [<-|Hp].
  - rewrite Hc. destruct (rows (csv p)); [done|cbn; lia].
  - specialize (IH Hp). lia.
Qed.

Lemma load_raw_snapshots_unlabelled paths p :
  p ∈ paths -> contains "_to_" (label_of p) = false -> rows (csv p) <> [] ->
  exists e, load_raw_snapshots paths = Err e.
Proof.
  intros Hp Hc Hr. destruct (load_raw_snapshots paths) as [raw|e] eqn:Hl; [|by eexists].
  apply load_raw_snapshots_Ok in Hl as (_ & Hz & _).
  pose proof (unlabelled_rows_pos paths p Hp Hc Hr). lia.
Qed.

Lemma main_load_error period_end raw_dir mode now e :
  load_raw_snapshots
    (select_raw_files mode (sorted (glob raw_dir (snapshot_pattern period_end))))
  = Err e ->
  exists e', main period_end raw_dir mode now = Err e'.
Proof.
  intros Hl. unfold main.
  destruct (sorted (glob raw_dir (snapshot_pattern period_end))); [by eexists|].
  rewrite Hl. by eexists.
Qed.

End LoaderFacts.

Section SnapshotClaims.
Context `{Runtime}.

(** C6, as amended: every row of a normalised snapshot carries as
    period_end the second component of the period label split on
    "_to_", and no period_end when the label does not hold the
    separator.  [load_raw_snapshots] raises whenever a snapshot with at
    least one row has a label without the separator: once every file
    has passed the checks of the loop, the error carries the number of
    rows without period_end (it does not name a file); and when
    [load_raw_snapshots] raises, [main] raises and writes nothing.  A
    snapshot without rows does not raise it. *)
Theorem period_end_validation :
  (forall p df r, normalize p = Ok df -> r ∈ rows df ->
     r !! "period_end" = Some (option_cell (infer_period_end (label_of p)))) /\
  (forall label, contains "_to_" label = true ->
     infer_period_end label = Some (nth 1 (split "_to_" label) "")) /\
  (forall label, contains "_to_" label = false ->
     infer_period_end label = None) /\
  (forall paths p,
     p ∈ paths -> contains "_to_" (label_of p) = false -> rows (csv p) <> [] ->
     exists e, load_raw_snapshots paths = Err e) /\
  (forall paths frames,
     paths <> [] ->
     Forall2 (fun p df => normalize p = Ok df) paths frames ->
     (0 < unlabelled_rows paths)%nat ->
     load_raw_snapshots paths = Err (RowsMissingPeriodEnd (unlabelled_rows paths))) /\
  (forall period_end raw_dir mode now e,
     load_raw_snapshots
       (select_raw_files mode (sorted (glob raw_dir (snapshot_pattern period_end))))
     = Err e ->
     exists e', main period_end raw_dir mode now = Err e').
Proof.
  split.
  { intros p df r Hp Hr. apply normalize_Ok in Hp as [Hrows _].
    rewrite Hrows in Hr. apply list_elem_of_fmap in Hr as (r0 & -> & _).
    apply tag_row_period_end. }
  split; [apply infer_period_end_Some|].
  split; [apply infer_period_end_None|].
  split; [apply load_raw_snapshots_unlabelled|].
  split; [|apply main_load_error].
  intros paths frames Hne Hall Hpos.
  rewrite (load_raw_snapshots_checked paths frames Hne Hall).
  apply Nat.ltb_lt in Hpos. by rewrite Hpos.
Qed.

(** C7: in the mode latest-per-brand, for every brand of a
    candidate exactly one of the selected files is of that brand; it is
    a candidate that no candidate of the brand is newer than; only
    candidates are selected; and the rows of the fact table are the
    rows of the selected files, one file after the other, so the rows
    of the other candidates do not reach it.  [load_raw_snapshots]
    returns that table whenever the selected files pass its checks:
    each passes the checks of the loop and none with rows has a label
    without the separator. *)
Theorem latest_per_brand_selection (candidates : list Path) (c : Path) (b : string) :
  c ∈ candidates -> brand_of c = Some b ->
  exists f,
    filter (fun p => brand_of p = Some b)
           (select_raw_files LatestPerBrand candidates) = [f] /\
    f ∈ candidates /\
    (forall c', c' ∈ candidates -> brand_of c' = Some b ->
                (st_mtime f <? st_mtime c')%float = false) /\
    (forall p, p ∈ select_raw_files LatestPerBrand candidates ->
               p ∈ candidates /\ is_Some (brand_of p)) /\
    (forall raw,
       load_raw_snapshots (select_raw_files LatestPerBrand candidates) = Ok raw ->
       rows raw =
         map coerce_row
           (concat (map (fun p => map (tag_row p) (rows (csv p)))
                        (select_raw_files LatestPerBrand candidates)))) /\
    (forall frames,
       Forall2 (fun p df => normalize p = Ok df)
               (select_raw_files LatestPerBrand candidates) frames ->
       Forall (fun p => numeric_cases p = true)
              (select_raw_files LatestPerBrand candidates) ->
       unlabelled_rows (select_raw_files LatestPerBrand candidates) = 0%nat ->
       load_raw_snapshots (select_raw_files LatestPerBrand candidates)
       = Ok {| columns := columns (concat_frames frames);
               rows := map coerce_row
                         (concat (map (fun p => map (tag_row p) (rows (csv p)))
                                      (select_raw_files LatestPerBrand candidates))) |}).
Proof.
  intros Hc Hb.
  destruct (latest_selection candidates c b Hc Hb) as (f & Hf & Hin & Hmax & Hall).
  exists f. split; [done|]. split; [done|]. split; [done|]. split; [done|].
  split.
  - intros raw Hraw. by apply load_raw_snapshots_Ok in Hraw as (_ & _ & _ & Hrows).
  - intros frames Hframes _ Hz.
    rewrite (load_raw_snapshots_checked _ frames); [by rewrite Hz| |exact Hframes].
    intros Hnil. rewrite Hnil in Hf. discriminate Hf.
Qed.

End SnapshotClaims.

Lemma period_end_validation_witness :
  exists e, @load_raw_snapshots plain_runtime [new_acme; unlabelled] = Err e.
Proof.
  apply (proj1 (proj2 (proj2 (proj2 (@period_end_validation plain_runtime))))
           [new_acme; unlabelled] unlabelled).
  - apply elem_of_cons. right. apply elem_of_cons. by left.
  - vm_compute. reflexivity.
  - discriminate.
Defined.

(** C6 as stated fails on a snapshot without rows: its period segment
    holds no separator, nothing is raised, and [main] hands an empty
    table to [write_outputs].  With one row in that snapshot the error
    is raised, and carries the number of rows rather than the file. *)
Lemma empty_snapshot_passes :
  contains "_to_" (label_of unlabelled_empty) = false /\
  (exists metrics,
     @main plain_runtime "2024-03-16" [unlabelled_empty] LatestPerBrand (CStr "now")
     = Ok metrics /\ rows metrics = []) /\
  @main plain_runtime "2024-03-16" [unlabelled] LatestPerBrand (CStr "now")
  = Err (RowsMissingPeriodEnd 1).
Proof.
  split; [vm_compute; reflexivity|]. split.
  - eexists. split; [vm_compute; reflexivity|reflexivity].
  - vm_compute. reflexivity.
Qed.

Lemma latest_per_brand_selection_witness :
  exists f raw,
    select_raw_files LatestPerBrand [old_acme; new_acme; zeta] = [new_acme; zeta] /\
    filter (fun p => brand_of p = Some "acme")
           (select_raw_files LatestPerBrand [old_acme; new_acme; zeta]) = [f] /\
    f ∈ [old_acme; new_acme; zeta] /\
    @load_raw_snapshots plain_runtime
      (select_raw_files LatestPerBrand [old_acme; new_acme; zeta]) = Ok raw /\
    rows raw =
      map (@coerce_row plain_runtime)
        (concat (map (fun p => map (tag_row p) (rows (csv p)))
                     (select_raw_files LatestPerBrand [old_acme; new_acme; zeta]))) /\
    length (rows raw) = 2%nat.
Proof.
  assert (Hin : old_acme ∈ [old_acme; new_acme; zeta])
    by (apply elem_of_cons; by left).
  assert (Hb : brand_of old_acme = Some "acme") by (vm_compute; reflexivity).
  destruct (@latest_per_brand_selection plain_runtime [old_acme; new_acme; zeta]
              old_acme "acme" Hin Hb) as (f & Hf & Hfin & _ & _ & _ & Hload).
  assert (Hsel : select_raw_files LatestPerBrand [old_acme; new_acme; zeta]
                 = [new_acme; zeta]) by (vm_compute; reflexivity).
  destruct (normalize new_acme) as [d1|e1] eqn:E1.
  2:{ exfalso. vm_compute in E1. discriminate E1. }
  destruct (normalize zeta) as [d2|e2] eqn:E2.
  2:{ exfalso. vm_compute in E2. discriminate E2. }
  assert (Hframes : Forall2 (fun p df => normalize p = Ok df)
                      (select_raw_files LatestPerBrand [old_acme; new_acme; zeta])
                      [d1; d2]).
  { rewrite Hsel. constructor; [exact E1|]. constructor; [exact E2|constructor]. }
  assert (Hnum : Forall (fun p => numeric_cases p = true)
                   (select_raw_files LatestPerBrand [old_acme; new_acme; zeta])).
  { rewrite Hsel. constructor; [vm_compute; reflexivity|].
    constructor; [vm_compute; reflexivity|constructor]. }
  assert (Hz : unlabelled_rows (select_raw_files LatestPerBrand [old_acme; new_acme; zeta])
               = 0%nat).
  { rewrite Hsel. vm_compute. reflexivity. }
  specialize (Hload [d1; d2] Hframes Hnum Hz).
  exists f, {| columns := columns (concat_frames [d1; d2]);
               rows := map (@coerce_row plain_runtime)
                         (concat (map (fun p => map (tag_row p) (rows (csv p)))
                            (select_raw_files LatestPerBrand
                               [old_acme; new_acme; zeta]))) |}.
  split; [exact Hsel|]. split; [exact Hf|]. split; [exact Hfin|].
  split; [exact Hload|]. split; [reflexivity|].
  cbn [rows]. rewrite Hsel. reflexivity.
Defined.

(** Scenario D of the specification: of two pulls of one brand, the
    rows of the newer one reach the metrics table. *)
Example scenario_D :
  select_raw_files LatestPerBrand [old_acme; new_acme; zeta] = [new_acme; zeta] /\
  match @main plain_runtime "2024-03-16" [old_acme; zeta; new_acme]
          LatestPerBrand (CStr "now") with
  | Ok metrics =>
      map (fun r => (r !! "unique_key", r !! "brand_cases")) (rows metrics)
  | Err _ => []
  end
  = [(Some (CStr "1001|acme|2024-03-16"), Some (CNum 120));
     (Some (CStr "1007|zeta|2024-03-16"), Some (CNum 3))].
Proof. split; vm_compute; reflexivity. Qed.

(** ** The period logic and its callers *)

(** The pull script's own window is the window of the period module. *)
Theorem locked_window_agrees (clock : datetime) (d : date) (s e : date) :
  Pull._locked_biweekly_window_chicago (dt_date clock) (Some d) = Some (s, e) <->
  exists p,
    current_biweekly_period clock
      (Some {| dt_date := d; dt_micros := 0; tzinfo := None |}) = Some p /\
    start p = s /\ end_ p = e.
Proof.
  unfold Pull._locked_biweekly_window_chicago, current_biweekly_period,
    most_recent_saturday. cbn [tzinfo replace_tzinfo dt_date].
  destruct (date_sub_days d ((weekday d - 5) mod 7)) as [e0|]; cbn.
  2:{ split; [done | by intros (p & Hp & _)]. }
  destruct (date_sub_days e0 13) as [s0|]; cbn.
  2:{ split; [done | by intros (p & Hp & _)]. }
  split.
  - intros [= <- <-]. by eexists.
  - intros (p & [= <-] & <- & <-). done.
Qed.

(** Without arguments both read the clock, and agree as well. *)
Theorem locked_window_is_current_period (clock : datetime) :
  Pull._locked_biweekly_window_chicago (dt_date clock) None
  = get_current_period clock.
Proof.
  unfold Pull._locked_biweekly_window_chicago, get_current_period,
    current_biweekly_period, most_recent_saturday.
  assert (Hd : dt_date (match tzinfo clock with
                        | None => replace_tzinfo clock CT | Some _ => clock end)
               = dt_date clock) by (destruct (tzinfo clock); reflexivity).
  rewrite Hd.
  destruct (date_sub_days (dt_date clock) _) as [e0|]; cbn; [|done].
  destruct (date_sub_days e0 13) as [s0|]; cbn; done.
Qed.

(** The compare period set in the session is the period before. *)
Theorem compare_period_is_last_period (p : BiWeeklyPeriod) :
  produced p ->
  (forall q, last_biweekly_period p = Some q ->
     Pull._set_sales_and_compare_periods (start p) (end_ p)
     = Some [("sales_period_start", isoformat (start p));
             ("sales_period_end", isoformat (end_ p));
             ("compare_period_start", isoformat (start q));
             ("compare_period_end", isoformat (end_ q))]%string) /\
  (last_biweekly_period p = None ->
     Pull._set_sales_and_compare_periods (start p) (end_ p) = None).
Proof.
  intros Hp. destruct (produced_span p Hp) as (Hspan & Hs & He).
  unfold Pull._set_sales_and_compare_periods. split.
  - intros q Hq. apply last_biweekly_period_Some in Hq as (Hlo & Hhi & ->).
    cbn [start end_].
    assert (H1 : date_sub_days (start p) 1 = Some (end_ p - 14))
      by (apply date_sub_days_Some; unfold valid_date, MINORDINAL, MAXORDINAL in *; lia).
    assert (H2 : date_sub_days (end_ p - 14) 13 = Some (end_ p - 27))
      by (apply date_sub_days_Some; unfold valid_date, MINORDINAL, MAXORDINAL in *; lia).
    rewrite H1. cbn. rewrite H2. reflexivity.
  - intros Hn.
    destruct (date_sub_days (start p) 1) as [ce|] eqn:H1; cbn; [|done].
    destruct (date_sub_days ce 13) as [cs|] eqn:H2; cbn; [|done].
    apply date_sub_days_Some in H1 as [-> H1], H2 as [-> H2].
    assert (Hq : exists q, last_biweekly_period p = Some q).
    { eexists. apply last_biweekly_period_Some.
      unfold valid_date, MINORDINAL, MAXORDINAL in *. repeat split; lia. }
    destruct Hq as [q Hq]. congruence.
Qed.

(** Where the reference date lies: never before the end of the current
    period, less than a week after it, and inside the period exactly on
    a Saturday. *)
Theorem current_period_position (clock : datetime) (now : option datetime) p :
  current_biweekly_period clock now = Some p ->
  let d := dt_date (match now with None => clock | Some n => n end) in
  end_ p <= d < end_ p + 7 /\ start p < d /\
  (d <= end_ p <-> weekday d = 5).
Proof.
  intros Hp d. apply current_biweekly_period_Some in Hp as (e & He & Hs & ->).
  fold d in He. unfold most_recent_saturday in He.
  apply date_sub_days_Some in He as [-> He], Hs as [Hs _].
  pose proof (days_since_sat_range d) as Hr.
  split; [lia|]. split; [lia|]. split.
  - intros Hle. assert (H0 : (weekday d - 5) mod 7 = 0) by lia.
    unfold weekday in *. Z.div_mod_to_equations. lia.
  - intros Hsat. rewrite saturday_distance_0 by done. lia.
Qed.

(** ** Splitting strings that are built from parts *)

Lemma append_assoc (a b c : string) : (a +:+ b) +:+ c = a +:+ b +:+ c.
Proof. induction a as [|x a IH]; [done|]. rewrite !append_cons_l. by rewrite IH. Qed.

Lemma append_nil_r (a : string) : a +:+ "" = a.
Proof. induction a as [|x a IH]; [done|]. rewrite append_cons_l. by rewrite IH. Qed.

Lemma prefix_cons_ne a b s1 s2 :
  a <> b -> String.prefix (String a s1) (String b s2) = false.
Proof. intros Hne. cbn [String.prefix]. by destruct (ascii_dec a b). Qed.

Lemma prefix_append sep t : String.prefix sep (sep +:+ t) = true.
Proof.
  induction sep as [|c sep IH]; [by destruct t|].
  rewrite append_cons_l. cbn [String.prefix].
  destruct (ascii_dec c c); [exact IH|done].
Qed.

Lemma split_go_skip sep s rest cur :
  starts_none sep s rest = true ->
  split_go sep 0 cur (s +:+ rest) = split_go sep 0 (cur +:+ s) rest.
Proof.
  revert cur. induction s as [|c s IH]; intros cur Hs.
  - by rewrite append_nil_l, append_nil_r.
  - cbn [starts_none] in Hs. apply andb_true_iff in Hs as [Hp Hs].
    apply negb_true_iff in Hp. rewrite append_cons_l in *.
    cbn [split_go]. rewrite Hp. rewrite IH by done.
    by rewrite append_assoc.
Qed.

Lemma split_go_skipping sep k pre cur t :
  String.length pre = k ->
  split_go sep k cur (pre +:+ t) = split_go sep 0 cur t.
Proof.
  revert k. induction pre as [|c pre IH]; intros k Hk; cbn in Hk; subst k.
  - by rewrite append_nil_l.
  - rewrite append_cons_l. cbn [split_go]. by apply IH.
Qed.

Lemma split_go_match c sep t cur :
  split_go (String c sep) 0 cur (String c sep +:+ t)
  = cur :: split_go (String c sep) 0 EmptyString t.
Proof.
  pose proof (prefix_append (String c sep) t) as Hp.
  rewrite append_cons_l in *. cbn [split_go]. rewrite Hp. f_equal.
  apply split_go_skipping. cbn. lia.
Qed.

Lemma split_go_last sep s cur :
  starts_none sep s EmptyString = true ->
  split_go sep 0 cur s = [cur +:+ s].
Proof.
  intros Hs. rewrite <- (append_nil_r s) at 1.
  by rewrite split_go_skip.
Qed.

Lemma contains_append sep s t : contains sep (s +:+ sep +:+ t) = true.
Proof.
  induction s as [|c s IH].
  - rewrite append_nil_l. destruct sep as [|c sep].
    + by destruct t.
    + rewrite append_cons_l. cbn [contains].
      rewrite <- append_cons_l. by rewrite prefix_append.
  - rewrite append_cons_l. cbn [contains]. rewrite IH. apply orb_true_r.
Qed.

Lemma underscore_free_starts_none sep s rest :
  underscore_free s = true -> starts_none (String "_" sep) s rest = true.
Proof.
  induction s as [|c s IH]; [done|]. cbn [underscore_free starts_none].
  intros Hs. apply andb_true_iff in Hs as [Hc Hs].
  rewrite IH by done. rewrite append_cons_l, prefix_cons_ne; [done|].
  intros <-. by rewrite Ascii.eqb_refl in Hc.
Qed.

Lemma tame_starts_none s rest :
  tame s = true -> starts_none "__" s rest = true.
Proof.
  induction s as [|c s IH]; [done|]. cbn [tame starts_none].
  intros Hs. apply andb_true_iff in Hs as [Hc Hs].
  rewrite IH by done. rewrite andb_true_r. apply negb_true_iff.
  rewrite append_cons_l.
  destruct (Ascii.eqb c "_") eqn:E.
  - apply Ascii.eqb_eq in E as ->. destruct s as [|c' s]; [done|].
    rewrite append_cons_l. cbn [String.prefix].
    destruct (ascii_dec "_" "_"); [|done].
    apply prefix_cons_ne. intros <-. by rewrite Ascii.eqb_refl in Hc.
  - apply prefix_cons_ne. intros <-. by rewrite Ascii.eqb_refl in E.
Qed.

Lemma underscore_free_tame s : underscore_free s = true -> tame s = true.
Proof.
  induction s as [|c s IH]; [done|]. cbn [underscore_free tame].
  intros Hs. apply andb_true_iff in Hs as [Hc Hs].
  rewrite IH by done. apply negb_true_iff in Hc. by rewrite Hc.
Qed.

Lemma tame_append a b : tame a = true -> tame b = true -> tame (a +:+ b) = true.
Proof.
  intros Ha Hb. induction a as [|c a IH]; [done|].
  rewrite append_cons_l. cbn [tame] in *.
  apply andb_true_iff in Ha as [Hc Ha]. rewrite IH by done.
  rewrite andb_true_r. destruct (Ascii.eqb c "_"); [|done].
  destruct a as [|c' a]; [done|]. by rewrite append_cons_l.
Qed.

(** The digits of a date. *)
Lemma digit_not_underscore z : Ascii.eqb (digit z) "_" = false.
Proof.
  unfold digit. pose proof (Z.mod_pos_bound z 10 ltac:(lia)) as Hz.
  assert (Hk : (Z.to_nat (z mod 10) < 10)%nat) by lia.
  destruct (Z.to_nat (z mod 10)) as [|[|[|[|[|[|[|[|[|[|k]]]]]]]]]]; try reflexivity.
  lia.
Qed.

Lemma underscore_free_isoformat d : underscore_free (isoformat d) = true.
Proof.
  unfold isoformat. destruct (ord2ymd d) as [[y m] dd].
  unfold fmt04, fmt02. rewrite !append_cons_l, !append_nil_l.
  cbn [underscore_free]. rewrite !digit_not_underscore. reflexivity.
Qed.

Lemma period_label_split (s e : date) :
  split "_to_" (period_label s e) = [isoformat s; isoformat e].
Proof.
  unfold split, period_label.
  rewrite split_go_skip
    by (apply underscore_free_starts_none, underscore_free_isoformat).
  rewrite split_go_match, append_nil_l.
  rewrite split_go_last
    by (apply underscore_free_starts_none, underscore_free_isoformat).
  by rewrite append_nil_l.
Qed.

Lemma period_label_end (s e : date) :
  infer_period_end (period_label s e) = Some (isoformat e).
Proof.
  unfold infer_period_end. rewrite period_label_split.
  unfold period_label. by rewrite contains_append.
Qed.

(** A period label is read back to the end of its period. *)
Theorem period_label_round_trip (s e : date) :
  infer_period_end (period_label s e) = Some (isoformat e) /\
  split "_to_" (period_label s e) = [isoformat s; isoformat e].
Proof. split; [apply period_label_end|apply period_label_split]. Qed.

Lemma produced_label p : produced p -> label p = period_label (start p) (end_ p).
Proof.
  destruct 1 as [clock now p Hv Hp | p q Hp Hq].
  - unfold current_biweekly_period in Hp.
    destruct (most_recent_saturday _) as [e|]; cbn in Hp; [|done].
    destruct (date_sub_days e 13) as [s|]; cbn in Hp; [|done].
    by injection Hp as <-.
  - apply last_biweekly_period_Some in Hq as (_ & _ & ->). reflexivity.
Qed.

(** ** More on the metrics engine *)

Lemma sub_zero_eqb b e :
  (e =? 0)%float = true -> is_nan b = false -> (b - e =? b)%float = true.
Proof.
  intros He Hb. apply eqb_zero_spec in He as [se He].
  apply not_nan_spec in Hb.
  rewrite FloatAxioms.eqb_spec, FloatAxioms.sub_spec, He.
  destruct (Prim2SF b) as [sb|sb| |sb mb eb]; try done.
  - by destruct sb, se.
  - by destruct sb.
  - cbn [SF64sub SFsub]. by apply SFeqb_refl.
Qed.

Lemma add_label_fold_keep c l cols :
  c ∈ cols -> c ∈ fold_left (fun cols c => add_label c cols) l cols.
Proof.
  revert cols. induction l as [|x l IH]; intros cols Hc; [done|].
  cbn [fold_left]. apply IH. by apply add_label_keep.
Qed.

Lemma add_label_fold_here c l cols :
  c ∈ l -> c ∈ fold_left (fun cols c => add_label c cols) l cols.
Proof.
  revert cols. induction l as [|x l IH]; intros cols Hc; [by apply elem_of_nil in Hc|].
  cbn [fold_left]. apply elem_of_cons in Hc as [->|Hc].
  - apply add_label_fold_keep, add_label_here.
  - by apply IH.
Qed.

Lemma add_label_fold_id l cols :
  (forall c, c ∈ l -> c ∈ cols) ->
  fold_left (fun cols c => add_label c cols) l cols = cols.
Proof.
  induction l as [|x l IH]; intros Hl; [done|].
  cbn [fold_left]. unfold add_label at 2.
  rewrite bool_decide_eq_true_2 by (apply Hl; by left).
  apply IH. intros c Hc. apply Hl. by right.
Qed.

Section EngineMore.
Context `{Runtime}.

(** The derived entries of a row depend on the four volumes and on the
    key of the row only. *)
Lemma metrics_row_derived (r1 r2 : gmap string cell) b c blp clp k :
  key_of r1 = key_of r2 -> k ∈ derived_columns ->
  metrics_row r1 b c blp clp !! k = metrics_row r2 b c blp clp !! k.
Proof.
  intros Hkey Hk. unfold derived_columns in Hk.
  destruct (metrics_row_numbers r1 b c blp clp)
    as (A1 & A2 & A3 & A4 & A5 & A6 & A7 & A8 & A9 & A10 & A11).
  destruct (metrics_row_numbers r2 b c blp clp)
    as (B1 & B2 & B3 & B4 & B5 & B6 & B7 & B8 & B9 & B10 & B11).
  destruct (metrics_row_labels r1 b c blp clp)
    as (C1 & C2 & C3 & C4 & C5 & C6 & C7 & C8 & C9).
  destruct (metrics_row_labels r2 b c blp clp)
    as (D1 & D2 & D3 & D4 & D5 & D6 & D7 & D8 & D9).
  fold (key_of r1) in C1. fold (key_of r2) in D1. rewrite Hkey in C1.
  repeat (apply elem_of_cons in Hk as [->|Hk]; [congruence|]).
  by apply elem_of_nil in Hk.
Qed.

Lemma metrics_row_idem (r : gmap string cell) b c blp clp :
  metrics_row (metrics_row r b c blp clp) b c blp clp = metrics_row r b c blp clp.
Proof.
  apply map_eq. intros k.
  destruct (decide (k ∈ derived_columns)) as [Hk|Hk].
  - apply metrics_row_derived; [|done]. apply metrics_row_key.
  - by rewrite metrics_row_frame.
Qed.

Lemma metrics_row_cases (r : gmap string cell) b c blp clp k :
  bool_decide (k ∈ derived_columns) = false ->
  cell_at (metrics_row r b c blp clp) k = cell_at r k.
Proof.
  intros Hk. unfold cell_at. by rewrite metrics_row_frame by by apply not_in_derived.
Qed.

(** Running the engine on its own output changes nothing. *)
Theorem compute_metrics_idempotent (raw out : DataFrame) :
  compute_metrics raw = Ok out -> compute_metrics out = Ok out.
Proof.
  intros Hout. apply compute_metrics_Ok.
  pose proof Hout as Hout'. apply compute_metrics_Ok in Hout' as (Hmiss & Hrows & Hcols).
  split; [|split].
  - apply first_missing_None. intros c Hc. rewrite Hcols.
    apply add_label_fold_keep. by apply (proj1 (first_missing_None _ _) Hmiss).
  - apply Forall2_same_length_lookup. split; [done|].
    intros i r1 r2 H1 H2. assert (r2 = r1) as -> by congruence.
    destruct (compute_metrics_row raw out i r1 Hout H1)
      as (r & b & c & blp & clp & _ & Hb & Hc & Hblp & Hclp & ->).
    rewrite (compute_row_closed _ b c blp clp);
      [by rewrite metrics_row_idem|..];
      rewrite metrics_row_cases by (vm_compute; reflexivity); done.
  - symmetry. apply add_label_fold_id.
    intros c Hc. rewrite Hcols. by apply add_label_fold_here.
Qed.

(** The two shares of an output row are numbers, whatever the input. *)
Theorem shares_are_numbers (raw out : DataFrame) i r' :
  compute_metrics raw = Ok out ->
  rows out !! i = Some r' ->
  exists share share_lp,
    r' !! "share_of_category" = Some (CNum share) /\
    r' !! "share_of_category_lp" = Some (CNum share_lp) /\
    is_nan share = false /\ is_nan share_lp = false.
Proof.
  intros Hout Hi.
  destruct (compute_metrics_row raw out i r' Hout Hi)
    as (r & b & c & blp & clp & _ & _ & _ & _ & _ & ->).
  destruct (metrics_row_numbers r b c blp clp) as (H1 & H2 & _).
  eexists _, _. split; [exact H1|]. split; [exact H2|].
  split; apply safe_div_not_nan.
Qed.

(** A row without category volume in the last period: the last-period
    share is 0.0, and with a finite category volume the expected volume
    is a zero and the whole brand volume counts as true difference. *)
Theorem zero_last_period_category (raw out : DataFrame) i r' b c clp :
  compute_metrics raw = Ok out ->
  rows out !! i = Some r' ->
  cell_at r' "brand_cases" = CNum b ->
  cell_at r' "category_cases" = CNum c ->
  cell_at r' "category_cases_lp" = CNum clp ->
  (clp =? 0)%float = true ->
  r' !! "share_of_category_lp" = Some (CNum 0) /\
  (is_finite c = true ->
   exists expected td,
     r' !! "expected_cases_if_maintained_share" = Some (CNum expected) /\
     r' !! "true_difference_cases" = Some (CNum td) /\
     (expected =? 0)%float = true /\
     (is_nan b = false -> (td =? b)%float = true)).
Proof.
  intros Hout Hi Hb Hc Hclp Hz.
  destruct (compute_metrics_row raw out i r' Hout Hi)
    as (r & b0 & c0 & blp & clp0 & _ & Hb0 & Hc0 & _ & Hclp0 & ->).
  rewrite metrics_row_cases in Hb, Hc, Hclp by (vm_compute; reflexivity).
  assert (b0 = b) as -> by congruence.
  assert (c0 = c) as -> by congruence.
  assert (clp0 = clp) as -> by congruence.
  destruct (metrics_row_numbers r b c blp clp)
    as (_ & H2 & _ & _ & _ & H6 & _ & H8 & _).
  rewrite (safe_div_zero blp clp Hz) in H2, H6, H8.
  split; [exact H2|]. intros Hfin.
  eexists _, _. split; [exact H6|]. split; [exact H8|].
  assert (He : (c * 0 =? 0)%float = true) by (by apply mul_zero_finite).
  split; [exact He|]. intros Hnb. by apply sub_zero_eqb.
Qed.

End EngineMore.

(** ** More on [load_raw_snapshots] and [main] *)

Lemma normalize_checks p e :
  unique_labels p = true -> normalize p = Err e ->
  exists n, e = MissingAccountId n \/ e = UnexpectedFilename n \/
            exists missing, e = MissingMetricColumns n missing.
Proof.
  unfold unique_labels, normalize.
  destruct (first_duplicate _); [done|]. intros _.
  destruct (negb _); [intros [= <-]; eexists; by left|].
  destruct (_ && _); [|intros [= <-]; eexists; right; by left].
  destruct (List.filter _ _); [done|intros [= <-]; eexists; right; right; by eexists].
Qed.

Lemma elem_of_by_decide (c : string) (l : list string) :
  bool_decide (c ∈ l) = true -> c ∈ l.
Proof. apply bool_decide_eq_true_1. Qed.

Lemma not_elem_of_by_decide (c : string) (l : list string) :
  bool_decide (c ∈ l) = false -> c ∉ l.
Proof. apply bool_decide_eq_false_1. Qed.

Lemma mapM_first_Err {A B} (f : A -> result B) (pre : list A) (pre' : list B) x post e :
  Forall2 (fun a b => f a = Ok b) pre pre' -> f x = Err e ->
  mapM f (pre ++ x :: post) = Err e.
Proof.
  induction 1 as [|a b pre pre' Ha _ IH]; intros Hx; cbn [app mapM].
  - by rewrite Hx.
  - rewrite Ha. cbn [mbind result_bind]. by rewrite IH.
Qed.

Lemma mapM_Err_inv {A B} (f : A -> result B) (l : list A) e :
  mapM f l = Err e -> exists x, x ∈ l /\ f x = Err e.
Proof.
  induction l as [|a l IH]; cbn [mapM]; [done|].
  destruct (f a) as [b|e0] eqn:Ha; cbn [mbind result_bind].
  - destruct (mapM f l) as [k|e1]; cbn [mbind result_bind]; [done|].
    intros [= ->]. destruct (IH eq_refl) as (x & Hx & Hfx).
    exists x. split; [by right|done].
  - intros [= ->]. exists a. split; [by left|done].
Qed.

Lemma concat_frames_columns frames df c :
  df ∈ frames -> c ∈ columns df -> c ∈ columns (concat_frames frames).
Proof.
  unfold concat_frames; cbn [columns]. generalize (@nil string) as acc.
  induction frames as [|d frames IH]; intros acc Hdf Hc;
    [by apply elem_of_nil in Hdf|].
  cbn [fold_left]. apply elem_of_cons in Hdf as [<-|Hdf].
  - assert (Hin : c ∈ fold_left (fun a c => add_label c a) (columns df) acc)
      by (by apply add_label_fold_here).
    revert Hin. generalize (fold_left (fun a c => add_label c a) (columns df) acc).
    clear. induction frames as [|d frames IH]; intros acc Hin; [done|].
    cbn [fold_left]. apply IH. by apply add_label_fold_keep.
  - by apply IH.
Qed.

Section LoaderMore.
Context `{Runtime}.

Lemma coerce_entry_here c (r : gmap string cell) :
  exists x, cell_at (coerce_entry c r) c = CNum x /\ is_nan x = false.
Proof.
  unfold coerce_entry. rewrite cell_at_insert_eq.
  destruct (is_nan (to_numeric (cell_at r c))) eqn:E; eexists; split; done.
Qed.

(** After the coercion the four case columns hold numbers. *)
Lemma coerce_row_numbers (r : gmap string cell) c :
  c ∈ required_metric_cols ->
  exists x, cell_at (coerce_row r) c = CNum x /\ is_nan x = false.
Proof.
  unfold coerce_row, required_metric_cols. cbn [fold_left]. intros Hc.
  repeat (apply elem_of_cons in Hc as [->|Hc];
          [rewrite ?coerce_entry_other by discriminate; apply coerce_entry_here|]).
  by apply elem_of_nil in Hc.
Qed.

Lemma coerce_row_other (r : gmap string cell) k :
  k ∉ required_metric_cols -> coerce_row r !! k = r !! k.
Proof.
  unfold coerce_row, required_metric_cols, coerce_entry. cbn [fold_left].
  intros Hk. repeat (apply not_elem_of_cons in Hk as [? Hk]).
  by rewrite !lookup_insert_ne by done.
Qed.

Lemma load_then_compute (paths : list Path) (raw : DataFrame) :
  load_raw_snapshots paths = Ok raw ->
  (forall r c, r ∈ rows raw -> c ∈ required_metric_cols ->
     exists x, cell_at r c = CNum x /\ is_nan x = false) /\
  (forall c, c ∈ read_columns -> c ∈ columns raw) /\
  exists metrics, compute_metrics raw = Ok metrics /\
                  length (rows metrics) = length (rows raw).
Proof.
  intros Hl.
  apply load_raw_snapshots_Ok in Hl as (Hne & _ & (frames & Hall & Hcols) & Hrows).
  assert (Hnum : forall r c, r ∈ rows raw -> c ∈ required_metric_cols ->
                   exists x, cell_at r c = CNum x /\ is_nan x = false).
  { intros r c Hr Hc. rewrite Hrows in Hr.
    apply list_elem_of_fmap in Hr as (r0 & -> & _). by apply coerce_row_numbers. }
  assert (Hread : forall c, c ∈ read_columns -> c ∈ columns raw).
  { intros c Hc. rewrite Hcols.
    destruct Hall as [|p df paths' frames' Hp _]; [done|].
    apply (concat_frames_columns _ df); [by left|].
    apply normalize_Ok in Hp as (_ & _ & _ & Hdf). apply Hdf.
    unfold read_columns, required_metric_cols in *.
    repeat (apply elem_of_cons in Hc as [->|Hc];
            [apply elem_of_by_decide; vm_compute; reflexivity|]).
    by apply elem_of_nil in Hc. }
  split; [exact Hnum|]. split; [exact Hread|].
  destruct (compute_metrics_total raw Hread) as [metrics Hm].
  { apply Forall_forall. intros r Hr k Hk.
    destruct (Hnum r k Hr Hk) as (x & Hx & _). by exists x. }
  exists metrics. split; [done|]. by apply compute_metrics_length.
Qed.

(** The table [load_raw_snapshots] returns for files without boolean
    case entries is one [compute_metrics] accepts: its four case columns
    hold numbers, none of them NaN, and the columns [compute_metrics]
    reads are there. *)
Theorem loaded_table_feeds_metrics (paths : list Path) (raw : DataFrame) :
  Forall (fun p => numeric_cases p = true) paths ->
  load_raw_snapshots paths = Ok raw ->
  (forall r c, r ∈ rows raw -> c ∈ required_metric_cols ->
     exists x, cell_at r c = CNum x /\ is_nan x = false) /\
  (forall c, c ∈ read_columns -> c ∈ columns raw) /\
  exists metrics, compute_metrics raw = Ok metrics /\
                  length (rows metrics) = length (rows raw).
Proof. intros _. exact (load_then_compute paths raw). Qed.

(** Every row of the loaded table is a row of one of the files, tagged
    with the brand of the file and with the end of its period; no row
    is lost and none is added. *)
Theorem loaded_rows_are_tagged (paths : list Path) (raw : DataFrame) :
  load_raw_snapshots paths = Ok raw ->
  length (rows raw) = sum_list (map (fun p => length (rows (csv p))) paths) /\
  forall r, r ∈ rows raw ->
    exists p e, p ∈ paths /\
      infer_period_end (label_of p) = Some e /\
      r !! "period_end" = Some (CStr e) /\
      r !! "period_label" = Some (CStr (label_of p)) /\
      r !! "brand" = Some (CStr (nth 1 (split "__" (stem p)) EmptyString)).
Proof.
  intros Hl.
  apply load_raw_snapshots_Ok in Hl as (_ & Hz & _ & Hrows). split.
  - rewrite Hrows, length_map. clear.
    induction paths as [|p paths IH]; [done|].
    cbn [map concat sum_list]. by rewrite length_app, length_map, IH.
  - intros r Hr. rewrite Hrows in Hr.
    apply list_elem_of_fmap in Hr as (r0 & -> & Hr0).
    apply list_elem_of_In, in_concat in Hr0 as (rs & Hrs & Hr0).
    apply list_elem_of_In in Hrs, Hr0.
    apply list_elem_of_fmap in Hrs as (p & -> & Hp).
    apply list_elem_of_fmap in Hr0 as (r1 & -> & Hr1).
    destruct (contains "_to_" (label_of p)) eqn:Hc.
    + exists p, (nth 1 (split "_to_" (label_of p)) EmptyString).
      split; [done|]. split; [by apply infer_period_end_Some|].
      rewrite !coerce_row_other
        by (apply not_elem_of_by_decide; vm_compute; reflexivity).
      unfold tag_row. rewrite infer_period_end_Some by done.
      split; [by rewrite lookup_insert_eq|].
      split; [by rewrite lookup_insert_ne, lookup_insert_eq by discriminate|].
      by rewrite !lookup_insert_ne, lookup_insert_eq by discriminate.
    + assert (0 < unlabelled_rows paths)%nat; [|lia].
      apply (unlabelled_rows_pos paths p Hp Hc).
      intros Hnil. rewrite Hnil in Hr1. by apply elem_of_nil in Hr1.
Qed.

(** The loop stops at the first file that fails a check: its error is
    the error of the call, whatever follows.  The failing file is one
    whose columns keep distinct labels under the renaming, so that the
    failure is one of the three checks of the loop. *)
Theorem first_failing_file_decides (pre : list Path) (p : Path) (post : list Path)
    (frames : list DataFrame) (e : error) :
  Forall2 (fun q df => normalize q = Ok df) pre frames ->
  unique_labels p = true ->
  normalize p = Err e ->
  load_raw_snapshots (pre ++ p :: post) = Err e /\
  (exists n, e = MissingAccountId n \/ e = UnexpectedFilename n \/
             exists missing, e = MissingMetricColumns n missing).
Proof.
  intros Hpre Hu Hp. split; [|exact (normalize_checks p e Hu Hp)].
  unfold load_raw_snapshots.
  rewrite (mapM_first_Err normalize pre frames p post e Hpre Hp).
  by destruct pre.
Qed.

End LoaderMore.

(** ** The errors of [main] *)

Lemma normalize_errors p e :
  unique_labels p = true -> normalize p = Err e -> is_load_error e = true.
Proof.
  intros Hu He.
  destruct (normalize_checks p e Hu He) as (n & [->|[->|(ms & ->)]]); reflexivity.
Qed.

Lemma candidates_subset raw_dir pat p :
  p ∈ sorted (glob raw_dir pat) -> p ∈ raw_dir.
Proof.
  rewrite sorted_perm. unfold glob. intros Hp.
  apply list_elem_of_In, filter_In in Hp as [Hp _]. by apply list_elem_of_In.
Qed.

Lemma select_raw_files_subset mode candidates p :
  p ∈ select_raw_files mode candidates -> p ∈ candidates.
Proof.
  destruct mode; cbn [select_raw_files]; [|done].
  pose proof (latest_fold_inv candidates [] [] latest_inv_nil) as Hinv.
  cbn [app] in Hinv. set (d := fold_left latest_step candidates []) in *.
  intros Hp. rewrite sorted_perm in Hp.
  apply list_elem_of_fmap in Hp as ([k v] & -> & Hkv).
  pose proof (latest_inv_values _ _ _ _ Hinv Hkv) as Hg.
  by destruct (inv_entry _ _ Hinv k v Hg) as (Hin' & _).
Qed.

Section MainErrors.
Context `{Runtime}.

Lemma load_raw_snapshots_errors paths e :
  Forall (fun p => unique_labels p = true) paths ->
  load_raw_snapshots paths = Err e -> is_load_error e = true.
Proof.
  intros Hu. unfold load_raw_snapshots.
  destruct paths as [|p paths]; [by intros [= <-]|].
  destruct (mapM normalize (p :: paths)) as [frames|e0] eqn:Hm;
    cbn [mbind result_bind].
  - destruct (0 <? _)%nat; [by intros [= <-]|done].
  - intros [= ->]. apply mapM_Err_inv in Hm as (x & Hin & Hx).
    apply (normalize_errors x); [|exact Hx].
    by apply (proj1 (Forall_forall _ _) Hu).
Qed.

Lemma main_Err (period_end : string) (raw_dir : list Path) (mode : Mode)
    (now : cell) (e : error) :
  Forall (fun p => unique_labels p = true) raw_dir ->
  main period_end raw_dir mode now = Err e ->
  (e = NoSnapshotsFound period_end /\
   sorted (glob raw_dir (snapshot_pattern period_end)) = []) \/
  (is_load_error e = true /\
   load_raw_snapshots
     (select_raw_files mode (sorted (glob raw_dir (snapshot_pattern period_end))))
   = Err e).
Proof.
  intros Hu. unfold main.
  assert (Hsel : Forall (fun p => unique_labels p = true)
            (select_raw_files mode
               (sorted (glob raw_dir (snapshot_pattern period_end))))).
  { apply Forall_forall. intros p Hp.
    apply select_raw_files_subset, candidates_subset in Hp.
    by apply (proj1 (Forall_forall _ _) Hu). }
  set (candidates := sorted (glob raw_dir (snapshot_pattern period_end))) in *.
  set (raw_files := select_raw_files mode candidates) in *.
  destruct candidates as [|c0 cs] eqn:Hc; [intros [= <-]; by left|].
  destruct (load_raw_snapshots raw_files) as [raw|e0] eqn:Hl;
    cbn [mbind result_bind].
  - destruct (load_then_compute raw_files raw Hl) as (_ & Hread & m0 & Hm0 & _).
    rewrite Hm0. cbn [mbind result_bind].
    pose proof Hm0 as Hm0'. apply compute_metrics_Ok in Hm0' as (_ & _ & Hcols).
    set (metrics := if bool_decide ("run_timestamp" ∈ columns m0) then m0
                    else set_column "run_timestamp" now m0).
    assert (Hkeep : forall c, c ∈ columns m0 -> c ∈ columns metrics).
    { intros c Hc'. unfold metrics. case_bool_decide; [done|].
      cbn [set_column columns]. by apply add_label_keep. }
    assert (Hfilter : List.filter (fun c => negb (bool_decide (c ∈ columns metrics)))
                        required_out_cols = []).
    { unfold required_out_cols. cbn [List.filter].
      rewrite !bool_decide_eq_true_2; [done|apply Hkeep; rewrite Hcols..].
      - apply add_label_fold_here, elem_of_by_decide; vm_compute; reflexivity.
      - apply add_label_fold_keep, Hread, elem_of_by_decide; vm_compute; reflexivity.
      - apply add_label_fold_keep, Hread, elem_of_by_decide; vm_compute; reflexivity.
      - apply add_label_fold_here, elem_of_by_decide; vm_compute; reflexivity. }
    by rewrite Hfilter.
  - intros [= ->]. right.
    split; [by apply (load_raw_snapshots_errors raw_files)|done].
Qed.

End MainErrors.

(** ** The outcomes of [main] *)

Lemma and4_intro (P Q R S : Prop) : P /\ Q /\ R -> S -> P /\ Q /\ R /\ S.
Proof. intros (HP & HQ & HR) HS. by repeat split. Qed.

Lemma sorted_nil l : sorted l = [] <-> l = [].
Proof.
  split; [|by intros ->]. intros Hs.
  apply Permutation_nil_r. rewrite <- Hs. symmetry. apply sorted_perm.
Qed.

Lemma glob_nil raw_dir pat :
  glob raw_dir pat = [] <-> forall p, p ∈ raw_dir -> fnmatch pat (name p) = false.
Proof.
  unfold glob. induction raw_dir as [|q l IH]; cbn [List.filter].
  - split; [|done]. intros _ p Hp. by apply elem_of_nil in Hp.
  - destruct (fnmatch pat (name q)) eqn:Hq.
    + split; [done|]. intros Hall. specialize (Hall q ltac:(by left)). congruence.
    + rewrite IH. split.
      * intros Hall p Hp. apply elem_of_cons in Hp as [->|Hp]; [done|by apply Hall].
      * intros Hall p Hp. apply Hall. by right.
Qed.

Section MainFacts.
Context `{Runtime}.

(** The outcomes of [main], for a period end that stands for itself
    in the pattern and a directory of files whose columns keep distinct
    labels under the renaming and whose case entries are no booleans.
    It raises the missing-input error exactly when no file of the
    directory matches the pattern of the period; otherwise it raises
    what [load_raw_snapshots] raises on the selected files, one of its
    five errors, and when that call returns, [compute_metrics] and the
    check of the output columns always pass: the table handed to
    [write_outputs] has one row per row of the loaded table and carries
    [run_timestamp] and the four required output columns. *)
Theorem main_outcomes (period_end : string) (raw_dir : list Path) (mode : Mode)
    (now : cell) :
  glob_plain period_end = true ->
  Forall (fun p => unique_labels p = true /\ numeric_cases p = true) raw_dir ->
  let candidates := sorted (glob raw_dir (snapshot_pattern period_end)) in
  let raw_files := select_raw_files mode candidates in
  ((forall p, p ∈ raw_dir -> fnmatch (snapshot_pattern period_end) (name p) = false)
   <-> candidates = []) /\
  (candidates = [] ->
     main period_end raw_dir mode now = Err (NoSnapshotsFound period_end)) /\
  (candidates <> [] -> forall e,
     load_raw_snapshots raw_files = Err e ->
     main period_end raw_dir mode now = Err e) /\
  (candidates <> [] -> forall raw,
     load_raw_snapshots raw_files = Ok raw ->
     exists metrics,
       main period_end raw_dir mode now = Ok metrics /\
       length (rows metrics) = length (rows raw) /\
       forall c, c ∈ "run_timestamp" :: required_out_cols -> c ∈ columns metrics) /\
  (forall e, main period_end raw_dir mode now = Err e ->
     (e = NoSnapshotsFound period_end /\ candidates = []) \/
     (is_load_error e = true /\ load_raw_snapshots raw_files = Err e)).
Proof.
  intros _ Hscope candidates raw_files.
  split; [by rewrite <- glob_nil, <- sorted_nil|].
  apply and4_intro.
  2:{ intros e. apply main_Err. eapply Forall_impl; [exact Hscope|].
      by intros p [Hu _]. }
  unfold main. fold candidates. fold raw_files.
  split; [by intros ->|].
  split.
  { intros Hne e He. destruct candidates; [done|]. by rewrite He. }
  intros Hne raw Hraw. destruct candidates as [|c0 cs] eqn:Hcand; [done|].
  rewrite Hraw. cbn [mbind result_bind].
  destruct (load_then_compute raw_files raw Hraw)
    as (_ & Hread & m0 & Hm0 & Hlen).
  rewrite Hm0. cbn [mbind result_bind].
  pose proof Hm0 as Hm0'. apply compute_metrics_Ok in Hm0' as (_ & _ & Hcols).
  set (metrics := if bool_decide ("run_timestamp" ∈ columns m0) then m0
                  else set_column "run_timestamp" now m0).
  assert (Hkeep : forall c, c ∈ columns m0 -> c ∈ columns metrics).
  { intros c Hc. unfold metrics. case_bool_decide; [done|].
    cbn [set_column columns]. by apply add_label_keep. }
  assert (Hreq : forall c, c ∈ required_out_cols -> c ∈ columns metrics).
  { intros c Hc. apply Hkeep. rewrite Hcols. unfold required_out_cols in Hc.
    apply elem_of_cons in Hc as [->|Hc];
      [apply add_label_fold_here, elem_of_by_decide; vm_compute; reflexivity|].
    apply elem_of_cons in Hc as [->|Hc];
      [apply add_label_fold_keep, Hread, elem_of_by_decide; vm_compute; reflexivity|].
    apply elem_of_cons in Hc as [->|Hc];
      [apply add_label_fold_keep, Hread, elem_of_by_decide; vm_compute; reflexivity|].
    apply elem_of_cons in Hc as [->|Hc];
      [apply add_label_fold_here, elem_of_by_decide; vm_compute; reflexivity|].
    by apply elem_of_nil in Hc. }
  assert (Hfilter : List.filter (fun c => negb (bool_decide (c ∈ columns metrics)))
                      required_out_cols = []).
  { unfold required_out_cols in *. cbn [List.filter].
    rewrite !bool_decide_eq_true_2; [done|apply Hreq..];
      apply elem_of_by_decide; vm_compute; reflexivity. }
  rewrite Hfilter. exists metrics. split; [done|]. split.
  - unfold metrics. case_bool_decide; [done|].
    cbn [set_column rows]. by rewrite length_map.
  - intros c Hc. apply elem_of_cons in Hc as [->|Hc]; [|by apply Hreq].
    unfold metrics. case_bool_decide; [done|].
    cbn [set_column columns]. apply add_label_here.
Qed.

End MainFacts.

(** ** The names of the snapshot files *)

Lemma slug_char_not_underscore c :
  Pull.is_slug_char c = true -> Ascii.eqb c "_" = false.
Proof. by destruct c as [[] [] [] [] [] [] [] []]. Qed.

Lemma slug_alphabet_not_space c : slug_alphabet c = true -> Pull.is_space c = false.
Proof. by destruct c as [[] [] [] [] [] [] [] []]. Qed.

Lemma slug_alphabet_lower c : slug_alphabet c = true -> lower_ascii c = c.
Proof. by destruct c as [[] [] [] [] [] [] [] []]. Qed.

Lemma all_chars_lstrip g f s :
  all_chars g s = true -> all_chars g (Pull.lstrip f s) = true.
Proof.
  induction s as [|c s IH]; [done|]. cbn [Pull.lstrip]. intros Hs.
  destruct (f c); [|done]. cbn [all_chars] in Hs.
  apply andb_true_iff in Hs as [_ Hs]. by apply IH.
Qed.

Lemma all_chars_rstrip g f s :
  all_chars g s = true -> all_chars g (Pull.rstrip f s) = true.
Proof.
  induction s as [|c s IH]; [done|]. cbn [Pull.rstrip all_chars]. intros Hs.
  apply andb_true_iff in Hs as [Hc Hs]. specialize (IH Hs).
  destruct (Pull.rstrip f s) as [|c' t].
  - destruct (f c); [done|]. cbn [all_chars]. by rewrite Hc.
  - cbn [all_chars] in *. by rewrite Hc, IH.
Qed.

Lemma all_chars_collapse b s : all_chars slug_alphabet (Pull.collapse b s) = true.
Proof.
  revert b. induction s as [|c s IH]; intros b; [done|]. cbn [Pull.collapse].
  destruct (Pull.is_slug_char c) eqn:Hc.
  - cbn [all_chars]. rewrite IH. unfold slug_alphabet. by rewrite Hc.
  - destruct b; [apply IH|]. cbn [all_chars]. by rewrite IH.
Qed.

Lemma no_double_collapse b s :
  no_double (Pull.collapse b s) = true /\
  (b = true -> head_is (Ascii.eqb "_") (Pull.collapse b s) = false).
Proof.
  revert b. induction s as [|c s IH]; intros b; [done|]. cbn [Pull.collapse].
  destruct (Pull.is_slug_char c) eqn:Hc.
  - destruct (IH false) as [Hnd _]. split.
    + cbn [no_double]. rewrite Hnd. by rewrite (slug_char_not_underscore c Hc).
    + intros _. cbn [head_is]. rewrite Ascii.eqb_sym. by apply slug_char_not_underscore.
  - destruct (IH true) as [Hnd Hhd]. destruct b; [done|]. split; [|done].
    cbn [no_double]. rewrite Hnd, andb_true_r. specialize (Hhd eq_refl).
    rewrite Ascii.eqb_refl. destruct (Pull.collapse true s) as [|c' t]; [done|].
    cbn [head_is] in Hhd. by rewrite Ascii.eqb_sym, Hhd.
Qed.

Lemma no_double_lstrip f s :
  no_double s = true -> no_double (Pull.lstrip f s) = true.
Proof.
  induction s as [|c s IH]; [done|]. cbn [Pull.lstrip]. intros Hs.
  destruct (f c); [|done]. cbn [no_double] in Hs.
  apply andb_true_iff in Hs as [_ Hs]. by apply IH.
Qed.

Lemma head_lstrip f s : head_is f (Pull.lstrip f s) = false.
Proof.
  induction s as [|c s IH]; [done|]. cbn [Pull.lstrip].
  destruct (f c) eqn:Hc; [done|]. cbn [head_is]. exact Hc.
Qed.

Lemma rstrip_cons f s a r :
  Pull.rstrip f s = String a r -> exists r', s = String a r'.
Proof.
  destruct s as [|c s]; [done|]. cbn [Pull.rstrip].
  destruct (Pull.rstrip f s); [destruct (f c)|]; intros Heq; [done|..];
    injection Heq as -> _; by eexists.
Qed.

Lemma head_rstrip f g s :
  head_is g s = false -> head_is g (Pull.rstrip f s) = false.
Proof.
  intros Hs. destruct (Pull.rstrip f s) as [|a r] eqn:Hr; [done|].
  apply rstrip_cons in Hr as [r' ->]. exact Hs.
Qed.

Lemma tame_rstrip s :
  no_double s = true -> tame (Pull.rstrip (Ascii.eqb "_") s) = true.
Proof.
  induction s as [|c s IH]; [done|]. cbn [no_double Pull.rstrip]. intros Hs.
  apply andb_true_iff in Hs as [Hc Hs]. specialize (IH Hs).
  destruct (Pull.rstrip (Ascii.eqb "_") s) as [|a r] eqn:Hr.
  - destruct (Ascii.eqb "_" c) eqn:E; [done|]. cbn [tame].
    by rewrite Ascii.eqb_sym, E.
  - cbn [tame] in *. rewrite IH, andb_true_r.
    destruct (Ascii.eqb c "_"); [|done].
    apply rstrip_cons in Hr as [r' ->]. exact Hc.
Qed.

Lemma lstrip_id f s : head_is f s = false -> Pull.lstrip f s = s.
Proof. destruct s as [|c s]; [done|]. cbn [head_is Pull.lstrip]. by intros ->. Qed.

Lemma rstrip_id_all f s :
  all_chars (fun c => negb (f c)) s = true -> Pull.rstrip f s = s.
Proof.
  induction s as [|c s IH]; [done|]. cbn [all_chars Pull.rstrip]. intros Hs.
  apply andb_true_iff in Hs as [Hc Hs]. rewrite IH by done.
  apply negb_true_iff in Hc. rewrite Hc. by destruct s.
Qed.

Lemma rstrip_id_tame s : tame s = true -> Pull.rstrip (Ascii.eqb "_") s = s.
Proof.
  induction s as [|c s IH]; [done|]. cbn [tame Pull.rstrip]. intros Hs.
  apply andb_true_iff in Hs as [Hc Hs]. rewrite IH by done.
  destruct s as [|c' s']; [|done].
  rewrite Ascii.eqb_sym. by destruct (Ascii.eqb c "_").
Qed.

Lemma all_chars_impl (g h : ascii -> bool) s :
  (forall c, g c = true -> h c = true) ->
  all_chars g s = true -> all_chars h s = true.
Proof.
  intros Hgh. induction s as [|c s IH]; [done|]. cbn [all_chars]. intros Hs.
  apply andb_true_iff in Hs as [Hc Hs]. by rewrite (Hgh c Hc), IH.
Qed.

Lemma all_chars_head g h s :
  (forall c, g c = true -> h c = false) ->
  all_chars g s = true -> head_is h s = false.
Proof.
  intros Hgh. destruct s as [|c s]; [done|]. cbn [all_chars head_is]. intros Hs.
  apply andb_true_iff in Hs as [Hc _]. by apply Hgh.
Qed.

Lemma lower_id s : all_chars slug_alphabet s = true -> lower s = s.
Proof.
  induction s as [|c s IH]; [done|]. cbn [all_chars lower]. intros Hs.
  apply andb_true_iff in Hs as [Hc Hs]. by rewrite IH, slug_alphabet_lower.
Qed.

Lemma tame_no_double s : tame s = true -> no_double s = true.
Proof.
  induction s as [|c s IH]; [done|]. cbn [tame no_double]. intros Hs.
  apply andb_true_iff in Hs as [Hc Hs]. rewrite IH by done.
  rewrite andb_true_r. destruct (Ascii.eqb c "_"); [|done]. by destruct s.
Qed.

Lemma collapse_id b s :
  all_chars slug_alphabet s = true -> no_double s = true ->
  (b = true -> head_is (Ascii.eqb "_") s = false) ->
  Pull.collapse b s = s.
Proof.
  revert b. induction s as [|c s IH]; intros b Ha Hnd Hb; [done|].
  cbn [all_chars no_double Pull.collapse] in *.
  apply andb_true_iff in Ha as [Hc Ha]. apply andb_true_iff in Hnd as [Hd Hnd].
  destruct (Pull.is_slug_char c) eqn:Hs.
  - f_equal. apply IH; [done..|]. done.
  - unfold slug_alphabet in Hc. rewrite Hs in Hc. cbn in Hc.
    rewrite Hc in Hd. apply Ascii.eqb_eq in Hc as ->.
    destruct b.
    + specialize (Hb eq_refl). cbn [head_is] in Hb. done.
    + f_equal. apply IH; [done..|]. intros _.
      destruct s as [|c' s']; [done|]. cbn [head_is].
      rewrite Ascii.eqb_sym. by apply negb_true_iff.
Qed.

Lemma safe_slug_tame (s : string) : tame (Pull._safe_slug s) = true.
Proof.
  unfold Pull._safe_slug, Pull.strip.
  apply tame_rstrip, no_double_lstrip, no_double_collapse.
Qed.

(** The shape of a slug: it is written in [a-z0-9_], it neither starts
    nor ends with ["_"] and holds no ["__"]; and [_safe_slug] leaves a
    slug as it is. *)
Theorem safe_slug_shape (s : string) :
  all_chars slug_alphabet (Pull._safe_slug s) = true /\
  head_is (Ascii.eqb "_") (Pull._safe_slug s) = false /\
  tame (Pull._safe_slug s) = true /\
  contains "__" (Pull._safe_slug s) = false /\
  Pull._safe_slug (Pull._safe_slug s) = Pull._safe_slug s.
Proof.
  set (t := Pull._safe_slug s).
  assert (Ha : all_chars slug_alphabet t = true).
  { unfold t, Pull._safe_slug, Pull.strip.
    apply all_chars_rstrip, all_chars_lstrip, all_chars_collapse. }
  assert (Hh : head_is (Ascii.eqb "_") t = false).
  { unfold t, Pull._safe_slug, Pull.strip. apply head_rstrip, head_lstrip. }
  assert (Ht : tame t = true) by apply safe_slug_tame.
  split; [exact Ha|]. split; [exact Hh|]. split; [exact Ht|]. split.
  - clear -Ht. induction t as [|c t IH]; [done|].
    cbn [tame] in Ht. apply andb_true_iff in Ht as [Hc Ht].
    cbn [contains]. rewrite IH by done. rewrite orb_false_r.
    destruct (Ascii.eqb c "_") eqn:E.
    + apply Ascii.eqb_eq in E as ->. destruct t as [|c' t]; [done|].
      cbn [String.prefix]. destruct (ascii_dec "_" "_"); [|done].
      apply prefix_cons_ne. intros <-. by rewrite Ascii.eqb_refl in Hc.
    + apply prefix_cons_ne. intros <-. by rewrite Ascii.eqb_refl in E.
  - unfold Pull._safe_slug at 1. fold t. unfold Pull.strip.
    assert (Hsp : Pull.rstrip Pull.is_space (Pull.lstrip Pull.is_space t) = t).
    { rewrite lstrip_id.
      - apply rstrip_id_all. revert Ha. apply all_chars_impl.
        intros c Hc. by rewrite slug_alphabet_not_space.
      - revert Ha. apply all_chars_head. apply slug_alphabet_not_space. }
    rewrite Hsp, lower_id by done.
    rewrite collapse_id; [|done|by apply tame_no_double|done].
    rewrite lstrip_id by done. by apply rstrip_id_tame.
Qed.

Lemma fnmatch_lit l pat s : fnmatch (glob_lit l ++ pat) (l +:+ s) = fnmatch pat s.
Proof.
  induction l as [|c l IH]; [by rewrite append_nil_l|].
  rewrite append_cons_l. cbn [glob_lit app fnmatch].
  by rewrite Ascii.eqb_refl, IH.
Qed.

Lemma fnmatch_star pat pre s :
  fnmatch pat s = true -> fnmatch (GStar :: pat) (pre +:+ s) = true.
Proof.
  intros Hs. induction pre as [|c pre IH].
  - rewrite append_nil_l. destruct s; cbn [fnmatch]; by rewrite Hs.
  - rewrite append_cons_l. cbn [fnmatch] in IH |- *. rewrite IH. apply orb_true_r.
Qed.

Lemma tame_period_label s e : tame (period_label s e) = true.
Proof.
  unfold period_label. apply tame_append.
  - apply underscore_free_tame, underscore_free_isoformat.
  - rewrite !append_cons_l, append_nil_l.
    pose proof (underscore_free_tame _ (underscore_free_isoformat e)) as He.
    unfold isoformat in *. destruct (ord2ymd e) as [[y m] dd].
    unfold fmt04, fmt02 in *. rewrite !append_cons_l, !append_nil_l in *.
    cbn [tame] in *. by rewrite !digit_not_underscore in *.
Qed.

Lemma tame_run_stamp now rest :
  tame rest = true -> tame ("run_" +:+ Pull.strftime_stamp now +:+ rest) = true.
Proof.
  intros Hr. unfold Pull.strftime_stamp. destruct (ord2ymd (dt_date now)) as [[y m] dd].
  unfold fmt04, fmt02.
  repeat (rewrite ?append_cons_l, ?append_nil_l; cbn [tame]).
  rewrite !digit_not_underscore, Hr. reflexivity.
Qed.

Lemma locked_window_label clock w :
  Pull._period_from_locked_logic clock = Some w ->
  exists s e, Pull.period_label w = period_label s e /\
              Pull.end_date w = isoformat e /\
              Pull.start_date w = isoformat s.
Proof.
  unfold Pull._period_from_locked_logic.
  destruct (get_current_period clock) as [[s e]|]; cbn; [|done].
  intros [= <-]. by exists s, e.
Qed.

Lemma split_snapshot_name slug lbl last :
  tame slug = true -> tame lbl = true -> tame last = true ->
  split "__" ("establishmentdata__" +:+ slug +:+ "__" +:+ lbl +:+ "__" +:+ last)
  = ["establishmentdata"; slug; lbl; last].
Proof.
  intros Hs Hl Hr. unfold split.
  change "establishmentdata__" with ("establishmentdata" +:+ "__").
  rewrite append_assoc.
  rewrite split_go_skip by (by apply tame_starts_none).
  rewrite split_go_match, append_nil_l. f_equal.
  rewrite split_go_skip by (by apply tame_starts_none).
  rewrite split_go_match, append_nil_l. f_equal.
  rewrite split_go_skip by (by apply tame_starts_none).
  rewrite split_go_match, append_nil_l. f_equal.
  rewrite split_go_last by (by apply tame_starts_none).
  by rewrite append_nil_l.
Qed.

(** The file a pull is saved under is one the transformer reads: its stem
    splits into the four parts the loader expects, with the slug of the
    brand and the label of the period in the places it reads them from,
    the label gives back the end of the period, and [main], run for that
    end date, finds the file and files it under the slug. *)
Theorem written_snapshot_is_read (brand : string) (clock now : datetime)
    (w : Pull.PeriodWindow) (mtime : float) (content : DataFrame) :
  Pull._period_from_locked_logic clock = Some w ->
  let p := {| stem := Pull.snapshot_stem brand w now; suffix := ".csv";
              st_mtime := mtime; csv := content |} in
  name p = Pull.snapshot_filename brand w now /\
  split "__" (stem p)
  = ["establishmentdata"; Pull._safe_slug brand; Pull.period_label w;
     "run_" +:+ Pull.strftime_stamp now] /\
  label_of p = Pull.period_label w /\
  infer_period_end (label_of p) = Some (Pull.end_date w) /\
  brand_of p = Some (Pull._safe_slug brand) /\
  fnmatch (snapshot_pattern (Pull.end_date w)) (name p) = true /\
  forall raw_dir, p ∈ raw_dir ->
    p ∈ sorted (glob raw_dir (snapshot_pattern (Pull.end_date w))).
Proof.
  intros Hw p. apply locked_window_label in Hw as (s & e & Hlbl & Hend & _).
  pose proof (safe_slug_tame brand) as Hslug.
  pose proof (tame_period_label s e) as Hl.
  assert (Hstem : stem p
    = "establishmentdata__" +:+ Pull._safe_slug brand +:+ "__"
      +:+ period_label s e +:+ "__" +:+ ("run_" +:+ Pull.strftime_stamp now)).
  { cbn [p stem]. unfold Pull.snapshot_stem. by rewrite Hlbl. }
  assert (Hname : name p
    = "establishmentdata__" +:+ Pull._safe_slug brand +:+ "__"
      +:+ period_label s e +:+ "__"
      +:+ ("run_" +:+ Pull.strftime_stamp now +:+ ".csv")).
  { unfold name. rewrite Hstem. cbn [p suffix]. by rewrite !append_assoc. }
  assert (Hsplit : split "__" (stem p)
    = ["establishmentdata"; Pull._safe_slug brand; Pull.period_label w;
       "run_" +:+ Pull.strftime_stamp now]).
  { rewrite Hstem, Hlbl. apply split_snapshot_name; [done..|].
    rewrite <- (append_nil_r (Pull.strftime_stamp now)).
    by apply tame_run_stamp. }
  assert (Hlabel : label_of p = Pull.period_label w).
  { unfold label_of. by rewrite Hsplit. }
  assert (Hmatch : fnmatch (snapshot_pattern (Pull.end_date w)) (name p) = true).
  { assert (Hflat : name p
      = "establishmentdata__" +:+ Pull._safe_slug brand +:+ "__" +:+ isoformat s
        +:+ ("_to_" +:+ isoformat e +:+ "__run_")
        +:+ Pull.strftime_stamp now +:+ ".csv").
    { rewrite Hname. unfold period_label. by rewrite !append_assoc. }
    rewrite Hflat, Hend. unfold snapshot_pattern.
    rewrite fnmatch_lit. cbn [app]. apply (fnmatch_star _ (Pull._safe_slug brand)).
    rewrite fnmatch_lit. apply (fnmatch_star _ (isoformat s)).
    rewrite fnmatch_lit. apply (fnmatch_star _ (Pull.strftime_stamp now)).
    reflexivity. }
  split; [reflexivity|]. split; [exact Hsplit|]. split; [exact Hlabel|].
  split; [by rewrite Hlabel, Hlbl, Hend; apply period_label_end|].
  split.
  { unfold brand_of. rewrite Hname, split_snapshot_name; [done|done|done|].
    by apply tame_run_stamp. }
  split; [exact Hmatch|].
  intros raw_dir Hp. rewrite sorted_perm. unfold glob.
  apply list_elem_of_In, filter_In. split; [by apply list_elem_of_In|exact Hmatch].
Qed.

(** ** Instances of the further properties *)

Lemma compare_period_is_last_period_witness :
  let p := {| start := ymd2ord 2024 3 3; end_ := ymd2ord 2024 3 16;
              label := "2024-03-03_to_2024-03-16" |} in
  produced p /\
  Pull._set_sales_and_compare_periods (start p) (end_ p)
  = Some [("sales_period_start", "2024-03-03");
          ("sales_period_end", "2024-03-16");
          ("compare_period_start", "2024-02-18");
          ("compare_period_end", "2024-03-02")]%string.
Proof.
  intros p.
  assert (Hp : produced p).
  { apply (produced_current
             {| dt_date := ymd2ord 2024 3 16; dt_micros := 0; tzinfo := None |}
             None).
    - vm_compute; split; discriminate.
    - reflexivity. }
  split; [exact Hp|].
  exact (proj1 (compare_period_is_last_period p Hp)
           {| start := ymd2ord 2024 2 18; end_ := ymd2ord 2024 3 2;
              label := "2024-02-18_to_2024-03-02" |} eq_refl).
Defined.

Lemma current_period_position_witness :
  let clock := {| dt_date := ymd2ord 2024 3 20; dt_micros := 0; tzinfo := None |} in
  let p := {| start := ymd2ord 2024 3 3; end_ := ymd2ord 2024 3 16;
              label := "2024-03-03_to_2024-03-16" |} in
  current_biweekly_period clock None = Some p /\
  end_ p <= dt_date clock < end_ p + 7 /\ start p < dt_date clock /\
  (dt_date clock <= end_ p <-> weekday (dt_date clock) = 5).
Proof.
  intros clock p. split; [reflexivity|].
  exact (current_period_position clock None p eq_refl).
Defined.

Lemma compute_metrics_idempotent_witness :
  exists out,
    @compute_metrics plain_runtime scenario_B_frame = Ok out /\
    @compute_metrics plain_runtime out = Ok out.
Proof.
  destruct (@compute_metrics plain_runtime scenario_B_frame) as [out|e] eqn:E.
  - exists out. split; [reflexivity|].
    exact (@compute_metrics_idempotent plain_runtime scenario_B_frame out E).
  - exfalso. vm_compute in E. discriminate E.
Defined.

Lemma shares_are_numbers_witness :
  exists out r' share share_lp,
    @compute_metrics plain_runtime zero_lp_frame = Ok out /\
    rows out !! 0%nat = Some r' /\
    r' !! "share_of_category" = Some (CNum share) /\
    r' !! "share_of_category_lp" = Some (CNum share_lp) /\
    is_nan share = false /\ is_nan share_lp = false.
Proof.
  destruct (@compute_metrics plain_runtime zero_lp_frame) as [out|e] eqn:E.
  2:{ exfalso. vm_compute in E. discriminate E. }
  destruct (@compute_metrics_row_fwd plain_runtime zero_lp_frame out 0%nat _ E eq_refl)
    as (r' & Hr' & _).
  destruct (@shares_are_numbers plain_runtime zero_lp_frame out 0%nat r' E Hr')
    as (share & share_lp & H1 & H2 & H3 & H4).
  exists out, r', share, share_lp.
  split; [reflexivity|]. split; [exact Hr'|]. split; [exact H1|].
  split; [exact H2|]. split; [exact H3|exact H4].
Defined.

Lemma zero_last_period_category_witness :
  exists out r',
    @compute_metrics plain_runtime zero_lp_frame = Ok out /\
    rows out !! 0%nat = Some r' /\
    r' !! "share_of_category_lp" = Some (CNum 0) /\
    exists expected td,
      r' !! "expected_cases_if_maintained_share" = Some (CNum expected) /\
      r' !! "true_difference_cases" = Some (CNum td) /\
      (expected =? 0)%float = true /\ (td =? 5)%float = true.
Proof.
  destruct (@compute_metrics plain_runtime zero_lp_frame) as [out|e] eqn:E.
  2:{ exfalso. vm_compute in E. discriminate E. }
  destruct (@compute_metrics_row plain_runtime zero_lp_frame out 0%nat)
    with (r' := default ∅ (rows out !! 0%nat)) as (r & b & c & blp & clp & Hr & Hb & Hc & Hblp & Hclp & Hrow).
  1: exact E.
  1:{ destruct (@compute_metrics_row_fwd plain_runtime zero_lp_frame out 0%nat _ E eq_refl)
        as (r' & Hr' & _). by rewrite Hr'. }
  injection Hr as <-.
  assert (b = 5%float) as -> by (vm_compute in Hb; congruence).
  assert (c = 10%float) as -> by (vm_compute in Hc; congruence).
  assert (clp = 0%float) as -> by (vm_compute in Hclp; congruence).
  set (r' := default ∅ (rows out !! 0%nat)) in *.
  assert (Hr' : rows out !! 0%nat = Some r').
  { destruct (@compute_metrics_row_fwd plain_runtime zero_lp_frame out 0%nat _ E eq_refl)
      as (r0 & Hr0 & _). unfold r'. by rewrite Hr0. }
  assert (Hcell : forall k x, k ∉ derived_columns ->
            fact_row "1001" "acme" "2024-03-16" 5 10 3 0 !! k = Some (CNum x) ->
            cell_at r' k = CNum x).
  { intros k x Hk Hx. rewrite Hrow. unfold cell_at.
    by rewrite metrics_row_frame, Hx by done. }
  destruct (@zero_last_period_category plain_runtime zero_lp_frame out 0%nat r' 5 10 0 E Hr')
    as (H1 & H2).
  - apply Hcell; [apply not_in_derived; vm_compute; reflexivity|reflexivity].
  - apply Hcell; [apply not_in_derived; vm_compute; reflexivity|reflexivity].
  - apply Hcell; [apply not_in_derived; vm_compute; reflexivity|reflexivity].
  - reflexivity.
  - destruct (H2 eq_refl) as (expected & td & H3 & H4 & H5 & H6).
    exists out, r'. split; [reflexivity|]. split; [exact Hr'|]. split; [exact H1|].
    exists expected, td. split; [exact H3|]. split; [exact H4|]. split; [exact H5|].
    exact (H6 eq_refl).
Defined.

Lemma loaded_table_feeds_metrics_witness :
  exists raw metrics,
    @load_raw_snapshots plain_runtime [new_acme; zeta] = Ok raw /\
    @compute_metrics plain_runtime raw = Ok metrics /\
    length (rows metrics) = length (rows raw).
Proof.
  destruct (@load_raw_snapshots plain_runtime [new_acme; zeta]) as [raw|e] eqn:E.
  2:{ exfalso. vm_compute in E. discriminate E. }
  assert (Hnum : Forall (fun p => numeric_cases p = true) [new_acme; zeta]).
  { constructor; [vm_compute; reflexivity|].
    constructor; [vm_compute; reflexivity|constructor]. }
  destruct (@loaded_table_feeds_metrics plain_runtime [new_acme; zeta] raw Hnum E)
    as (_ & _ & metrics & Hm & Hlen).
  exists raw, metrics. split; [reflexivity|]. split; [exact Hm|exact Hlen].
Defined.

Lemma loaded_rows_are_tagged_witness :
  exists raw,
    @load_raw_snapshots plain_runtime [new_acme; zeta] = Ok raw /\
    length (rows raw) = 2%nat.
Proof.
  destruct (@load_raw_snapshots plain_runtime [new_acme; zeta]) as [raw|e] eqn:E.
  2:{ exfalso. vm_compute in E. discriminate E. }
  exists raw. split; [reflexivity|].
  exact (proj1 (@loaded_rows_are_tagged plain_runtime [new_acme; zeta] raw E)).
Defined.

Lemma first_failing_file_decides_witness :
  let notes := snapshot "notes" 0 [] in
  normalize notes = Err (UnexpectedFilename "notes.csv") /\
  @load_raw_snapshots plain_runtime [new_acme; notes; unlabelled]
  = Err (UnexpectedFilename "notes.csv").
Proof.
  intros notes.
  assert (Hn : normalize notes = Err (UnexpectedFilename "notes.csv"))
    by (vm_compute; reflexivity).
  split; [exact Hn|].
  destruct (normalize new_acme) as [df|e] eqn:E.
  2:{ exfalso. vm_compute in E. discriminate E. }
  apply (@first_failing_file_decides plain_runtime [new_acme] notes [unlabelled] [df]).
  - constructor; [exact E|constructor].
  - vm_compute. reflexivity.
  - exact Hn.
Defined.

Lemma written_snapshot_is_read_witness :
  let clock := {| dt_date := ymd2ord 2024 3 20; dt_micros := 0; tzinfo := None |} in
  let now := {| dt_date := ymd2ord 2024 3 21; dt_micros := 29400000000;
                tzinfo := None |} in
  let w := {| Pull.start_date := "2024-03-03"; Pull.end_date := "2024-03-16";
              Pull.period_label := "2024-03-03_to_2024-03-16" |} in
  let p := snapshot (Pull.snapshot_stem "Tito's  Vodka!" w now) 0 [] in
  Pull._period_from_locked_logic clock = Some w /\
  name p = "establishmentdata__tito_s_vodka__2024-03-03_to_2024-03-16__run_20240321_081000.csv" /\
  brand_of p = Some "tito_s_vodka" /\
  fnmatch (snapshot_pattern "2024-03-16") (name p) = true.
Proof.
  intros clock now w p.
  assert (Hw : Pull._period_from_locked_logic clock = Some w) by reflexivity.
  split; [exact Hw|]. split; [vm_compute; reflexivity|].
  destruct (written_snapshot_is_read "Tito's  Vodka!" clock now w 0
              {| columns := export_columns; rows := [] |} Hw)
    as (_ & _ & _ & _ & Hb & Hm & _).
  split; [exact Hb|exact Hm].
Defined.

(** ** Further instances *)

Lemma main_outcomes_witness :
  exists raw metrics,
    @load_raw_snapshots plain_runtime
      (select_raw_files LatestPerBrand
         (sorted (glob [old_acme; new_acme; zeta] (snapshot_pattern "2024-03-16"))))
    = Ok raw /\
    @main plain_runtime "2024-03-16" [old_acme; new_acme; zeta] LatestPerBrand
      (CStr "now") = Ok metrics /\
    length (rows metrics) = length (rows raw).
Proof.
  assert (Hplain : glob_plain "2024-03-16" = true) by reflexivity.
  assert (Hscope : Forall (fun p => unique_labels p = true /\ numeric_cases p = true)
                     [old_acme; new_acme; zeta]).
  { repeat constructor; vm_compute; reflexivity. }
  destruct (@main_outcomes plain_runtime "2024-03-16" [old_acme; new_acme; zeta]
              LatestPerBrand (CStr "now") Hplain Hscope)
    as (_ & _ & _ & Hok & _).
  assert (Hne : sorted (glob [old_acme; new_acme; zeta] (snapshot_pattern "2024-03-16"))
                <> []).
  { intros Hnil. vm_compute in Hnil. discriminate Hnil. }
  destruct (@load_raw_snapshots plain_runtime
              (select_raw_files LatestPerBrand
                 (sorted (glob [old_acme; new_acme; zeta]
                               (snapshot_pattern "2024-03-16")))))
    as [raw|e] eqn:E.
  2:{ exfalso. vm_compute in E. discriminate E. }
  destruct (Hok Hne raw eq_refl) as (metrics & Hm & Hlen & _).
  exists raw, metrics. split; [reflexivity|]. split; [exact Hm|exact Hlen].
Defined.

(** The values of some numbers, and the size of the rounding in the row
    2, 7, 1, 10: the sum of the two components is one unit of [2^-53]
    below the volume change. *)
Example value_examples :
  value 1 = 2 ^ 1074 /\ value 0.5 = 2 ^ 1073 /\ value (-3) = - 3 * 2 ^ 1074 /\
  value 0 = 0 /\ value 5e-324 = 1 /\
  value (1.2999999999999998 + -0.29999999999999993) - value 1 = - 2 ^ 1021.
Proof. repeat split; vm_compute; reflexivity. Qed.
